(** * Pakistan sales data generator

    A shallow embedding of [PakistanSalesDataGenerator]
    (generate_pakistan_sales_data.py): the entity generators, the referential
    links between the generated tables and the monetary fields of orders.

    Conventions of the embedding.
    - Python's process-wide [random] source is an explicit tape of integer
      draws threaded through a state-and-exception monad; every primitive
      ([randint], [choice], [random], [uniform], [choices], [sample]) maps the
      draws it consumes into its range, so a statement quantified over all
      tapes covers every run.
    - A Python [float] is the rational value of a finite binary64 number; each
      arithmetic operation is the exact rational operation followed by
      rounding to nearest, ties to even, on 53 significant bits with
      subnormals below 2^-1022; sample operations are compared with the
      IEEE 754 specification of the Standard Library.  The overflow
      threshold 2^1024 is not represented: every amount the generator
      computes from a catalogue of [generate_products] stays below 2^21.
    - A Python [int] is a [Z].
    - [datetime.now().date()] is the section variable [today], a day number;
      dates obtained from it by [timedelta] arithmetic are day numbers too. *)

From Stdlib Require Import String Ascii DecimalString.
From Stdlib Require Import ZArith QArith Qround Qabs Qpower Lqa Lia.
From Stdlib Require Import List Bool FinFun.
From Stdlib Require SpecFloat.
Import ListNotations.

(** ** Exceptions, the random tape and the generator monad *)

Inductive exn : Type :=
| IndexError   (* random.choice on an empty sequence *)
| ValueError.  (* empty randint range, sample larger than population *)

Inductive result (A : Type) : Type :=
| Ok (a : A)
| Raise (e : exn).
Arguments Ok {A} a.
Arguments Raise {A} e.

Record rng : Type := mkRng { tape : nat -> Z; pos : nat }.

Definition M (A : Type) : Type := rng -> result (A * rng).

Definition ret {A} (a : A) : M A := fun g => Ok (a, g).

Definition bind {A B} (c : M A) (k : A -> M B) : M B :=
  fun g => match c g with
           | Ok (a, g') => k a g'
           | Raise e => Raise e
           end.

Definition raise {A} (e : exn) : M A := fun _ => Raise e.

Notation "x <- c ;; k" := (bind c (fun x => k))
  (at level 61, c at next level, right associativity).
Notation "' pat <- c ;; k" := (bind c (fun x => match x with pat => k end))
  (at level 61, pat pattern, c at next level, right associativity).

(** [for x in l: s = f(s, x)] *)
Fixpoint foldM {S A} (f : S -> A -> M S) (s : S) (l : list A) : M S :=
  match l with
  | [] => ret s
  | x :: l' => s' <- f s x ;; foldM f s' l'
  end.

(** [range(a, b)] *)
Definition range (a b : Z) : list Z :=
  map (fun i => (a + Z.of_nat i)%Z) (seq 0 (Z.to_nat (b - a))).

(** ** Binary64 arithmetic on rational values *)

Definition pow2 (z : Z) : Q := (2 # 1) ^ z.

(** floor (log2 |x|) for x <> 0 *)
Definition ilog2 (x : Q) : Z :=
  let e := (Z.log2 (Z.abs (Qnum x)) - Z.log2 (Zpos (Qden x)))%Z in
  if Qle_bool (pow2 e) (Qabs x) then e else (e - 1)%Z.

Definition round_half_even (x : Q) : Z :=
  let f := Qfloor x in
  match Qcompare (x - inject_Z f) (1 # 2) with
  | Lt => f
  | Gt => (f + 1)%Z
  | Eq => if Z.even f then f else (f + 1)%Z
  end.

(** exponent of the unit in the last place of the binade of [x] *)
Definition quantum (x : Q) : Z := Z.max (ilog2 x - 52) (-1074).

(** round to nearest binary64, ties to even *)
Definition RN (x : Q) : Q :=
  let q := quantum x in
  Qred (inject_Z (round_half_even (x * pow2 (- q))) * pow2 q).

Definition fadd (x y : Q) : Q := RN (x + y).
Definition fsub (x y : Q) : Q := RN (x - y).
Definition fmul (x y : Q) : Q := RN (x * y).
Definition fdiv (x y : Q) : Q := RN (x / y).

(** a decimal literal of the source, and [float(n)] for an [int] *)
Definition float_lit (q : Q) : Q := RN q.
Definition float_of_int (n : Z) : Q := RN (inject_Z n).

(** [round(x, 2)] on a float: the exact value is rounded half-even to two
    decimals and the decimal is read back as the nearest binary64. *)
Definition round2 (x : Q) : Q :=
  RN (inject_Z (round_half_even (x * 100)) / 100).

(** the value of a finite binary64 number of the Standard Library's IEEE 754
    specification, to compare its operations with the ones above *)
Definition SF2Q (s : SpecFloat.spec_float) : Q :=
  match s with
  | SpecFloat.S754_finite sg m e =>
      Qred ((if sg then -1 else 1) * inject_Z (Zpos m) * pow2 e)
  | _ => 0
  end.

(** 0.1, 0.2, a neighbour of 1/3, an amount of about 1258291.2 and two
    numbers whose product is subnormal *)
Definition sf_tenth : SpecFloat.spec_float :=
  SpecFloat.S754_finite false 7205759403792794 (-56).
Definition sf_fifth : SpecFloat.spec_float :=
  SpecFloat.S754_finite false 7205759403792794 (-55).
Definition sf_third : SpecFloat.spec_float :=
  SpecFloat.S754_finite false 6004799503160661 (-54).
Definition sf_amount : SpecFloat.spec_float :=
  SpecFloat.S754_finite false 5404319552844595 (-32).
Definition sf_small1 : SpecFloat.spec_float :=
  SpecFloat.S754_finite false 6004799503160661 (-652).
Definition sf_small2 : SpecFloat.spec_float :=
  SpecFloat.S754_finite false 5404319552844595 (-500).

(** ** The [random] module *)

Definition next_draw : M Z :=
  fun g => Ok (tape g (pos g), mkRng (tape g) (S (pos g))).

(** [_randbelow(n)], n > 0 *)
Definition randbelow (n : Z) : M Z :=
  d <- next_draw ;; ret (d mod n)%Z.

Definition randint (a b : Z) : M Z :=
  if (b - a + 1 <=? 0)%Z then raise ValueError
  else j <- randbelow (b - a + 1) ;; ret (a + j)%Z.

Definition choice {A} (l : list A) : M A :=
  match l with
  | [] => raise IndexError
  | d :: _ => j <- randbelow (Z.of_nat (length l)) ;; ret (nth (Z.to_nat j) l d)
  end.

(** [random()]: a multiple of 2^-53 in [0, 1) *)
Definition random_random : M Q :=
  d <- next_draw ;; ret (Qred (inject_Z (d mod 2 ^ 53) / inject_Z (2 ^ 53))).

(** [uniform(a, b)] is [a + (b - a) * random()] *)
Definition uniform (a b : Q) : M Q :=
  r <- random_random ;; ret (fadd a (fmul (fsub b a) r)).

Fixpoint accumulate (acc : Q) (ws : list Q) : list Q :=
  match ws with
  | [] => []
  | w :: ws' => let s := fadd acc w in s :: accumulate s ws'
  end.

(** [bisect_right(cum, x, 0, hi)] counted from index [i]: on the
    nondecreasing list of cumulative weights, the first position below [hi]
    whose entry exceeds [x], and [hi] if there is none *)
Fixpoint bisect (cum : list Q) (x : Q) (i hi : nat) : nat :=
  match cum with
  | [] => i
  | c :: cum' =>
      if (hi <=? i)%nat then i
      else if Qlt_le_dec x c then i else bisect cum' x (S i) hi
  end.

(** [choices(population, weights=ws)[0]] *)
Definition choices1 {A} (population : list A) (ws : list Q) : M A :=
  match population with
  | [] => raise IndexError
  | d :: _ =>
      let cum := accumulate 0 ws in
      let total := fadd (last cum 0) 0 in
      if Qle_bool total 0 then raise ValueError
      else
        r <- random_random ;;
        ret (nth (bisect cum (fmul r total) 0 (length population - 1)) population d)
  end.

Fixpoint replace_nth {A} (n : nat) (l : list A) (x : A) : list A :=
  match l, n with
  | [], _ => []
  | _ :: t, O => x :: t
  | h :: t, S n' => h :: replace_nth n' t x
  end.

(** the selection loop of [sample]: pick a position of the pool, then move
    the last pool entry into the vacancy *)
Fixpoint sample_pool {A} (pool : list A) (k : nat) : M (list A) :=
  match k with
  | O => ret []
  | S k' =>
      match pool with
      | [] => raise ValueError
      | d :: _ =>
          let n := length pool in
          j <- randbelow (Z.of_nat n) ;;
          let x := nth (Z.to_nat j) pool d in
          let pool' := firstn (n - 1) (replace_nth (Z.to_nat j) pool (nth (n - 1) pool d)) in
          rest <- sample_pool pool' k' ;;
          ret (x :: rest)
      end
  end.

(** [sample(population, k)]; CPython switches to rejection sampling of
    distinct positions for populations of more than 21 entries, with the
    same contract: [k] entries taken at pairwise distinct positions.  The
    statements below use only that the result has [k] entries, all of them
    entries of the population. *)
Definition sample {A} (population : list A) (k : Z) : M (list A) :=
  if ((k <? 0) || (Z.of_nat (length population) <? k))%Z then raise ValueError
  else sample_pool population (Z.to_nat k).

(** ** Strings *)

Open Scope string_scope.

Definition lower_ascii (c : ascii) : ascii :=
  let n := nat_of_ascii c in
  if ((65 <=? n) && (n <=? 90))%nat then ascii_of_nat (n + 32) else c.

Fixpoint lower (s : string) : string :=
  match s with
  | EmptyString => EmptyString
  | String c s' => String (lower_ascii c) (lower s')
  end.

(** [s.replace(' ', '')] *)
Fixpoint remove_spaces (s : string) : string :=
  match s with
  | EmptyString => EmptyString
  | String c s' =>
      if Ascii.eqb c " "%char then remove_spaces s' else String c (remove_spaces s')
  end.

(** [sub in s] *)
Fixpoint contains (sub s : string) : bool :=
  if prefix sub s then true
  else match s with
       | EmptyString => false
       | String _ s' => contains sub s'
       end.

(** [str(n)] *)
Definition str (n : Z) : string := NilZero.string_of_int (Z.to_int n).

(** [f"{n:03d}"] for n >= 0 *)
Definition fmt03d (n : Z) : string :=
  let s := str n in
  match String.length s with
  | 0%nat => "000" ++ s
  | 1%nat => "00" ++ s
  | 2%nat => "0" ++ s
  | _ => s
  end.

Close Scope string_scope.

(** ** Data model: one record per generated table *)

(** [datetime(y, m, d).date()] *)
Record date : Type := mkDate { year : Z; month : Z; day : Z }.

Module Customer.
Record t : Type := mk {
    CUSTOMER_ID : Z;
    FIRST_NAME : string;
    LAST_NAME : string;
    EMAIL : string;
    PHONE : string;
    DATE_OF_BIRTH : date;
    GENDER : string;
    MARITAL_STATUS : string;
    EDUCATION_LEVEL : string;
    ANNUAL_INCOME : Z;
    CUSTOMER_SEGMENT : string;
    REGISTRATION_DATE : Z;
    IS_ACTIVE : bool
  }.
End Customer.

Module Address.
Record t : Type := mk {
    ADDRESS_ID : Z;
    CUSTOMER_ID : Z;
    ADDRESS_TYPE : string;
    STREET_ADDRESS : string;
    CITY : string;
    PROVINCE : string;
    POSTAL_CODE : string;
    COUNTRY : string;
    IS_DEFAULT : bool
  }.
End Address.

Module Category.
Record t : Type := mk {
    CATEGORY_ID : Z;
    CATEGORY_NAME : string;
    DESCRIPTION : string;
    PARENT_CATEGORY_ID : option Z;
    IS_ACTIVE : bool
  }.
End Category.

Module Product.
Record t : Type := mk {
    PRODUCT_ID : Z;
    PRODUCT_NAME : string;
    CATEGORY_ID : Z;
    BRAND : string;
    MODEL : string;
    DESCRIPTION : string;
    UNIT_COST : Q;
    UNIT_PRICE : Z;
    MSRP : Q;
    WEIGHT_KG : Q;
    DIMENSIONS_CM : string;
    IS_ACTIVE : bool
  }.
End Product.

Module Store.
Record t : Type := mk {
    STORE_ID : Z;
    STORE_NAME : string;
    STORE_CODE : string;
    ADDRESS : string;
    CITY : string;
    PROVINCE : string;
    POSTAL_CODE : string;
    PHONE : string;
    EMAIL : string;
    MANAGER_ID : option Z;
    STORE_TYPE : string;
    IS_ACTIVE : bool;
    OPENING_DATE : Z
  }.

(** [store['MANAGER_ID'] = m] *)
Definition set_MANAGER_ID (s : t) (m : Z) : t :=
    mk (STORE_ID s) (STORE_NAME s) (STORE_CODE s) (ADDRESS s) (CITY s)
       (PROVINCE s) (POSTAL_CODE s) (PHONE s) (EMAIL s) (Some m)
       (STORE_TYPE s) (IS_ACTIVE s) (OPENING_DATE s).
End Store.

Module Employee.
Record t : Type := mk {
    EMPLOYEE_ID : Z;
    FIRST_NAME : string;
    LAST_NAME : string;
    EMAIL : string;
    PHONE : string;
    HIRE_DATE : Z;
    JOB_TITLE : string;
    DEPARTMENT : string;
    STORE_ID : Z;
    MANAGER_ID : option Z;
    SALARY : Z;
    IS_ACTIVE : bool
  }.

(** [emp['MANAGER_ID'] = m] *)
Definition set_MANAGER_ID (e : t) (m : Z) : t :=
    mk (EMPLOYEE_ID e) (FIRST_NAME e) (LAST_NAME e) (EMAIL e) (PHONE e)
       (HIRE_DATE e) (JOB_TITLE e) (DEPARTMENT e) (STORE_ID e) (Some m)
       (SALARY e) (IS_ACTIVE e).
End Employee.

Module Order.
Record t : Type := mk {
    ORDER_ID : Z;
    CUSTOMER_ID : Z;
    STORE_ID : Z;
    EMPLOYEE_ID : Z;
    ORDER_DATE : Z;
    REQUIRED_DATE : Z;
    SHIP_DATE : option Z;
    ORDER_STATUS : string;
    SHIP_METHOD : string;
    SHIPPING_ADDRESS_ID : option Z;
    TOTAL_AMOUNT : Q;
    TAX_AMOUNT : Q;
    SHIPPING_COST : Z;
    DISCOUNT_AMOUNT : Q;
    FINAL_AMOUNT : Q;
    PAYMENT_METHOD : string;
    PAYMENT_STATUS : string;
    NOTES : string
  }.
End Order.

Module OrderLine.
Record t : Type := mk {
    ORDER_ID : Z;
    PRODUCT_ID : Z;
    QUANTITY_ORDERED : Z;
    UNIT_PRICE : Z;
    DISCOUNT_PERCENT : Q;
    TOTAL_LINE_AMOUNT : Q
  }.
End OrderLine.

(** a row of the flattened [sales_data] view *)
Module Sale.
Record t : Type := mk {
    ORDER_ID : Z;
    CUSTOMER_ID : Z;
    PRODUCT_ID : Z;
    STORE_ID : Z;
    EMPLOYEE_ID : Z;
    ORDER_DATE : Z;
    SHIP_DATE : option Z;
    QUANTITY_ORDERED : Z;
    UNIT_PRICE : Z;
    DISCOUNT_PERCENT : Q;
    TOTAL_AMOUNT : Q;
    PAYMENT_METHOD : string;
    ORDER_STATUS : string;
    SHIP_METHOD : string
  }.
End Sale.

(** the dictionary returned by [generate_all_data] *)
Module Data.
Record t : Type := mk {
    customers : list Customer.t;
    customer_addresses : list Address.t;
    product_categories : list Category.t;
    products : list Product.t;
    stores : list Store.t;
    employees : list Employee.t;
    orders : list Order.t;
    order_details : list OrderLine.t;
    sales_data : list Sale.t
  }.
End Data.

(** ** The tables of [__init__] *)

Open Scope string_scope.

Definition provinces : list (string * list string) :=
  [ ("Punjab", ["Lahore"; "Faisalabad"; "Rawalpindi"; "Multan"; "Gujranwala"; "Sialkot"; "Bahawalpur"; "Sargodha"]);
    ("Sindh", ["Karachi"; "Hyderabad"; "Sukkur"; "Larkana"; "Nawabshah"; "Mirpur Khas"; "Jacobabad"]);
    ("Khyber Pakhtunkhwa", ["Peshawar"; "Mardan"; "Abbottabad"; "Swat"; "Nowshera"; "Charsadda"; "Mansehra"]);
    ("Balochistan", ["Quetta"; "Turbat"; "Khuzdar"; "Chaman"; "Zhob"; "Gwadar"]);
    ("Gilgit-Baltistan", ["Gilgit"; "Skardu"; "Chilas"; "Astore"]);
    ("Azad Kashmir", ["Muzaffarabad"; "Mirpur"; "Kotli"; "Rawalakot"]) ].

Definition first_names : list string :=
  [ "Ahmed"; "Ali"; "Hassan"; "Hussein"; "Muhammad"; "Usman"; "Umar"; "Bilal"; "Hamza"; "Zain";
    "Fatima"; "Aisha"; "Maryam"; "Zara"; "Hania"; "Sana"; "Ayesha"; "Noor"; "Mariam"; "Zoya";
    "Abdullah"; "Ibrahim"; "Yusuf"; "Haris"; "Rayyan"; "Arham"; "Zayan"; "Ayan"; "Amaan"; "Shahzad";
    "Amina"; "Khadija"; "Sumaya"; "Hafsa"; "Jannat"; "Mahnoor"; "Alina"; "Sadia"; "Nida"; "Rabia" ].

Definition last_names : list string :=
  [ "Khan"; "Ali"; "Hussain"; "Ahmed"; "Malik"; "Raza"; "Hassan"; "Abbas"; "Rizvi"; "Zaidi";
    "Shah"; "Qureshi"; "Hashmi"; "Jafri"; "Naqvi"; "Rizwan"; "Siddiqui"; "Farooq"; "Khalid"; "Saleem";
    "Rehman"; "Iqbal"; "Akhtar"; "Nadeem"; "Rashid"; "Tariq"; "Waseem"; "Naeem"; "Saeed"; "Zahid" ].

(** [self.product_categories]: id, name, brands *)
Definition product_categories : list (Z * (string * list string)) :=
  [ (1%Z, ("Electronics", ["Samsung"; "Huawei"; "Oppo"; "Vivo"; "Infinix"; "Tecno"; "QMobile"]));
    (2%Z, ("Textiles", ["Gul Ahmed"; "Khaadi"; "Alkaram"; "Chen One"; "Bonanza"; "Sapphire"]));
    (3%Z, ("Food & Beverages", ["Nestle"; "Unilever"; "Engro"; "Shan Foods"; "National Foods"; "Mitchells"]));
    (4%Z, ("Automotive", ["Suzuki"; "Toyota"; "Honda"; "Daihatsu"; "Nissan"; "Mitsubishi"]));
    (5%Z, ("Home & Garden", ["IKEA"; "Habitt"; "Interwood"; "Chenab"; "Furniture Mall"]));
    (6%Z, ("Beauty & Personal Care", ["L'Oreal"; "Garnier"; "Fair & Lovely"; "Clean & Clear"; "Ponds"]));
    (7%Z, ("Sports & Fitness", ["Nike"; "Adidas"; "Puma"; "Reebok"; "Under Armour"]));
    (8%Z, ("Books & Stationery", ["Oxford"; "Pelikan"; "Dollar"; "Pilot"; "Staedtler"])) ].

Definition store_types : list string :=
  ["Retail"; "Supermarket"; "Department Store"; "Specialty Store"; "Outlet"; "Mall"].

Definition payment_methods : list string :=
  ["Cash"; "Credit Card"; "Debit Card"; "Mobile Banking"; "Bank Transfer"; "EasyPaisa"; "JazzCash"].

Definition shipping_methods : list string :=
  ["Standard"; "Express"; "Same Day"; "Pickup"; "Courier"].

Definition customer_segments : list string := ["Premium"; "Regular"; "Occasional"; "VIP"].

Definition education_levels : list string :=
  ["Primary"; "Secondary"; "Higher Secondary"; "Bachelor"; "Master"; "PhD"; "Other"].

Definition marital_statuses : list string := ["Single"; "Married"; "Divorced"; "Widowed"].

Definition genders : list string := ["M"; "F"; "Other"].

(** [[True, True, True, False]] *)
Definition mostly_true : list bool := [true; true; true; false].

Close Scope string_scope.

(** ** The generators *)

Section Generator.

(** [datetime.now().date()] *)
Variable today : Z.

Open Scope string_scope.

(** [f"+92-{random.randint(300, 349)}-{random.randint(1000000, 9999999)}"] *)
Definition gen_phone : M string :=
  a <- randint 300 349 ;;
  b <- randint 1000000 9999999 ;;
  ret ("+92-" ++ str a ++ "-" ++ str b).

(** one iteration of the loop of [generate_customers] *)
Definition new_customer (i : Z) : M Customer.t :=
  first_name <- choice first_names ;;
  last_name <- choice last_names ;;
  domain <- choice ["gmail.com"; "yahoo.com"; "hotmail.com"; "outlook.com"] ;;
  let email := lower first_name ++ "." ++ lower last_name ++ "@" ++ domain in
  phone <- gen_phone ;;
  birth_year <- randint 1944 2006 ;;
  birth_month <- randint 1 12 ;;
  birth_day <- randint 1 28 ;;
  let date_of_birth := mkDate birth_year birth_month birth_day in
  reg_days <- randint 0 1825 ;;
  let registration_date := (today - reg_days)%Z in
  segment <- choices1 customer_segments
               [float_lit (1 # 10); float_lit (6 # 10); float_lit (25 # 100); float_lit (5 # 100)] ;;
  annual_income <-
    (if segment =? "Premium" then randint 1500000 5000000
     else if segment =? "VIP" then randint 5000000 15000000
     else if segment =? "Regular" then randint 500000 1500000
     else randint 200000 800000) ;;
  gender <- choice genders ;;
  marital_status <- choice marital_statuses ;;
  education_level <- choice education_levels ;;
  is_active <- choice mostly_true ;;
  ret (Customer.mk i first_name last_name email phone date_of_birth gender
         marital_status education_level annual_income segment
         registration_date is_active).

Definition generate_customers (num_customers : Z) : M (list Customer.t) :=
  foldM (fun customers i => c <- new_customer i ;; ret (customers ++ [c])%list)
        [] (range 1 (num_customers + 1)).

Definition street_names : list string :=
  [ "Main Boulevard"; "Park Road"; "Mall Road"; "College Road"; "University Road";
    "Industrial Area"; "Defence Housing"; "Gulberg"; "Model Town"; "Johar Town";
    "Bahria Town"; "DHA"; "Clifton"; "Saddar"; "Cantt" ].

(** a key of [self.provinces] and the list stored under it *)
Definition gen_locality : M (string * string) :=
  entry <- choice provinces ;;
  city <- choice (snd entry) ;;
  ret (fst entry, city).

(** the body of the inner loop of [generate_customer_addresses]; the state
    is the list [addresses] and the counter [address_id] *)
Definition new_address (customer : Customer.t) (st : list Address.t * Z) (i : Z)
  : M (list Address.t * Z) :=
  let '(addresses, address_id) := st in
  '(province, city) <- gen_locality ;;
  n1 <- randint 1 999 ;;
  blk <- choice ["A"; "B"; "C"; "D"; "E"] ;;
  n2 <- randint 1 999 ;;
  let street_numbers := [str n1; "Block " ++ blk; "House " ++ str n2] in
  sn <- choice street_numbers ;;
  st_name <- choice street_names ;;
  let street_address := sn ++ " " ++ st_name in
  pc <- randint 10000 99999 ;;
  let postal_code := str pc in
  ret ((addresses ++
          [Address.mk address_id (Customer.CUSTOMER_ID customer)
             (if (i =? 0)%Z then "Primary" else "Secondary")
             street_address city province postal_code "Pakistan" (i =? 0)%Z])%list,
       (address_id + 1)%Z).

Definition addresses_of_customer (st : list Address.t * Z) (customer : Customer.t)
  : M (list Address.t * Z) :=
  num_addresses <- choices1 [1%Z; 2%Z] [float_lit (8 # 10); float_lit (2 # 10)] ;;
  foldM (new_address customer) st (range 0 num_addresses).

Definition generate_customer_addresses (customers : list Customer.t) : M (list Address.t) :=
  st <- foldM addresses_of_customer ([], 1%Z) customers ;;
  ret (fst st).

Definition generate_product_categories : list Category.t :=
  map (fun kv : Z * (string * list string) =>
         let '(cat_id, (name, _)) := kv in
         Category.mk cat_id name ("Products in " ++ name ++ " category") None true)
      product_categories.

Definition electronics_names : list string :=
  ["Smartphone"; "Laptop"; "Tablet"; "TV"; "Headphones"; "Camera"; "Speaker"; "Charger"].
Definition textiles_names : list string :=
  ["Shirt"; "Pants"; "Dress"; "Suit"; "Kurta"; "Shalwar"; "Dupatta"; "Scarf"].
Definition food_names : list string :=
  ["Rice"; "Oil"; "Tea"; "Biscuits"; "Chocolate"; "Juice"; "Milk"; "Bread"].

(** one iteration of the loop of [generate_products] *)
Definition new_product (i : Z) : M Product.t :=
  category <- choice product_categories ;;
  let category_id := fst category in
  brand <- choice (snd (snd category)) ;;
  product_name <-
    (if (category_id =? 1)%Z then
       n <- choice electronics_names ;; k <- randint 1 20 ;;
       ret (brand ++ " " ++ n ++ " " ++ str k)
     else if (category_id =? 2)%Z then
       n <- choice textiles_names ;; ret (brand ++ " " ++ n)
     else if (category_id =? 3)%Z then
       n <- choice food_names ;; ret (brand ++ " " ++ n)
     else ret (brand ++ " Product " ++ str i)) ;;
  base_price <- randint 500 50000 ;;
  u <- uniform (float_lit (6 # 10)) (float_lit (8 # 10)) ;;
  let unit_cost := fmul (float_of_int base_price) u in
  let unit_price := base_price in
  v <- uniform (float_lit (11 # 10)) (float_lit (13 # 10)) ;;
  let msrp := fmul (float_of_int base_price) v in
  weight_kg <-
    (if existsb (Z.eqb category_id) [3; 7; 8]%Z
     then uniform (float_lit (1 # 100)) (float_lit 2)
     else uniform (float_lit (1 # 10)) (float_lit 10)) ;;
  d1 <- randint 10 100 ;;
  d2 <- randint 10 100 ;;
  d3 <- randint 1 50 ;;
  let dimensions := str d1 ++ "x" ++ str d2 ++ "x" ++ str d3 ++ " cm" in
  model <- randint 1000 9999 ;;
  is_active <- choice mostly_true ;;
  ret (Product.mk i product_name category_id brand ("Model-" ++ str model)
         ("High quality " ++ lower product_name ++ " from " ++ brand)
         (round2 unit_cost)
         unit_price        (* round() of an int is that int *)
         (round2 msrp) (round2 weight_kg) dimensions is_active).

Definition generate_products (num_products : Z) : M (list Product.t) :=
  foldM (fun products i => p <- new_product i ;; ret (products ++ [p])%list)
        [] (range 1 (num_products + 1)).

(** one iteration of the loop of [generate_stores] *)
Definition new_store (i : Z) : M Store.t :=
  '(province, city) <- gen_locality ;;
  w1 <- choice ["Mega"; "Super"; "Prime"; "Elite"; "Premium"; "Express"] ;;
  w2 <- choice ["Store"; "Mart"; "Center"; "Plaza"; "Mall"] ;;
  let store_name := w1 ++ " " ++ w2 ++ " " ++ str i in
  let store_code := "ST" ++ fmt03d i in
  n <- randint 1 999 ;;
  road <- choice ["Main Road"; "Commercial Area"; "Market Street"; "Shopping District"] ;;
  let street_address := str n ++ " " ++ road in
  phone <- gen_phone ;;
  let email := "info@" ++ remove_spaces (lower store_name) ++ ".com" in
  open_days <- randint 0 3650 ;;
  let opening_date := (today - open_days)%Z in
  pc <- randint 10000 99999 ;;
  store_type <- choice store_types ;;
  is_active <- choice mostly_true ;;
  ret (Store.mk i store_name store_code street_address city province (str pc)
         phone email None store_type is_active opening_date).

Definition generate_stores (num_stores : Z) : M (list Store.t) :=
  foldM (fun stores i => s <- new_store i ;; ret (stores ++ [s])%list)
        [] (range 1 (num_stores + 1)).

Definition job_titles : list string :=
  ["Sales Associate"; "Cashier"; "Manager"; "Supervisor"; "Customer Service"; "Stock Clerk"].

Definition departments : list string :=
  ["Sales"; "Customer Service"; "Operations"; "Management"; "Inventory"].

(** one iteration of the first loop of [generate_employees] *)
Definition new_employee (stores : list Store.t) (i : Z) : M Employee.t :=
  first_name <- choice first_names ;;
  last_name <- choice last_names ;;
  let email := lower first_name ++ "." ++ lower last_name ++ "@company.com" in
  phone <- gen_phone ;;
  hire_days <- randint 0 1825 ;;
  let hire_date := (today - hire_days)%Z in
  job_title <- choice job_titles ;;
  department <- choice departments ;;
  store <- choice stores ;;
  let store_id := Store.STORE_ID store in
  salary <-
    (if contains "Manager" job_title then randint 80000 150000
     else if contains "Supervisor" job_title then randint 60000 100000
     else randint 30000 60000) ;;
  is_active <- choice mostly_true ;;
  ret (Employee.mk i first_name last_name email phone hire_date job_title
         department store_id None salary is_active).

(** ['Manager' in e['JOB_TITLE']] *)
Definition is_manager (e : Employee.t) : bool :=
  contains "Manager" (Employee.JOB_TITLE e).

(** The first back-fill pass walks [non_managers], whose dictionaries are
    the very objects held by [employees]: an assignment to
    [emp['MANAGER_ID']] is seen through [employees].  The pass is therefore
    a rewrite of [employees] in place that leaves the managers alone and
    draws for the other entries in list order. *)
Definition assign_manager (managers : list Employee.t)
    (done : list Employee.t) (emp : Employee.t) : M (list Employee.t) :=
  if is_manager emp then ret (done ++ [emp])%list
  else
    r <- random_random ;;
    if Qlt_le_dec r (float_lit (3 # 10)) then
      m <- choice managers ;;
      ret (done ++ [Employee.set_MANAGER_ID emp (Employee.EMPLOYEE_ID m)])%list
    else ret (done ++ [emp])%list.

(** The second back-fill pass writes [store['MANAGER_ID']] into the
    dictionaries of the caller's [stores] list. *)
Definition assign_store_manager (employees : list Employee.t)
    (done : list Store.t) (store : Store.t) : M (list Store.t) :=
  let store_employees :=
    filter (fun e => (Employee.STORE_ID e =? Store.STORE_ID store)%Z && is_manager e)
           employees in
  match store_employees with
  | [] => ret (done ++ [store])%list
  | _ :: _ =>
      m <- choice store_employees ;;
      ret (done ++ [Store.set_MANAGER_ID store (Employee.EMPLOYEE_ID m)])%list
  end.

(** returns [employees] together with the caller's [stores] as the second
    pass leaves them *)
Definition generate_employees (stores : list Store.t) (num_employees : Z)
  : M (list Employee.t * list Store.t) :=
  employees <- foldM (fun employees i =>
                        e <- new_employee stores i ;; ret (employees ++ [e])%list)
                     [] (range 1 (num_employees + 1)) ;;
  let managers := filter is_manager employees in
  employees <- foldM (assign_manager managers) [] employees ;;
  stores <- foldM (assign_store_manager employees) [] stores ;;
  ret (employees, stores).

(** the body of the loop over [order_products]; the state is
    [total_amount], [discount_amount] and the list [order_details] *)
Definition new_line (i : Z) (st : Q * Q * list OrderLine.t) (product : Product.t)
  : M (Q * Q * list OrderLine.t) :=
  let '(total_amount, discount_amount, order_details) := st in
  quantity <- randint 1 5 ;;
  let unit_price := Product.UNIT_PRICE product in
  discount_percent <- uniform 0 (float_lit (2 # 10)) ;;
  let discount_amount :=
    fadd discount_amount (fmul (float_of_int (unit_price * quantity)) discount_percent) in
  let line_amount :=
    fmul (float_of_int (unit_price * quantity)) (fsub 1 discount_percent) in
  let total_amount := fadd total_amount line_amount in
  ret (total_amount, discount_amount,
       (order_details ++
          [OrderLine.mk i (Product.PRODUCT_ID product) quantity unit_price
             (round2 (fmul discount_percent 100)) (round2 line_amount)])%list).

(** one iteration of the loop of [generate_orders]; the state is the pair
    of lists [orders], [order_details] *)
Definition new_order (customers : list Customer.t) (stores : list Store.t)
    (employees : list Employee.t) (products : list Product.t)
    (st : list Order.t * list OrderLine.t) (i : Z)
  : M (list Order.t * list OrderLine.t) :=
  let '(orders, order_details) := st in
  customer <- choice customers ;;
  store <- choice stores ;;
  employee <- choice (filter (fun e => (Employee.STORE_ID e =? Store.STORE_ID store)%Z)
                             employees) ;;
  od <- randint 0 730 ;;
  let order_date := (today - od)%Z in
  rd <- randint 1 14 ;;
  let required_date := (order_date + rd)%Z in
  r <- random_random ;;
  ship_date <-
    (if Qlt_le_dec r (float_lit (8 # 10))
     then sd <- randint 1 7 ;; ret (Some (order_date + sd)%Z)
     else ret None) ;;
  order_status <-
    match ship_date with
    | Some d => if (d <? today)%Z then choice ["Delivered"; "Shipped"] else ret "Shipped"
    | None => choice ["Pending"; "Processing"]
    end ;;
  num_products <- randint 1 5 ;;
  order_products <- sample products (Z.min num_products (Z.of_nat (List.length products))) ;;
  shipping_cost <- randint 0 500 ;;
  '(total_amount, discount_amount, order_details) <-
    foldM (new_line i) (0, 0, order_details) order_products ;;
  let tax_amount := fmul total_amount (float_lit (15 # 100)) in
  let final_amount :=
    fsub (fadd (fadd total_amount tax_amount) (float_of_int shipping_cost))
         discount_amount in
  ship_method <- choice shipping_methods ;;
  payment_method <- choice payment_methods ;;
  ret ((orders ++
          [Order.mk i (Customer.CUSTOMER_ID customer) (Store.STORE_ID store)
             (Employee.EMPLOYEE_ID employee) order_date required_date ship_date
             order_status ship_method None
             (round2 total_amount) (round2 tax_amount) shipping_cost
             (round2 discount_amount) (round2 final_amount) payment_method
             (if existsb (String.eqb order_status) ["Delivered"; "Shipped"]
              then "Completed" else "Pending")
             ("Order placed by " ++ Customer.FIRST_NAME customer ++ " "
                ++ Customer.LAST_NAME customer)])%list,
       order_details).

Definition generate_orders (customers : list Customer.t) (stores : list Store.t)
    (employees : list Employee.t) (products : list Product.t) (num_orders : Z)
  : M (list Order.t * list OrderLine.t) :=
  foldM (new_order customers stores employees products) ([], [])
        (range 1 (num_orders + 1)).

(** [next((x for x in l if x[key] == k), None)] *)
Definition first_match {A} (key : A -> Z) (k : Z) (l : list A) : option A :=
  find (fun x => (key x =? k)%Z) l.

(** the body of the loop that builds [sales_data] *)
Definition add_sale (customers : list Customer.t) (products : list Product.t)
    (stores : list Store.t) (employees : list Employee.t)
    (order_details : list OrderLine.t)
    (sales_data : list Sale.t) (order : Order.t) : list Sale.t :=
  match first_match OrderLine.ORDER_ID (Order.ORDER_ID order) order_details with
  | None => sales_data
  | Some order_detail =>
      match first_match Customer.CUSTOMER_ID (Order.CUSTOMER_ID order) customers,
            first_match Product.PRODUCT_ID (OrderLine.PRODUCT_ID order_detail) products,
            first_match Store.STORE_ID (Order.STORE_ID order) stores,
            first_match Employee.EMPLOYEE_ID (Order.EMPLOYEE_ID order) employees
      with
      | Some _, Some _, Some _, Some _ =>
          (sales_data ++
             [Sale.mk (Order.ORDER_ID order) (Order.CUSTOMER_ID order)
                (OrderLine.PRODUCT_ID order_detail) (Order.STORE_ID order)
                (Order.EMPLOYEE_ID order) (Order.ORDER_DATE order)
                (Order.SHIP_DATE order) (OrderLine.QUANTITY_ORDERED order_detail)
                (OrderLine.UNIT_PRICE order_detail)
                (OrderLine.DISCOUNT_PERCENT order_detail)
                (OrderLine.TOTAL_LINE_AMOUNT order_detail)
                (Order.PAYMENT_METHOD order) (Order.ORDER_STATUS order)
                (Order.SHIP_METHOD order)])%list
      | _, _, _, _ => sales_data
      end
  end.

Definition build_sales_data (customers : list Customer.t) (products : list Product.t)
    (stores : list Store.t) (employees : list Employee.t)
    (orders : list Order.t) (order_details : list OrderLine.t) : list Sale.t :=
  fold_left (add_sale customers products stores employees order_details) orders [].

Definition generate_all_data
    (num_customers num_products num_stores num_employees num_orders : Z) : M Data.t :=
  customers <- generate_customers num_customers ;;
  customer_addresses <- generate_customer_addresses customers ;;
  let product_categories := generate_product_categories in
  products <- generate_products num_products ;;
  stores <- generate_stores num_stores ;;
  '(employees, stores) <- generate_employees stores num_employees ;;
  '(orders, order_details) <-
    generate_orders customers stores employees products num_orders ;;
  let sales_data :=
    build_sales_data customers products stores employees orders order_details in
  ret (Data.mk customers customer_addresses product_categories products stores
         employees orders order_details sales_data).

Close Scope string_scope.

End Generator.


(** ** [export_to_csv] *)

Open Scope string_scope.










Close Scope string_scope.


(** * Specification vocabulary *)

(** ** Outcomes of a generator run *)

(** [returns P c]: on every tape [c] finishes without an exception and its
    value satisfies [P].  [ensures P c]: whenever [c] finishes, its value
    satisfies [P]. *)
Definition returns {A} (P : A -> Prop) (c : M A) : Prop :=
  forall g, exists a g', c g = Ok (a, g') /\ P a.

Definition ensures {A} (P : A -> Prop) (c : M A) : Prop :=
  forall g a g', c g = Ok (a, g') -> P a.

Definition raises {A} (e : exn) (c : M A) : Prop := forall g, c g = Raise e.

(** ** Identifiers *)

(** a list of identifiers that counts up from [start] without a gap *)
Definition dense_from (start : Z) (ids : list Z) : Prop :=
  ids = range start (start + Z.of_nat (length ids)).

(** the addresses emitted for one customer: one or two, all carrying the
    customer's identifier, the first one the default *)
Definition address_block (c : Customer.t) (blk : list Address.t) : Prop :=
  (length blk = 1 \/ length blk = 2)%nat /\
  Forall (fun a => Address.CUSTOMER_ID a = Customer.CUSTOMER_ID c) blk /\
  exists a rest, blk = a :: rest /\ Address.IS_DEFAULT a = true /\
                 Forall (fun a' => Address.IS_DEFAULT a' = false) rest.

(** ** What an iteration of [generate_orders] draws and appends *)

(** what is drawn for one order line: the product, the quantity and the
    discount fraction *)
Definition draw : Type := (Product.t * Z * Q)%type.

Definition draw_product (d : draw) : Product.t := fst (fst d).

(** [line_amount] and the discount of a line, as the loop body computes them *)
Definition draw_amount (d : draw) : Q :=
  let '(p, q, f) := d in fmul (float_of_int (Product.UNIT_PRICE p * q)) (fsub 1 f).

Definition draw_discount (d : draw) : Q :=
  let '(p, q, f) := d in fmul (float_of_int (Product.UNIT_PRICE p * q)) f.

(** the dictionary appended to [order_details] for a draw *)
Definition draw_line (i : Z) (d : draw) : OrderLine.t :=
  let '(p, q, f) := d in
  OrderLine.mk i (Product.PRODUCT_ID p) q (Product.UNIT_PRICE p)
    (round2 (fmul f 100)) (round2 (draw_amount d)).

(** a running float sum, [acc += x] for each entry in turn *)
Definition fsum_from (acc : Q) (l : list Q) : Q := fold_left fadd l acc.

(** [total_amount] and [discount_amount] after the loop over the lines *)
Definition subtotal (draws : list draw) : Q := fsum_from 0 (map draw_amount draws).
Definition discounts (draws : list draw) : Q := fsum_from 0 (map draw_discount draws).

(** 15% GST *)
Definition tax_of (total_amount : Q) : Q := fmul total_amount (float_lit (15 # 100)).

(** [final_amount] *)
Definition final_of (total_amount discount_amount : Q) (shipping_cost : Z) : Q :=
  fsub (fadd (fadd total_amount (tax_of total_amount)) (float_of_int shipping_cost))
       discount_amount.

(** a value of [random.uniform(0, 0.2)] *)
Definition discount_fraction (f : Q) : Prop :=
  exists r, 0 <= r /\ r < 1 /\ f = fadd 0 (fmul (fsub (float_lit (2 # 10)) 0) r).

Definition draw_ok (d : draw) : Prop :=
  (1 <= snd (fst d) <= 5)%Z /\ discount_fraction (snd d).

(** order [o] with lines [lines] is what one iteration of [generate_orders]
    appends for the identifier [i] *)
Definition order_spec (customers : list Customer.t) (stores : list Store.t)
    (employees : list Employee.t) (products : list Product.t)
    (i : Z) (o : Order.t) (lines : list OrderLine.t) : Prop :=
  exists draws : list draw,
    Forall draw_ok draws /\
    incl (map draw_product draws) products /\
    (length draws <= 5)%nat /\
    lines = map (draw_line i) draws /\
    Order.ORDER_ID o = i /\
    Order.SHIPPING_ADDRESS_ID o = None /\
    (0 <= Order.SHIPPING_COST o <= 500)%Z /\
    Order.TOTAL_AMOUNT o = round2 (subtotal draws) /\
    Order.TAX_AMOUNT o = round2 (tax_of (subtotal draws)) /\
    Order.DISCOUNT_AMOUNT o = round2 (discounts draws) /\
    Order.FINAL_AMOUNT o =
      round2 (final_of (subtotal draws) (discounts draws) (Order.SHIPPING_COST o)) /\
    (exists c, In c customers /\ Customer.CUSTOMER_ID c = Order.CUSTOMER_ID o) /\
    (exists s, In s stores /\ Store.STORE_ID s = Order.STORE_ID o) /\
    (exists e, In e employees /\
               Employee.EMPLOYEE_ID e = Order.EMPLOYEE_ID o /\
               Employee.STORE_ID e = Order.STORE_ID o).

(** the two tables after the iterations for the identifiers [ids] *)
Inductive orders_built (customers : list Customer.t) (stores : list Store.t)
    (employees : list Employee.t) (products : list Product.t)
  : list Z -> list Order.t -> list OrderLine.t -> Prop :=
| built_nil : orders_built customers stores employees products [] [] []
| built_snoc ids orders details i o lines :
    orders_built customers stores employees products ids orders details ->
    order_spec customers stores employees products i o lines ->
    orders_built customers stores employees products
      (ids ++ [i]) (orders ++ [o]) (details ++ lines).

(** ** The flattened view *)

(** the row, if any, that the loop of [generate_all_data] appends for an order *)
Definition row_of (customers : list Customer.t) (products : list Product.t)
    (stores : list Store.t) (employees : list Employee.t)
    (order_details : list OrderLine.t) (order : Order.t) : list Sale.t :=
  add_sale customers products stores employees order_details [] order.

(** [od] is the first entry of [order_details] whose ORDER_ID is [k] *)
Definition first_line_of (order_details : list OrderLine.t) (k : Z) (od : OrderLine.t) : Prop :=
  exists pre post,
    order_details = pre ++ od :: post /\
    OrderLine.ORDER_ID od = k /\
    Forall (fun l => OrderLine.ORDER_ID l <> k) pre.

(** ** Amounts *)

(** the rounding error of one operation on amounts below 2^21 *)
Definition eps : Q := 1 # 4294967296.

Definition amount_range (x : Q) : Prop := - (2097152 # 1) <= x /\ x <= 2097152 # 1.

Definition price_ok (p : Product.t) : Prop :=
  (500 <= Product.UNIT_PRICE p <= 50000)%Z /\
  Product.UNIT_COST p < inject_Z (Product.UNIT_PRICE p) /\
  inject_Z (Product.UNIT_PRICE p) < Product.MSRP p.

Definition price_in_range (p : Product.t) : Prop :=
  (0 <= Product.UNIT_PRICE p <= 50000)%Z.

(** the line total as the specification states it, recomputed from the stored fields of
    the line: [round(UNIT_PRICE * QUANTITY_ORDERED * (1 - DISCOUNT_PERCENT/100), 2)] *)
Definition stated_line_total (l : OrderLine.t) : Q :=
  round2 (fmul (float_of_int (OrderLine.UNIT_PRICE l * OrderLine.QUANTITY_ORDERED l))
               (fsub 1 (fdiv (OrderLine.DISCOUNT_PERCENT l) 100))).

(** the final amount as the specification states it: the four terms combined
    left to right *)
Definition stated_final (total discount tax : Q) (shipping : Z) : Q :=
  round2 (fadd (fadd (fsub total discount) tax) (float_of_int shipping)).

(** ** Profiles of the generated rows *)

Open Scope string_scope.

(** the income band of a customer segment *)
Definition income_band (segment : string) (income : Z) : Prop :=
  (segment = "Premium" /\ (1500000 <= income <= 5000000)%Z) \/
  (segment = "VIP" /\ (5000000 <= income <= 15000000)%Z) \/
  (segment = "Regular" /\ (500000 <= income <= 1500000)%Z) \/
  (segment = "Occasional" /\ (200000 <= income <= 800000)%Z).

(** [city] is listed under [province] in [self.provinces] *)
Definition locality_ok (province city : string) : Prop :=
  exists cities, In (province, cities) provinces /\ In city cities.

Definition customer_profile_ok (today : Z) (c : Customer.t) : Prop :=
  income_band (Customer.CUSTOMER_SEGMENT c) (Customer.ANNUAL_INCOME c) /\
  (1 <= month (Customer.DATE_OF_BIRTH c) <= 12)%Z /\
  (1 <= day (Customer.DATE_OF_BIRTH c) <= 28)%Z /\
  (today - 1825 <= Customer.REGISTRATION_DATE c <= today)%Z /\
  In (Customer.FIRST_NAME c) first_names /\
  In (Customer.LAST_NAME c) last_names /\
  exists domain,
    In domain ["gmail.com"; "yahoo.com"; "hotmail.com"; "outlook.com"] /\
    Customer.EMAIL c =
      lower (Customer.FIRST_NAME c) ++ "." ++ lower (Customer.LAST_NAME c) ++ "@" ++ domain.

Definition address_detail_ok (a : Address.t) : Prop :=
  locality_ok (Address.PROVINCE a) (Address.CITY a) /\
  ((Address.IS_DEFAULT a = true /\ Address.ADDRESS_TYPE a = "Primary") \/
   (Address.IS_DEFAULT a = false /\ Address.ADDRESS_TYPE a = "Secondary")) /\
  Address.COUNTRY a = "Pakistan".

(** the category of a product is a key of [self.product_categories] and its
    brand is listed under that key *)
Definition product_catalog_ok (p : Product.t) : Prop :=
  exists name brands,
    In (Product.CATEGORY_ID p, (name, brands)) product_categories /\
    In (Product.BRAND p) brands.

Definition store_profile_ok (today : Z) (s : Store.t) : Prop :=
  Store.MANAGER_ID s = None /\
  locality_ok (Store.PROVINCE s) (Store.CITY s) /\
  (today - 3650 <= Store.OPENING_DATE s <= today)%Z /\
  Store.STORE_CODE s = "ST" ++ fmt03d (Store.STORE_ID s) /\
  In (Store.STORE_TYPE s) store_types.

(** the salary band of a job title *)
Definition salary_band (title : string) (salary : Z) : Prop :=
  (title = "Manager" /\ (80000 <= salary <= 150000)%Z) \/
  (title = "Supervisor" /\ (60000 <= salary <= 100000)%Z) \/
  (In title ["Sales Associate"; "Cashier"; "Customer Service"; "Stock Clerk"] /\
   (30000 <= salary <= 60000)%Z).

Definition employee_profile_ok (today : Z) (e : Employee.t) : Prop :=
  salary_band (Employee.JOB_TITLE e) (Employee.SALARY e) /\
  In (Employee.DEPARTMENT e) departments /\
  (today - 1825 <= Employee.HIRE_DATE e <= today)%Z.

Close Scope string_scope.

(** the stored cost, MSRP and weight of a product against the sampling
    ranges of [generate_products] *)
Definition product_bands (p : Product.t) : Prop :=
  let price := inject_Z (Product.UNIT_PRICE p) in
  (6 # 10) * price - (1 # 1000000) <= Product.UNIT_COST p /\
  Product.UNIT_COST p <= (8 # 10) * price + (1 # 1000000) /\
  (11 # 10) * price - (1 # 1000000) <= Product.MSRP p /\
  Product.MSRP p <= (13 # 10) * price + (1 # 1000000) /\
  if existsb (Z.eqb (Product.CATEGORY_ID p)) [3; 7; 8]%Z
  then (1 # 100) - (1 # 1000000) <= Product.WEIGHT_KG p /\
       Product.WEIGHT_KG p <= 2 + (1 # 1000000)
  else (1 # 10) - (1 # 1000000) <= Product.WEIGHT_KG p /\
       Product.WEIGHT_KG p <= 10 + (1 # 1000000).

(** ** The back-fill passes of [generate_employees] *)

(** [e'] is [e] after the first back-fill pass: untouched, or, for an
    employee without a manager title, given the identifier of an entry of
    [managers] *)
Definition managed_by (managers : list Employee.t) (e e' : Employee.t) : Prop :=
  e' = e \/
  (is_manager e = false /\
   exists m, In m managers /\ e' = Employee.set_MANAGER_ID e (Employee.EMPLOYEE_ID m)).

(** [s'] is [s] after the second back-fill pass *)
Definition store_managed (employees : list Employee.t) (s s' : Store.t) : Prop :=
  (s' = s /\
   Forall (fun e => Employee.STORE_ID e <> Store.STORE_ID s \/ is_manager e = false)
          employees) \/
  (exists m, In m employees /\ Employee.STORE_ID m = Store.STORE_ID s /\
             is_manager m = true /\
             s' = Store.set_MANAGER_ID s (Employee.EMPLOYEE_ID m)).

(** a MANAGER_ID that is set belongs to an employee without a manager
    title and names an employee of [emps] with a manager title and no
    manager of its own *)
Definition manager_link_ok (emps : list Employee.t) (e : Employee.t) : Prop :=
  match Employee.MANAGER_ID e with
  | None => True
  | Some m =>
      is_manager e = false /\
      exists mgr, In mgr emps /\
                  Employee.EMPLOYEE_ID mgr = m /\
                  is_manager mgr = true /\
                  Employee.MANAGER_ID mgr = None
  end.

(** the MANAGER_ID of a store names an employee of [emps] with a manager
    title who works at the store; it is unset only when there is none *)
Definition store_link_ok (emps : list Employee.t) (s : Store.t) : Prop :=
  match Store.MANAGER_ID s with
  | Some m =>
      exists e, In e emps /\
                Employee.EMPLOYEE_ID e = m /\
                Employee.STORE_ID e = Store.STORE_ID s /\
                is_manager e = true
  | None =>
      Forall (fun e => Employee.STORE_ID e <> Store.STORE_ID s \/
                       is_manager e = false)
             emps
  end.

(** ** Dates, status and lines of an order *)

Open Scope string_scope.

(** the dates, the status and the payment status of an order *)
Definition order_schedule_ok (today : Z) (o : Order.t) : Prop :=
  (today - 730 <= Order.ORDER_DATE o <= today)%Z /\
  (Order.ORDER_DATE o + 1 <= Order.REQUIRED_DATE o <= Order.ORDER_DATE o + 14)%Z /\
  match Order.SHIP_DATE o with
  | Some d =>
      (Order.ORDER_DATE o + 1 <= d <= Order.ORDER_DATE o + 7)%Z /\
      (Order.ORDER_STATUS o = "Shipped" \/
       (Order.ORDER_STATUS o = "Delivered" /\ (d < today)%Z)) /\
      Order.PAYMENT_STATUS o = "Completed"
  | None =>
      (Order.ORDER_STATUS o = "Pending" \/ Order.ORDER_STATUS o = "Processing") /\
      Order.PAYMENT_STATUS o = "Pending"
  end /\
  In (Order.SHIP_METHOD o) shipping_methods /\
  In (Order.PAYMENT_METHOD o) payment_methods.

(** the lines appended for an order *)
Definition order_lines_ok (products : list Product.t) (i : Z)
    (lines : list OrderLine.t) : Prop :=
  (exists k, (1 <= k <= 5)%Z /\
             length lines = Z.to_nat (Z.min k (Z.of_nat (length products)))) /\
  Forall (fun l => OrderLine.ORDER_ID l = i /\
                   (1 <= OrderLine.QUANTITY_ORDERED l <= 5)%Z /\
                   exists p, In p products /\
                             OrderLine.PRODUCT_ID l = Product.PRODUCT_ID p /\
                             OrderLine.UNIT_PRICE l = Product.UNIT_PRICE p)
         lines /\
  (NoDup (map Product.PRODUCT_ID products) -> NoDup (map OrderLine.PRODUCT_ID lines)).

Definition order_facts (today : Z) (products : list Product.t)
    (i : Z) (o : Order.t) (lines : list OrderLine.t) : Prop :=
  Order.ORDER_ID o = i /\ order_schedule_ok today o /\ order_lines_ok products i lines.

(** the two tables after the iterations for the identifiers [ids], every
    iteration appending an order and lines related by [R] *)
Inductive tables_built (R : Z -> Order.t -> list OrderLine.t -> Prop)
  : list Z -> list Order.t -> list OrderLine.t -> Prop :=
| tables_nil : tables_built R [] [] []
| tables_snoc ids orders details i o lines :
    tables_built R ids orders details ->
    R i o lines ->
    tables_built R (ids ++ [i]) (orders ++ [o]) (details ++ lines).

Close Scope string_scope.

(** ** Exact sums *)

Definition qsum (l : list Q) : Q := fold_right Qplus 0 l.

(** the value of the lines before any discount: the sum of
    [UNIT_PRICE * QUANTITY_ORDERED] *)
Definition gross_of_lines (lines : list OrderLine.t) : Z :=
  fold_right Z.add 0%Z
    (map (fun l => (OrderLine.UNIT_PRICE l * OrderLine.QUANTITY_ORDERED l)%Z) lines).

(** the lines of [order_details] that carry the identifier of order [o] *)
Definition lines_of (details : list OrderLine.t) (o : Order.t) : list OrderLine.t :=
  filter (fun l => (OrderLine.ORDER_ID l =? Order.ORDER_ID o)%Z) details.

(** ** The tables of a run of [generate_all_data] *)

Definition dataset_ok (today a b c d e : Z) (data : Data.t) : Prop :=
  map Customer.CUSTOMER_ID (Data.customers data) = range 1 (a + 1) /\
  (exists blocks, Data.customer_addresses data = concat blocks /\
                  Forall2 address_block (Data.customers data) blocks) /\
  Data.product_categories data = generate_product_categories /\
  (map Product.PRODUCT_ID (Data.products data) = range 1 (b + 1) /\
   Forall product_catalog_ok (Data.products data)) /\
  map Store.STORE_ID (Data.stores data) = range 1 (c + 1) /\
  (map Employee.EMPLOYEE_ID (Data.employees data) = range 1 (d + 1) /\
   Forall (fun e => In (Employee.STORE_ID e) (map Store.STORE_ID (Data.stores data)))
          (Data.employees data) /\
   Forall (manager_link_ok (Data.employees data)) (Data.employees data) /\
   Forall (store_link_ok (Data.employees data)) (Data.stores data)) /\
  orders_built (Data.customers data) (Data.stores data) (Data.employees data)
    (Data.products data) (range 1 (e + 1)) (Data.orders data) (Data.order_details data) /\
  tables_built (order_facts today (Data.products data))
    (range 1 (e + 1)) (Data.orders data) (Data.order_details data) /\
  Data.sales_data data =
    build_sales_data (Data.customers data) (Data.products data)
      (Data.stores data) (Data.employees data)
      (Data.orders data) (Data.order_details data).

(** the fields that a row of [sales_data] copies from its order *)
Definition sale_of_order (o : Order.t) (r : Sale.t) : Prop :=
  Sale.ORDER_ID r = Order.ORDER_ID o /\
  Sale.CUSTOMER_ID r = Order.CUSTOMER_ID o /\
  Sale.STORE_ID r = Order.STORE_ID o /\
  Sale.EMPLOYEE_ID r = Order.EMPLOYEE_ID o /\
  Sale.ORDER_DATE r = Order.ORDER_DATE o /\
  Sale.SHIP_DATE r = Order.SHIP_DATE o /\
  Sale.PAYMENT_METHOD r = Order.PAYMENT_METHOD o /\
  Sale.ORDER_STATUS r = Order.ORDER_STATUS o /\
  Sale.SHIP_METHOD r = Order.SHIP_METHOD o.

(** ** The files of [export_to_csv] *)

Open Scope string_scope.





Close Scope string_scope.

(** ** Runs on a tape of zeros, and the exceptions of a run *)

Definition all_zero (g : rng) : Prop := forall k, tape g k = 0%Z.

(** on every tape of zeros [c] finishes, leaves a tape of zeros and its
    value satisfies [P] *)
Definition returns_on_zeros {A} (P : A -> Prop) (c : M A) : Prop :=
  forall g, all_zero g -> exists a g', c g = Ok (a, g') /\ all_zero g' /\ P a.

Definition raises_on_zeros {A} (e : exn) (c : M A) : Prop :=
  forall g, all_zero g -> c g = Raise e.


(** * Sample runs *)

(** tapes: every draw is [k]; every draw is 2 up to position [n] and 1
    from there on *)
Definition constant_tape (k : Z) : rng := mkRng (fun _ => k) 0.
Definition switching_tape (n : nat) : rng :=
  mkRng (fun i => if (i <? n)%nat then 2%Z else 1%Z) 0.

Definition sample_today : Z := 739000.

Definition empty_dataset : Data.t := Data.mk [] [] [] [] [] [] [] [] [].

Definition no_order : Order.t :=
  Order.mk 0 0 0 0 0 0 None EmptyString EmptyString None 0 0 0 0 0
    EmptyString EmptyString EmptyString.

Definition no_line : OrderLine.t := OrderLine.mk 0 0 0 0 0 0.

(** [generate_all_data(2, 2, 2, 2, 2)] on the tape of twos *)
Definition sample_run : Data.t * rng :=
  Eval vm_compute in
    match generate_all_data sample_today 2 2 2 2 2 (constant_tape 2) with
    | Ok r => r
    | Raise _ => (empty_dataset, constant_tape 2)
    end.

(** two stores, and one employee generated for them on the tape of twos *)
Definition sample_stores : list Store.t :=
  Eval vm_compute in
    match generate_stores sample_today 2 (constant_tape 2) with
    | Ok (l, _) => l
    | Raise _ => []
    end.

Definition sample_staff : list Employee.t * list Store.t * rng :=
  Eval vm_compute in
    match generate_employees sample_today sample_stores 1 (constant_tape 2) with
    | Ok r => r
    | Raise _ => ([], [], constant_tape 2)
    end.

(** [generate_orders] on the tables of [sample_run] *)
Definition sample_orders : list Order.t * list OrderLine.t * rng :=
  Eval vm_compute in
    match generate_orders sample_today (Data.customers (fst sample_run))
            (Data.stores (fst sample_run)) (Data.employees (fst sample_run))
            (Data.products (fst sample_run)) 2 (constant_tape 2) with
    | Ok r => r
    | Raise _ => ([], [], constant_tape 2)
    end.

(** one order on the sample tables, every draw 5559060566555522: the
    discount fraction is 0.2 * (5559060566555522 / 2^53), about 0.123436 *)
Definition discount_run : list Order.t * list OrderLine.t * rng :=
  Eval vm_compute in
    match generate_orders sample_today (Data.customers (fst sample_run))
            (Data.stores (fst sample_run)) (Data.employees (fst sample_run))
            (Data.products (fst sample_run)) 1 (constant_tape 5559060566555522) with
    | Ok r => r
    | Raise _ => ([], [], constant_tape 0)
    end.

(** ** Sample runs on varied draws *)

(** a tape that replays a list of draws and continues with zeros *)
Definition table_tape (draws : list Z) : rng := mkRng (fun i => nth i draws 0%Z) 0.

(** [n] varied draws: multiples of a constant modulo the prime 2^61 - 1 *)
Definition mixing_draws (seed : Z) (n : nat) : list Z :=
  map (fun i => (((Z.of_nat i + seed) * 1234567890123456789)
                   mod 2305843009213693951)%Z)
      (seq 0 n).

Definition mixed_draws : list Z := Eval vm_compute in mixing_draws 7 320.
Definition staff_draws : list Z := Eval vm_compute in mixing_draws 2 80.

(** [generate_all_data(3, 4, 2, 6, 4)] on varied draws *)
Definition mixed_run : Data.t * rng :=
  Eval vm_compute in
    match generate_all_data sample_today 3 4 2 6 4 (table_tape mixed_draws) with
    | Ok r => r
    | Raise _ => (empty_dataset, constant_tape 0)
    end.

(** six employees for the two sample stores on varied draws *)
Definition mixed_staff : list Employee.t * list Store.t * rng :=
  Eval vm_compute in
    match generate_employees sample_today sample_stores 6 (table_tape staff_draws) with
    | Ok r => r
    | Raise _ => ([], [], constant_tape 0)
    end.

(** three orders on the tables of [mixed_run] *)
Definition mixed_orders : list Order.t * list OrderLine.t * rng :=
  Eval vm_compute in
    match generate_orders sample_today (Data.customers (fst mixed_run))
            (Data.stores (fst mixed_run)) (Data.employees (fst mixed_run))
            (Data.products (fst mixed_run)) 3 (table_tape mixed_draws) with
    | Ok r => r
    | Raise _ => ([], [], constant_tape 0)
    end.

(** * Binary64 rounding: error and monotonicity *)

Lemma pow2_pos (z : Z) : 0 < pow2 z.
Proof. unfold pow2. apply Qpower_0_lt. reflexivity. Qed.

Lemma pow2_add (a b : Z) : pow2 (a + b) == pow2 a * pow2 b.
Proof. unfold pow2. apply Qpower_plus. discriminate. Qed.

Lemma pow2_cancel (z : Z) : pow2 z * pow2 (- z) == 1.
Proof. rewrite <- pow2_add, Z.add_opp_diag_r. reflexivity. Qed.

Lemma pow2_le (a b : Z) : (a <= b)%Z -> pow2 a <= pow2 b.
Proof. intros H. unfold pow2. apply Qpower_le_compat_l; [exact H | discriminate]. Qed.

Lemma pow2_lt (a b : Z) : (a < b)%Z -> pow2 a < pow2 b.
Proof. intros H. unfold pow2. apply Qpower_lt_compat_l; [exact H | reflexivity]. Qed.

Lemma pow2_le_inv (a b : Z) : pow2 a <= pow2 b -> (a <= b)%Z.
Proof. unfold pow2. intros H. apply (Qpower_le_compat_l_inv (2 # 1)); [exact H | reflexivity]. Qed.

Lemma pow2_Z (n : Z) : (0 <= n)%Z -> pow2 n == inject_Z (2 ^ n).
Proof. intros H. unfold pow2. rewrite Zpower_Qpower by exact H. reflexivity. Qed.

Lemma pow2_half (z : Z) : pow2 (z - 1) == pow2 z * (1 # 2).
Proof. unfold Z.sub. rewrite pow2_add. reflexivity. Qed.

(** ** Rounding to the nearest integer *)

Lemma floor_bounds (x : Q) : inject_Z (Qfloor x) <= x /\ x < inject_Z (Qfloor x) + 1.
Proof.
  split; [apply Qfloor_le |].
  assert (H := Qlt_floor x). rewrite inject_Z_plus in H. exact H.
Qed.

Lemma round_half_even_cases (x : Q) :
  (round_half_even x = Qfloor x /\ x - inject_Z (Qfloor x) <= 1 # 2) \/
  (round_half_even x = (Qfloor x + 1)%Z /\ 1 # 2 <= x - inject_Z (Qfloor x)).
Proof.
  unfold round_half_even.
  destruct (Qcompare_spec (x - inject_Z (Qfloor x)) (1 # 2)) as [E | L | G].
  - destruct (Z.even (Qfloor x)); [left | right]; (split; [reflexivity | rewrite E; apply Qle_refl]).
  - left. split; [reflexivity | apply Qlt_le_weak; exact L].
  - right. split; [reflexivity | apply Qlt_le_weak; exact G].
Qed.

Lemma round_half_even_err (x : Q) :
  x - (1 # 2) <= inject_Z (round_half_even x) /\
  inject_Z (round_half_even x) <= x + (1 # 2).
Proof.
  destruct (floor_bounds x) as [Hl Hu].
  destruct (round_half_even_cases x) as [[-> H] | [-> H]].
  - split; lra.
  - rewrite inject_Z_plus. change (inject_Z 1) with 1. split; lra.
Qed.

Lemma round_half_even_mono (x y : Q) :
  x <= y -> (round_half_even x <= round_half_even y)%Z.
Proof.
  intros Hxy.
  assert (Hf := Qfloor_resp_le x y Hxy).
  destruct (floor_bounds x) as [Hxl Hxu]. destruct (floor_bounds y) as [Hyl Hyu].
  destruct (Z.eq_dec (Qfloor x) (Qfloor y)) as [E | NE].
  - unfold round_half_even. rewrite <- E.
    destruct (Qcompare_spec (x - inject_Z (Qfloor x)) (1 # 2)) as [Ex | Lx | Gx];
      destruct (Qcompare_spec (y - inject_Z (Qfloor x)) (1 # 2)) as [Ey | Ly | Gy];
      try lia; try (exfalso; lra); destruct (Z.even (Qfloor x)); lia.
  - destruct (round_half_even_cases x) as [[-> _] | [-> _]];
      destruct (round_half_even_cases y) as [[-> _] | [-> _]]; lia.
Qed.

Lemma round_half_even_Z (n : Z) : round_half_even (inject_Z n) = n.
Proof.
  unfold round_half_even. rewrite Qfloor_Z.
  destruct (Qcompare_spec (inject_Z n - inject_Z n) (1 # 2)) as [E | L | G].
  - exfalso. lra.
  - reflexivity.
  - exfalso. lra.
Qed.

#[global] Instance round_half_even_comp : Proper (Qeq ==> eq) round_half_even.
Proof.
  intros x y E. unfold round_half_even. rewrite (Qfloor_comp x y E).
  assert (E' : x - inject_Z (Qfloor y) == y - inject_Z (Qfloor y)) by (rewrite E; reflexivity).
  rewrite (Qcompare_comp _ _ E' (1 # 2) (1 # 2) (Qeq_refl _)). reflexivity.
Qed.

Lemma round_half_even_nonneg (x : Q) : 0 <= x -> (0 <= round_half_even x)%Z.
Proof. intros H. apply (round_half_even_mono 0 x) in H. exact H. Qed.

(** ** The binade of a rational *)

Lemma Qdiv_le_cross (a b c d : Q) :
  0 < b -> 0 < d -> a * d <= c * b -> a / b <= c / d.
Proof.
  intros Hb Hd H. apply Qle_shift_div_l; [exact Hd |].
  setoid_replace (a / b * d) with (a * d / b)
    by (field; intros E; rewrite E in Hb; discriminate Hb).
  apply Qle_shift_div_r; assumption.
Qed.

Lemma Qdiv_lt_cross (a b c d : Q) :
  0 < b -> 0 < d -> a * d < c * b -> a / b < c / d.
Proof.
  intros Hb Hd H. apply Qlt_shift_div_l; [exact Hd |].
  setoid_replace (a / b * d) with (a * d / b)
    by (field; intros E; rewrite E in Hb; discriminate Hb).
  apply Qlt_shift_div_r; assumption.
Qed.

Lemma pow2_sub (a b : Z) :
  (0 <= a)%Z -> (0 <= b)%Z -> pow2 (a - b) == inject_Z (2 ^ a) / inject_Z (2 ^ b).
Proof.
  intros Ha Hb. unfold Z.sub. rewrite pow2_add, (pow2_Z a Ha).
  unfold pow2 at 1. rewrite Qpower_opp. fold (pow2 b). rewrite (pow2_Z b Hb).
  reflexivity.
Qed.

Lemma inject_Z_pow2_pos (n : Z) : (0 <= n)%Z -> 0 < inject_Z (2 ^ n).
Proof.
  intros H. change 0 with (inject_Z 0). rewrite <- Zlt_Qlt.
  apply Z.pow_pos_nonneg; lia.
Qed.

Lemma ilog2_spec (x : Q) :
  ~ x == 0 -> pow2 (ilog2 x) <= Qabs x /\ Qabs x < pow2 (ilog2 x + 1).
Proof.
  intros Hx. destruct x as [n0 d].
  assert (Hn : (0 < Z.abs n0)%Z).
  { destruct (Z.eq_dec n0 0) as [-> | NE]; [exfalso; apply Hx; reflexivity | lia]. }
  assert (Hd : (0 < Zpos d)%Z) by lia.
  destruct (Z.log2_spec _ Hn) as [Hnl Hnu]. destruct (Z.log2_spec _ Hd) as [Hdl Hdu].
  assert (Hln := Z.log2_nonneg (Z.abs n0)). assert (Hld := Z.log2_nonneg (Zpos d)).
  assert (Habs : Qabs (n0 # d) == inject_Z (Z.abs n0) / inject_Z (Zpos d)).
  { unfold Qabs. apply Qmake_Qdiv. }
  unfold ilog2. cbn [Qnum Qden].
  set (ln := Z.log2 (Z.abs n0)) in *. set (ld := Z.log2 (Zpos d)) in *.
  assert (Hup : Qabs (n0 # d) < pow2 (ln - ld + 1)).
  { replace (ln - ld + 1)%Z with ((ln + 1) - ld)%Z by lia.
    rewrite pow2_sub by lia. rewrite Habs.
    apply Qdiv_lt_cross; [reflexivity | apply inject_Z_pow2_pos; lia |].
    rewrite <- !inject_Z_mult, <- Zlt_Qlt.
    replace (ln + 1)%Z with (Z.succ ln) by lia.
    assert (0 < 2 ^ ld)%Z by (apply Z.pow_pos_nonneg; lia). nia. }
  assert (Hlo : pow2 (ln - ld - 1) <= Qabs (n0 # d)).
  { replace (ln - ld - 1)%Z with (ln - (ld + 1))%Z by lia.
    rewrite pow2_sub by lia. rewrite Habs.
    apply Qdiv_le_cross; [apply inject_Z_pow2_pos; lia | reflexivity |].
    rewrite <- !inject_Z_mult, <- Zle_Qle.
    replace (ld + 1)%Z with (Z.succ ld) by lia.
    assert (0 < 2 ^ ln)%Z by (apply Z.pow_pos_nonneg; lia). nia. }
  destruct (Qle_bool (pow2 (ln - ld)) (Qabs (n0 # d))) eqn:T.
  - apply Qle_bool_iff in T. split; assumption.
  - split; [exact Hlo |].
    replace (ln - ld - 1 + 1)%Z with (ln - ld)%Z by lia.
    apply Qnot_le_lt. intros H. apply Qle_bool_iff in H. congruence.
Qed.

Lemma binade_unique (a : Q) (e e' : Z) :
  pow2 e <= a -> a < pow2 (e + 1) -> pow2 e' <= a -> a < pow2 (e' + 1) -> e = e'.
Proof.
  intros H1 H2 H3 H4.
  assert (A : pow2 e < pow2 (e' + 1)) by (eapply Qle_lt_trans; eassumption).
  assert (B : pow2 e' < pow2 (e + 1)) by (eapply Qle_lt_trans; eassumption).
  unfold pow2 in A, B.
  apply Qpower_lt_compat_l_inv in A; [| reflexivity].
  apply Qpower_lt_compat_l_inv in B; [| reflexivity]. lia.
Qed.

Lemma ilog2_comp (x y : Q) : x == y -> ~ x == 0 -> ilog2 x = ilog2 y.
Proof.
  intros E Hx. assert (Hy : ~ y == 0) by (rewrite <- E; exact Hx).
  destruct (ilog2_spec x Hx) as [A B]. destruct (ilog2_spec y Hy) as [C D].
  assert (Ea : Qabs x == Qabs y) by (apply Qabs_wd; exact E).
  eapply binade_unique; [exact A | exact B | |].
  - eapply Qle_trans; [exact C |]. rewrite Ea. apply Qle_refl.
  - eapply Qle_lt_trans; [| exact D]. rewrite Ea. apply Qle_refl.
Qed.

Lemma ilog2_le (x : Q) (E : Z) : ~ x == 0 -> Qabs x <= pow2 E -> (ilog2 x <= E)%Z.
Proof.
  intros Hx H. destruct (ilog2_spec x Hx) as [A _].
  apply pow2_le_inv. eapply Qle_trans; eassumption.
Qed.

(** ** Agreement with the IEEE 754 operations of the Standard Library *)

Example literal_agrees : float_lit (1 # 10) = SF2Q sf_tenth.
Proof. vm_compute. reflexivity. Qed.

Example fadd_agrees :
  fadd (SF2Q sf_tenth) (SF2Q sf_fifth) = SF2Q (SpecFloat.SFadd 53 1024 sf_tenth sf_fifth).
Proof. vm_compute. reflexivity. Qed.

Example fsub_agrees :
  fsub (SF2Q sf_amount) (SF2Q sf_third) = SF2Q (SpecFloat.SFsub 53 1024 sf_amount sf_third).
Proof. vm_compute. reflexivity. Qed.

Example fmul_agrees :
  fmul (SF2Q sf_third) (SF2Q sf_amount) = SF2Q (SpecFloat.SFmul 53 1024 sf_third sf_amount).
Proof. vm_compute. reflexivity. Qed.

Example fdiv_agrees :
  fdiv (SF2Q sf_amount) (SF2Q sf_third) = SF2Q (SpecFloat.SFdiv 53 1024 sf_amount sf_third).
Proof. vm_compute. reflexivity. Qed.

Example fmul_subnormal_agrees :
  fmul (SF2Q sf_small1) (SF2Q sf_small2) =
  SF2Q (SpecFloat.SFmul 53 1024 sf_small1 sf_small2).
Proof. vm_compute. reflexivity. Qed.

(** ** Rounding to binary64 *)

Lemma RN_correct (x : Q) :
  RN x == inject_Z (round_half_even (x * pow2 (- quantum x))) * pow2 (quantum x).
Proof. unfold RN. cbv zeta. apply Qred_correct. Qed.

Lemma RN_zero (x : Q) : x == 0 -> RN x == 0.
Proof.
  intros E. rewrite RN_correct. generalize (quantum x). intros q.
  assert (H : x * pow2 (- q) == inject_Z 0) by (rewrite E; ring).
  rewrite H, round_half_even_Z. ring.
Qed.

#[global] Instance RN_comp : Proper (Qeq ==> Qeq) RN.
Proof.
  intros x y E. destruct (Qeq_dec x 0) as [Z0 | NZ].
  - rewrite (RN_zero x Z0), (RN_zero y); [reflexivity | rewrite <- E; exact Z0].
  - rewrite !RN_correct. unfold quantum. rewrite <- (ilog2_comp x y E NZ).
    generalize (Z.max (ilog2 x - 52) (-1074)). intros q.
    rewrite E. reflexivity.
Qed.

Lemma RN_nonneg (x : Q) : 0 <= x -> 0 <= RN x.
Proof.
  intros H. rewrite RN_correct. apply Qmult_le_0_compat.
  - change 0 with (inject_Z 0). rewrite <- Zle_Qle. apply round_half_even_nonneg.
    apply Qmult_le_0_compat; [exact H | apply Qlt_le_weak, pow2_pos].
  - apply Qlt_le_weak, pow2_pos.
Qed.

Lemma RN_err_quantum (x : Q) :
  Qabs (RN x - x) <= pow2 (quantum x) * (1 # 2).
Proof.
  rewrite RN_correct. set (q := quantum x).
  assert (Hp := pow2_pos q). assert (Hc := pow2_cancel q).
  destruct (round_half_even_err (x * pow2 (- q))) as [Hl Hu].
  set (m := inject_Z (round_half_even (x * pow2 (- q)))) in *.
  set (P := pow2 q) in *. set (Pi := pow2 (- q)) in *.
  assert (Hx : x == x * Pi * P) by (rewrite <- Qmult_assoc, (Qmult_comm Pi P), Hc; ring).
  apply Qabs_Qle_condition. split.
  - assert (H : (m - x * Pi + (1 # 2)) * P >= 0)
      by (apply Qmult_le_0_compat; [lra | lra]).
    rewrite Hx at 1. lra.
  - assert (H : (x * Pi + (1 # 2) - m) * P >= 0)
      by (apply Qmult_le_0_compat; [lra | lra]).
    rewrite Hx at 1. lra.
Qed.

Lemma RN_err (E : Z) (x : Q) :
  (-1022 <= E)%Z -> Qabs x <= pow2 E -> Qabs (RN x - x) <= pow2 (E - 53).
Proof.
  intros HE Hx. destruct (Qeq_dec x 0) as [Z0 | NZ].
  - rewrite (RN_zero x Z0), Z0. apply Qlt_le_weak, pow2_pos.
  - eapply Qle_trans; [apply RN_err_quantum |].
    assert (Hq : (quantum x <= E - 52)%Z).
    { unfold quantum. assert (H := ilog2_le x E NZ Hx). lia. }
    replace (E - 53)%Z with (E - 52 - 1)%Z by lia. rewrite pow2_half.
    apply Qmult_le_compat_r; [apply pow2_le; exact Hq | discriminate].
Qed.

Lemma RN_mono (x y : Q) : 0 <= x -> x <= y -> RN x <= RN y.
Proof.
  intros Hx Hxy. destruct (Qeq_dec x 0) as [Z0 | NZ].
  - rewrite (RN_zero x Z0). apply RN_nonneg. lra.
  - assert (Hx' : 0 < x) by (destruct (Qlt_le_dec 0 x) as [L | L]; [exact L |];
                             exfalso; apply NZ; lra).
    assert (NZy : ~ y == 0) by (intros E; rewrite E in Hxy; lra).
    destruct (ilog2_spec x NZ) as [Ax Bx]. destruct (ilog2_spec y NZy) as [Ay By].
    rewrite Qabs_pos in Ax, Bx by lra. rewrite Qabs_pos in Ay, By by lra.
    assert (He : (ilog2 x <= ilog2 y)%Z).
    { assert (A : pow2 (ilog2 x) < pow2 (ilog2 y + 1)) by lra.
      unfold pow2 in A. apply Qpower_lt_compat_l_inv in A; [lia | reflexivity]. }
    rewrite !RN_correct.
    set (qx := quantum x). set (qy := quantum y).
    assert (Hq : (qx <= qy)%Z) by (unfold qx, qy, quantum; lia).
    assert (Hpx := pow2_pos qx). assert (Hpy := pow2_pos qy).
    assert (Hix := pow2_pos (- qx)). assert (Hiy := pow2_pos (- qy)).
    destruct (Z.eq_dec qx qy) as [Eq | Nq].
    + rewrite <- Eq. apply Qmult_le_compat_r; [| lra].
      rewrite <- Zle_Qle. apply round_half_even_mono.
      apply Qmult_le_compat_r; lra.
    + assert (Hlt : (ilog2 x + 1 <= ilog2 y)%Z) by (unfold qx, qy, quantum in *; lia).
      assert (Hqy : qy = (ilog2 y - 52)%Z) by (unfold qx, qy, quantum in *; lia).
      apply Qle_trans with (pow2 (ilog2 y)).
      * assert (Hn : (0 <= ilog2 y - qx)%Z) by lia.
        assert (Hm : (round_half_even (x * pow2 (- qx)) <= 2 ^ (ilog2 y - qx))%Z).
        { rewrite <- (round_half_even_Z (2 ^ (ilog2 y - qx))).
          apply round_half_even_mono. rewrite <- (pow2_Z _ Hn).
          unfold Z.sub. rewrite pow2_add.
          apply Qmult_le_compat_r; [| lra].
          apply Qle_trans with (pow2 (ilog2 x + 1)); [lra | apply pow2_le; lia]. }
        rewrite Zle_Qle in Hm. rewrite <- (pow2_Z _ Hn) in Hm.
        setoid_replace (pow2 (ilog2 y)) with (pow2 (ilog2 y - qx) * pow2 qx)
          by (rewrite <- pow2_add; f_equiv; lia).
        apply Qmult_le_compat_r; lra.
      * assert (Hm : (2 ^ 52 <= round_half_even (y * pow2 (- qy)))%Z).
        { rewrite <- (round_half_even_Z (2 ^ 52)) at 1.
          apply round_half_even_mono. rewrite <- (pow2_Z 52) by lia.
          setoid_replace (pow2 52) with (pow2 (ilog2 y) * pow2 (- qy))
            by (rewrite <- pow2_add; f_equiv; lia).
          apply Qmult_le_compat_r; lra. }
        rewrite Zle_Qle in Hm. rewrite <- (pow2_Z 52) in Hm by lia.
        setoid_replace (pow2 (ilog2 y)) with (pow2 52 * pow2 qy)
          by (rewrite <- pow2_add; f_equiv; lia).
        apply Qmult_le_compat_r; lra.
Qed.

(** ** [round(x, 2)] and the arithmetic operations *)

#[global] Instance fadd_comp : Proper (Qeq ==> Qeq ==> Qeq) fadd.
Proof. intros x x' Ex y y' Ey. unfold fadd. rewrite Ex, Ey. reflexivity. Qed.

#[global] Instance fsub_comp : Proper (Qeq ==> Qeq ==> Qeq) fsub.
Proof. intros x x' Ex y y' Ey. unfold fsub. rewrite Ex, Ey. reflexivity. Qed.

#[global] Instance fmul_comp : Proper (Qeq ==> Qeq ==> Qeq) fmul.
Proof. intros x x' Ex y y' Ey. unfold fmul. rewrite Ex, Ey. reflexivity. Qed.

#[global] Instance round2_comp : Proper (Qeq ==> Qeq) round2.
Proof. intros x y E. unfold round2. rewrite E. reflexivity. Qed.

Lemma cents_err (x : Q) :
  x - (1 # 200) <= inject_Z (round_half_even (x * 100)) / 100 /\
  inject_Z (round_half_even (x * 100)) / 100 <= x + (1 # 200).
Proof.
  destruct (round_half_even_err (x * 100)) as [Hl Hu].
  set (k := inject_Z (round_half_even (x * 100))) in *.
  split.
  - apply Qle_shift_div_l; [reflexivity | lra].
  - apply Qle_shift_div_r; [reflexivity | lra].
Qed.

Lemma cents_nonneg (x : Q) : 0 <= x -> 0 <= inject_Z (round_half_even (x * 100)) / 100.
Proof.
  intros H. apply Qle_shift_div_l; [reflexivity |]. rewrite Qmult_0_l.
  change 0 with (inject_Z 0). rewrite <- Zle_Qle.
  apply round_half_even_nonneg. lra.
Qed.

Lemma cents_mono (x y : Q) :
  x <= y ->
  inject_Z (round_half_even (x * 100)) / 100 <= inject_Z (round_half_even (y * 100)) / 100.
Proof.
  intros H. unfold Qdiv. apply Qmult_le_compat_r; [| discriminate].
  rewrite <- Zle_Qle. apply round_half_even_mono. lra.
Qed.

Lemma round2_nonneg (x : Q) : 0 <= x -> 0 <= round2 x.
Proof. intros H. unfold round2. apply RN_nonneg, cents_nonneg, H. Qed.

Lemma round2_mono (x y : Q) : 0 <= x -> x <= y -> round2 x <= round2 y.
Proof.
  intros Hx Hxy. unfold round2. apply RN_mono; [apply cents_nonneg, Hx | apply cents_mono, Hxy].
Qed.

Lemma RN_err21 (x : Q) : amount_range x -> x - eps <= RN x /\ RN x <= x + eps.
Proof.
  intros [Hl Hu].
  assert (H : Qabs (RN x - x) <= pow2 (21 - 53)).
  { apply RN_err; [lia |]. apply Qabs_Qle_condition.
    assert (E : pow2 21 == 2097152 # 1) by reflexivity. rewrite E. split; assumption. }
  assert (E : pow2 (21 - 53) == eps) by reflexivity. rewrite E in H.
  apply Qabs_Qle_condition in H. lra.
Qed.

Lemma round2_err21 (x : Q) :
  - (2097151 # 1) <= x -> x <= 2097151 # 1 ->
  x - (1 # 200) - eps <= round2 x /\ round2 x <= x + (1 # 200) + eps.
Proof.
  intros Hl Hu. destruct (cents_err x) as [Cl Cu].
  unfold round2. set (c := inject_Z (round_half_even (x * 100)) / 100) in *.
  destruct (RN_err21 c) as [Rl Ru]; [split; lra |]. lra.
Qed.

Lemma Qmult_le_mono (a b c d : Q) :
  0 <= a -> a <= b -> 0 <= c -> c <= d -> a * c <= b * d.
Proof.
  intros Ha Hab Hc Hcd. apply Qle_trans with (b * c).
  - apply Qmult_le_compat_r; assumption.
  - rewrite (Qmult_comm b c), (Qmult_comm b d). apply Qmult_le_compat_r; lra.
Qed.

(** ** [uniform(a, b)] *)

Lemma uniform_bounds (a b r : Q) :
  0 <= a -> a <= b -> 0 <= r -> r <= 1 ->
  RN a <= fadd a (fmul (fsub b a) r) /\
  fadd a (fmul (fsub b a) r) <= fadd a (RN (fsub b a)).
Proof.
  intros Ha Hab Hr Hr1.
  assert (Hc : 0 <= fsub b a) by (apply RN_nonneg; lra).
  set (c := fsub b a) in *.
  assert (Hcr : 0 <= c * r) by (apply Qmult_le_0_compat; assumption).
  assert (Hcr' : c * r <= c).
  { rewrite <- (Qmult_1_r c) at 2. rewrite (Qmult_comm c r), (Qmult_comm c 1).
    apply Qmult_le_compat_r; assumption. }
  assert (Ht : 0 <= fmul c r) by (apply RN_nonneg; exact Hcr).
  assert (Ht' : fmul c r <= RN c) by (apply RN_mono; assumption).
  unfold fadd. split; apply RN_mono; lra.
Qed.

Ltac qcompute :=
  vm_compute; first [reflexivity | discriminate | (let H := fresh in intros H; discriminate H)].

(** ** Discounts *)

Lemma discount_fraction_range (f : Q) :
  discount_fraction f -> 0 <= f /\ f <= float_lit (2 # 10).
Proof.
  intros (r & Hr0 & Hr1 & ->).
  destruct (uniform_bounds 0 (float_lit (2 # 10)) r) as [Hl Hu];
    [apply Qle_refl | qcompute | exact Hr0 | lra |].
  split.
  - eapply Qle_trans; [| exact Hl]. qcompute.
  - eapply Qle_trans; [exact Hu |]. qcompute.
Qed.

Lemma discount_percent_range (f : Q) :
  discount_fraction f ->
  0 <= round2 (fmul f 100) /\ round2 (fmul f 100) <= 20.
Proof.
  intros Hf. destruct (discount_fraction_range f Hf) as [Hl Hu].
  assert (H0 : 0 <= f * 100) by lra.
  assert (H1 : 0 <= fmul f 100) by (apply RN_nonneg; exact H0).
  split; [apply round2_nonneg; exact H1 |].
  apply Qle_trans with (round2 (fmul (float_lit (2 # 10)) 100)); [| qcompute].
  apply round2_mono; [exact H1 |]. apply RN_mono; [exact H0 | lra].
Qed.

(** ** Product prices *)

Lemma float_of_int_range (n : Z) :
  (0 <= n <= 2000000)%Z ->
  0 <= float_of_int n /\
  inject_Z n - eps <= float_of_int n /\ float_of_int n <= inject_Z n + eps.
Proof.
  intros [Hl Hu]. rewrite Zle_Qle in Hl, Hu.
  change (inject_Z 0) with 0 in Hl. change (inject_Z 2000000) with (2000000 # 1) in Hu.
  unfold float_of_int. split; [apply RN_nonneg; exact Hl |].
  apply RN_err21. split; lra.
Qed.

Lemma unit_cost_below_price (base : Z) (r : Q) :
  (500 <= base <= 50000)%Z -> 0 <= r -> r < 1 ->
  round2 (fmul (float_of_int base)
            (fadd (float_lit (6 # 10))
               (fmul (fsub (float_lit (8 # 10)) (float_lit (6 # 10))) r)))
  < inject_Z base.
Proof.
  intros Hb Hr0 Hr1.
  destruct (float_of_int_range base) as (HB0 & HBl & HBu); [lia |].
  destruct Hb as [Hbl Hbu]. rewrite Zle_Qle in Hbl, Hbu.
  change (inject_Z 500) with (500 # 1) in Hbl.
  change (inject_Z 50000) with (50000 # 1) in Hbu.
  destruct (uniform_bounds (float_lit (6 # 10)) (float_lit (8 # 10)) r) as [Hl Hu];
    [qcompute | qcompute | exact Hr0 | lra |].
  set (u := fadd _ (fmul _ r)) in *. set (B := float_of_int base) in *.
  assert (Hu0 : 0 <= u) by (eapply Qle_trans; [| exact Hl]; qcompute).
  assert (Hu1 : u <= 81 # 100) by (eapply Qle_trans; [exact Hu |]; qcompute).
  assert (HBu0 : 0 <= B * u) by (apply Qmult_le_0_compat; assumption).
  assert (HBu1 : B * u <= (inject_Z base + eps) * (81 # 100))
    by (apply Qmult_le_mono; assumption).
  unfold eps in *.
  unfold fmul.
  destruct (RN_err21 (B * u)) as [_ Hc]; [split; lra |].
  assert (Hc0 : 0 <= RN (B * u)) by (apply RN_nonneg; exact HBu0).
  destruct (round2_err21 (RN (B * u))) as [_ Hr]; [lra | unfold eps in *; lra |].
  unfold eps in *. lra.
Qed.

Lemma price_below_msrp (base : Z) (r : Q) :
  (500 <= base <= 50000)%Z -> 0 <= r -> r < 1 ->
  inject_Z base <
  round2 (fmul (float_of_int base)
            (fadd (float_lit (11 # 10))
               (fmul (fsub (float_lit (13 # 10)) (float_lit (11 # 10))) r))).
Proof.
  intros Hb Hr0 Hr1.
  destruct (float_of_int_range base) as (HB0 & HBl & HBu); [lia |].
  destruct Hb as [Hbl Hbu]. rewrite Zle_Qle in Hbl, Hbu.
  change (inject_Z 500) with (500 # 1) in Hbl.
  change (inject_Z 50000) with (50000 # 1) in Hbu.
  destruct (uniform_bounds (float_lit (11 # 10)) (float_lit (13 # 10)) r) as [Hl Hu];
    [qcompute | qcompute | exact Hr0 | lra |].
  set (v := fadd _ (fmul _ r)) in *. set (B := float_of_int base) in *.
  assert (Hv0 : 109 # 100 <= v) by (eapply Qle_trans; [| exact Hl]; qcompute).
  assert (Hv1 : v <= 131 # 100) by (eapply Qle_trans; [exact Hu |]; qcompute).
  unfold eps in *.
  assert (HBv0 : (inject_Z base - (1 # 4294967296)) * (109 # 100) <= B * v)
    by (apply Qmult_le_mono; lra).
  assert (HBv1 : B * v <= (inject_Z base + (1 # 4294967296)) * (131 # 100))
    by (apply Qmult_le_mono; lra).
  unfold fmul.
  destruct (RN_err21 (B * v)) as [Hc Hc']; [split; lra |].
  unfold eps in *.
  destruct (round2_err21 (RN (B * v))) as [Hr _]; [lra | lra |].
  unfold eps in *. lra.
Qed.

(** * Reasoning about the generator monad *)

Lemma returns_ensures {A} (P : A -> Prop) (c : M A) :
  returns P c -> ensures P c.
Proof.
  intros H g a g' E. destruct (H g) as (a' & g'' & E' & Pa).
  rewrite E in E'. inversion E'; subst. exact Pa.
Qed.

Lemma returns_ret {A} (P : A -> Prop) (a : A) : P a -> returns P (ret a).
Proof. intros H g. exists a, g. split; [reflexivity | exact H]. Qed.

Lemma ensures_ret {A} (P : A -> Prop) (a : A) : P a -> ensures P (ret a).
Proof. intros H g a' g' E. inversion E; subst. exact H. Qed.

Lemma ensures_raise {A} (P : A -> Prop) (e : exn) : ensures P (raise e).
Proof. intros g a g' E. discriminate E. Qed.

Lemma returns_bind {A B} (P : A -> Prop) (Q : B -> Prop) (c : M A) (k : A -> M B) :
  returns P c -> (forall a, P a -> returns Q (k a)) -> returns Q (bind c k).
Proof.
  intros Hc Hk g. destruct (Hc g) as (a & g1 & E & Pa).
  destruct (Hk a Pa g1) as (b & g2 & E' & Qb).
  exists b, g2. unfold bind. rewrite E. split; assumption.
Qed.

Lemma ensures_bind {A B} (P : A -> Prop) (Q : B -> Prop) (c : M A) (k : A -> M B) :
  ensures P c -> (forall a, P a -> ensures Q (k a)) -> ensures Q (bind c k).
Proof.
  intros Hc Hk g b g2 E. unfold bind in E.
  destruct (c g) as [[a g1] | e] eqn:Ec; [| discriminate E].
  exact (Hk a (Hc g a g1 Ec) g1 b g2 E).
Qed.

Lemma returns_weaken {A} (P Q : A -> Prop) (c : M A) :
  returns P c -> (forall a, P a -> Q a) -> returns Q c.
Proof.
  intros H HPQ g. destruct (H g) as (a & g' & E & Pa). exists a, g'. auto.
Qed.

Lemma ensures_weaken {A} (P Q : A -> Prop) (c : M A) :
  ensures P c -> (forall a, P a -> Q a) -> ensures Q c.
Proof. intros H HPQ g a g' E. apply HPQ. exact (H g a g' E). Qed.

(** loops: [I done s] relates the state to the entries consumed so far *)
Lemma returns_foldM {S A} (I : list A -> S -> Prop) (f : S -> A -> M S) (l : list A) :
  (forall done x s, I done s -> returns (I (done ++ [x])) (f s x)) ->
  forall done s, I done s -> returns (I (done ++ l)) (foldM f s l).
Proof.
  intros Hf. induction l as [| x l IH]; intros done s HI.
  - rewrite app_nil_r. apply returns_ret. exact HI.
  - cbn [foldM]. apply returns_bind with (P := I (done ++ [x])).
    + apply Hf. exact HI.
    + intros s' HI'. specialize (IH (done ++ [x]) s' HI').
      rewrite <- app_assoc in IH. exact IH.
Qed.

Lemma ensures_foldM {S A} (I : list A -> S -> Prop) (f : S -> A -> M S) (l : list A) :
  (forall done x s, In x l -> I done s -> ensures (I (done ++ [x])) (f s x)) ->
  forall done s, I done s -> ensures (I (done ++ l)) (foldM f s l).
Proof.
  induction l as [| x l IH]; intros Hf done s HI.
  - rewrite app_nil_r. apply ensures_ret. exact HI.
  - cbn [foldM]. apply ensures_bind with (P := I (done ++ [x])).
    + apply Hf; [left; reflexivity | exact HI].
    + intros s' HI'.
      assert (IH' := IH (fun d y t Hy => Hf d y t (or_intror Hy)) (done ++ [x]) s' HI').
      rewrite <- app_assoc in IH'. exact IH'.
Qed.

Lemma returns_loop {S A} (I : list A -> S -> Prop) (f : S -> A -> M S)
    (l : list A) (s : S) :
  I [] s ->
  (forall done x s, I done s -> returns (I (done ++ [x])) (f s x)) ->
  returns (I l) (foldM f s l).
Proof. intros H0 Hf. exact (returns_foldM I f l Hf [] s H0). Qed.

Lemma ensures_loop {S A} (I : list A -> S -> Prop) (f : S -> A -> M S)
    (l : list A) (s : S) :
  I [] s ->
  (forall done x s, In x l -> I done s -> ensures (I (done ++ [x])) (f s x)) ->
  ensures (I l) (foldM f s l).
Proof. intros H0 Hf. exact (ensures_foldM I f l Hf [] s H0). Qed.

(** ** The primitives of [random] *)

Lemma returns_randbelow (n : Z) :
  (0 < n)%Z -> returns (fun j => (0 <= j < n)%Z) (randbelow n).
Proof.
  intros Hn g. eexists. eexists. split; [reflexivity |].
  apply Z.mod_pos_bound. exact Hn.
Qed.

Lemma returns_randint (a b : Z) :
  (a <= b)%Z -> returns (fun v => (a <= v <= b)%Z) (randint a b).
Proof.
  intros Hab. unfold randint.
  destruct (Z.leb_spec (b - a + 1) 0); [lia |].
  apply returns_bind with (P := fun j => (0 <= j < b - a + 1)%Z).
  - apply returns_randbelow. lia.
  - intros j Hj. apply returns_ret. lia.
Qed.

Lemma nth_In_default {A} (l : list A) (d : A) (n : nat) :
  In d l -> In (nth n l d) l.
Proof.
  intros Hd. destruct (Nat.lt_ge_cases n (length l)) as [Hn | Hn].
  - apply nth_In. exact Hn.
  - rewrite nth_overflow by exact Hn. exact Hd.
Qed.

Lemma returns_choice {A} (l : list A) :
  l <> [] -> returns (fun x => In x l) (choice l).
Proof.
  intros Hl. destruct l as [| d l']; [congruence |].
  unfold choice. intros g. eexists. eexists. split; [reflexivity |].
  apply nth_In_default. left. reflexivity.
Qed.

Lemma ensures_choice {A} (l : list A) : ensures (fun x => In x l) (choice l).
Proof.
  destruct l as [| d l'].
  - apply ensures_raise.
  - apply returns_ensures. apply returns_choice. discriminate.
Qed.

(** the empty-selection condition of [random.choice] *)
Lemma choice_nil {A} (g : rng) : choice (@nil A) g = Raise IndexError.
Proof. reflexivity. Qed.

Lemma returns_random : returns (fun r => 0 <= r /\ r < 1) random_random.
Proof.
  intros g. eexists. eexists. split; [reflexivity |].
  assert (H := Z.mod_pos_bound (tape g (pos g)) (2 ^ 53) eq_refl).
  set (k := (tape g (pos g) mod 2 ^ 53)%Z) in *.
  rewrite Qred_correct. unfold Qdiv.
  assert (Hk : inject_Z 0 <= inject_Z k) by (rewrite <- Zle_Qle; lia).
  assert (Hk' : inject_Z k < inject_Z (2 ^ 53)) by (rewrite <- Zlt_Qlt; lia).
  assert (Hp : 0 < inject_Z (2 ^ 53)) by reflexivity.
  split.
  - apply Qmult_le_0_compat; [exact Hk | apply Qlt_le_weak, Qinv_lt_0_compat, Hp].
  - apply Qlt_shift_div_r; [exact Hp |]. rewrite Qmult_1_l. exact Hk'.
Qed.

Lemma returns_uniform (a b : Q) :
  returns (fun u => exists r, 0 <= r /\ r < 1 /\ u = fadd a (fmul (fsub b a) r))
          (uniform a b).
Proof.
  unfold uniform. apply returns_bind with (P := fun r => 0 <= r /\ r < 1).
  - apply returns_random.
  - intros r [H0 H1]. apply returns_ret. exists r. auto.
Qed.

Lemma returns_choices1 {A} (population : list A) (ws : list Q) :
  population <> [] ->
  Qle_bool (fadd (last (accumulate 0 ws) 0) 0) 0 = false ->
  returns (fun x => In x population) (choices1 population ws).
Proof.
  intros Hp Ht. destruct population as [| d l']; [congruence |].
  unfold choices1. rewrite Ht.
  apply returns_bind with (P := fun _ => True).
  - apply returns_weaken with (P := fun r => 0 <= r /\ r < 1);
      [apply returns_random | auto].
  - intros r _. apply returns_ret. apply nth_In_default. left. reflexivity.
Qed.

(** ** [range] *)

Lemma range_nil (a b : Z) : (b <= a)%Z -> range a b = [].
Proof.
  intros H. unfold range. replace (Z.to_nat (b - a)) with 0%nat by lia. reflexivity.
Qed.

Lemma range_snoc (a b : Z) : (a <= b)%Z -> range a (b + 1) = range a b ++ [b].
Proof.
  intros H. unfold range.
  replace (Z.to_nat (b + 1 - a)) with (Z.to_nat (b - a) + 1)%nat by lia.
  rewrite seq_app, map_app. cbn [seq map Nat.add]. f_equal. f_equal. lia.
Qed.

Lemma range_length (a b : Z) : length (range a b) = Z.to_nat (b - a).
Proof. unfold range. rewrite length_map, length_seq. reflexivity. Qed.

Lemma range_In (a b i : Z) : In i (range a b) <-> (a <= i < b)%Z.
Proof.
  unfold range. rewrite in_map_iff. split.
  - intros (k & <- & Hk). apply in_seq in Hk. lia.
  - intros H. exists (Z.to_nat (i - a)). split; [lia |]. apply in_seq. lia.
Qed.

Lemma range_NoDup (a b : Z) : NoDup (range a b).
Proof.
  unfold range. apply Injective_map_NoDup; [| apply seq_NoDup].
  intros x y H. lia.
Qed.

Lemma dense_from_nil (start : Z) : dense_from start [].
Proof. unfold dense_from. cbn [length]. rewrite range_nil by lia. reflexivity. Qed.

Lemma dense_from_snoc (start : Z) (ids : list Z) :
  dense_from start ids -> dense_from start (ids ++ [start + Z.of_nat (length ids)]%Z).
Proof.
  unfold dense_from. intros H. rewrite length_app. cbn [length].
  replace (start + Z.of_nat (length ids + 1))%Z
    with (start + Z.of_nat (length ids) + 1)%Z by lia.
  rewrite range_snoc by lia. rewrite <- H. reflexivity.
Qed.

Lemma range_app (a b c : Z) :
  (a <= b)%Z -> (b <= c)%Z -> range a c = range a b ++ range b c.
Proof.
  intros Hab Hbc.
  replace c with (b + Z.of_nat (Z.to_nat (c - b)))%Z by lia.
  generalize (Z.to_nat (c - b)). intros n. induction n as [| n IH].
  - rewrite Z.add_0_r, (range_nil b b), app_nil_r by lia. reflexivity.
  - rewrite Nat2Z.inj_succ.
    replace (b + Z.succ (Z.of_nat n))%Z with (b + Z.of_nat n + 1)%Z by lia.
    rewrite !range_snoc by lia. rewrite IH, app_assoc. reflexivity.
Qed.

Lemma dense_from_app (start : Z) (ids ids' : list Z) :
  dense_from start ids ->
  dense_from (start + Z.of_nat (length ids)) ids' ->
  dense_from start (ids ++ ids').
Proof.
  unfold dense_from. intros H H'.
  rewrite length_app, Nat2Z.inj_add, Z.add_assoc.
  rewrite (range_app start (start + Z.of_nat (length ids))) by lia.
  rewrite <- H, <- H'. reflexivity.
Qed.

(** ** Steps of the straight-line generator bodies *)

Ltac split_in H :=
  cbn [In] in H;
  repeat (destruct H as [H | H]; [subst |]); try contradiction.

Ltac mstep :=
  lazymatch goal with
  | |- returns _ (bind (choice _) _) =>
      eapply returns_bind; [apply returns_choice; discriminate | intros ? ?]
  | |- returns _ (bind (randint _ _) _) =>
      eapply returns_bind; [apply returns_randint; lia | intros ? ?]
  | |- returns _ (bind random_random _) =>
      eapply returns_bind; [apply returns_random | intros ? ?]
  | |- returns _ (bind (uniform _ _) _) =>
      eapply returns_bind; [apply returns_uniform | intros ? ?]
  | |- returns _ (bind (choices1 _ _) _) =>
      eapply returns_bind;
      [apply returns_choices1; [discriminate | vm_compute; reflexivity] | intros ? ?]
  | |- returns _ (bind (if ?b then _ else _) _) => destruct b
  | |- returns _ (if ?b then _ else _) => destruct b
  | |- returns _ (bind (bind _ _) _) =>
      eapply returns_bind with (P := fun _ => True);
      [repeat mstep; exact I | intros ? _]
  | |- returns _ (bind (ret _) _) =>
      eapply returns_bind with (P := fun _ => True);
      [apply returns_ret; exact I | intros ? _]
  | |- returns _ (ret _) => apply returns_ret
  end.

Lemma returns_gen_phone : returns (fun _ => True) gen_phone.
Proof. unfold gen_phone. repeat mstep. exact I. Qed.

Lemma returns_gen_locality : returns (fun _ => True) gen_locality.
Proof.
  unfold gen_locality.
  eapply returns_bind; [apply returns_choice; discriminate |].
  intros entry He. split_in He; cbn [snd fst]; repeat mstep; exact I.
Qed.

Ltac mstep' :=
  first
    [ mstep
    | eapply returns_bind; [apply returns_gen_phone | intros ? _]
    | eapply returns_bind; [apply returns_gen_locality | intros [? ?] _] ].

(** ** Customers *)

Lemma returns_new_customer (today i : Z) :
  returns (fun c => Customer.CUSTOMER_ID c = i /\
                    (1944 <= year (Customer.DATE_OF_BIRTH c) <= 2006)%Z)
          (new_customer today i).
Proof.
  unfold new_customer. repeat mstep'.
  all: cbv beta in *; cbn [Customer.CUSTOMER_ID Customer.DATE_OF_BIRTH year];
    split; [reflexivity | lia].
Qed.

Lemma returns_generate_customers (today n : Z) :
  returns (fun cs => map Customer.CUSTOMER_ID cs = range 1 (n + 1) /\
                     Forall (fun c => (1944 <= year (Customer.DATE_OF_BIRTH c) <= 2006)%Z) cs)
          (generate_customers today n).
Proof.
  unfold generate_customers.
  apply (returns_loop
           (fun done cs => map Customer.CUSTOMER_ID cs = done /\
                           Forall (fun c => (1944 <= year (Customer.DATE_OF_BIRTH c) <= 2006)%Z) cs)).
  - split; [reflexivity | constructor].
  - intros done i cs [Hids Hy].
    eapply returns_bind; [apply returns_new_customer |].
    intros c [Hc Hyc]. apply returns_ret. split.
    + rewrite map_app, Hids. cbn [map]. rewrite Hc. reflexivity.
    + apply Forall_app. split; [exact Hy | constructor; [exact Hyc | constructor]].
Qed.

(** ** Customer addresses *)

Lemma returns_new_address (c : Customer.t) (addresses : list Address.t) (address_id i : Z) :
  returns (fun st => exists a, st = (addresses ++ [a], (address_id + 1)%Z) /\
                     Address.ADDRESS_ID a = address_id /\
                     Address.CUSTOMER_ID a = Customer.CUSTOMER_ID c /\
                     Address.IS_DEFAULT a = (i =? 0)%Z)
          (new_address c (addresses, address_id) i).
Proof.
  unfold new_address.
  eapply returns_bind; [apply returns_gen_locality | intros [province city] _].
  do 3 mstep.
  eapply returns_bind; [apply returns_choice; discriminate | intros sn _].
  repeat mstep.
  eexists. split; [reflexivity |]. cbn. auto.
Qed.

Lemma returns_addresses_of_customer (c : Customer.t) (addresses : list Address.t)
    (address_id : Z) :
  returns (fun st => exists blk,
             st = (addresses ++ blk, (address_id + Z.of_nat (length blk))%Z) /\
             address_block c blk /\
             map Address.ADDRESS_ID blk =
               range address_id (address_id + Z.of_nat (length blk)))
          (addresses_of_customer (addresses, address_id) c).
Proof.
  unfold addresses_of_customer.
  eapply returns_bind;
    [apply returns_choices1; [discriminate | vm_compute; reflexivity] |].
  intros n Hn. split_in Hn.
  - change (range 0 1) with [0%Z]. cbn [foldM].
    eapply returns_bind; [apply returns_new_address |].
    intros st (a & -> & Hid & Hc & Hd). apply returns_ret.
    exists [a]. cbn [length map]. repeat split.
    + left. reflexivity.
    + constructor; [exact Hc | constructor].
    + exists a, []. repeat split; [exact Hd | constructor].
    + rewrite Hid. change (Z.of_nat 1) with 1%Z.
      rewrite range_snoc, range_nil by lia. reflexivity.
  - change (range 0 2) with [0%Z; 1%Z]. cbn [foldM].
    eapply returns_bind; [apply returns_new_address |].
    intros st (a & -> & Hid & Hc & Hd).
    eapply returns_bind; [apply returns_new_address |].
    intros st (b & -> & Hid' & Hc' & Hd'). apply returns_ret.
    exists [a; b]. cbn [length map]. repeat split.
    + rewrite <- app_assoc. f_equal. lia.
    + right. reflexivity.
    + constructor; [exact Hc | constructor; [exact Hc' | constructor]].
    + exists a, [b]. repeat split; [exact Hd | constructor; [exact Hd' | constructor]].
    + rewrite Hid, Hid'. change (Z.of_nat 2) with 2%Z.
      replace (address_id + 2)%Z with (address_id + 1 + 1)%Z by lia.
      rewrite range_snoc, range_snoc, range_nil by lia. reflexivity.
Qed.

Lemma returns_generate_customer_addresses (customers : list Customer.t) :
  returns (fun addrs =>
             dense_from 1 (map Address.ADDRESS_ID addrs) /\
             exists blocks, addrs = concat blocks /\
                            Forall2 address_block customers blocks)
          (generate_customer_addresses customers).
Proof.
  unfold generate_customer_addresses.
  eapply returns_bind.
  - apply (returns_loop
             (fun done (st : list Address.t * Z) =>
                snd st = (1 + Z.of_nat (length (fst st)))%Z /\
                dense_from 1 (map Address.ADDRESS_ID (fst st)) /\
                exists blocks, fst st = concat blocks /\ Forall2 address_block done blocks)).
    + cbn [fst snd length map]. split; [reflexivity | split].
      * apply dense_from_nil.
      * exists []. split; [reflexivity | constructor].
    + intros done c [addresses address_id]. cbn [fst snd].
      intros (Hid & Hdense & blocks & Hcat & Hblk).
      eapply returns_weaken; [apply returns_addresses_of_customer |].
      intros st (blk & -> & Hb & Hids). cbn [fst snd]. split; [| split].
      * rewrite length_app. lia.
      * rewrite map_app. apply dense_from_app; [exact Hdense |].
        unfold dense_from. rewrite !length_map, <- Hid. exact Hids.
      * exists (blocks ++ [blk]). split.
        -- rewrite concat_app, Hcat. cbn [concat]. rewrite app_nil_r. reflexivity.
        -- apply Forall2_app; [exact Hblk | constructor; [exact Hb | constructor]].
  - intros [addrs id] (_ & Hd & Hb). apply returns_ret. cbn [fst] in *. split; assumption.
Qed.

Lemma filter_all {A} (f : A -> bool) (l : list A) :
  Forall (fun x => f x = true) l -> filter f l = l.
Proof.
  induction 1 as [| x l Hx _ IH]; cbn [filter]; [reflexivity |].
  rewrite Hx, IH. reflexivity.
Qed.

Lemma filter_none {A} (f : A -> bool) (l : list A) :
  Forall (fun x => f x = false) l -> filter f l = [].
Proof.
  induction 1 as [| x l Hx _ IH]; cbn [filter]; [reflexivity |].
  rewrite Hx, IH. reflexivity.
Qed.

Lemma blocks_customer_ids (cs : list Customer.t) (blocks : list (list Address.t)) :
  Forall2 address_block cs blocks ->
  Forall (fun a => In (Address.CUSTOMER_ID a) (map Customer.CUSTOMER_ID cs))
         (concat blocks).
Proof.
  induction 1 as [| c blk cs blocks (_ & Hc & _) _ IH]; cbn [concat map].
  - constructor.
  - apply Forall_app. split.
    + eapply Forall_impl; [| exact Hc]. intros a Ha. left. symmetry. exact Ha.
    + eapply Forall_impl; [| exact IH]. intros a Ha. right. exact Ha.
Qed.

(** with pairwise distinct customer identifiers, the addresses that carry
    the identifier of a customer are the block emitted for that customer *)
Lemma addresses_of_customer_block (cs : list Customer.t) (blocks : list (list Address.t)) :
  NoDup (map Customer.CUSTOMER_ID cs) ->
  Forall2 address_block cs blocks ->
  forall c, In c cs ->
    address_block c
      (filter (fun a => (Address.CUSTOMER_ID a =? Customer.CUSTOMER_ID c)%Z)
              (concat blocks)).
Proof.
  intros Hnd H. induction H as [| c0 blk cs blocks Hb Hrest IH]; intros c Hin.
  - destruct Hin.
  - cbn [map] in Hnd. inversion Hnd as [| ? ? Hnotin Hnd']; subst.
    cbn [concat]. rewrite filter_app.
    destruct (Z.eq_dec (Customer.CUSTOMER_ID c) (Customer.CUSTOMER_ID c0)) as [E | NE].
    + rewrite filter_all, filter_none, app_nil_r.
      * destruct Hb as (Hl & Hc & Hd). repeat split; try assumption.
        rewrite E. exact Hc.
      * eapply Forall_impl; [| apply (blocks_customer_ids cs blocks Hrest)].
        intros a Ha. cbv beta in Ha. apply Z.eqb_neq. intros Ea.
        apply Hnotin. rewrite <- E, <- Ea. exact Ha.
      * destruct Hb as (_ & Hc & _). eapply Forall_impl; [| exact Hc].
        intros a Ha. cbv beta in Ha. apply Z.eqb_eq. congruence.
    + destruct Hin as [-> | Hin]; [congruence |].
      rewrite filter_none, app_nil_l; [apply IH; assumption |].
      destruct Hb as (_ & Hc & _). eapply Forall_impl; [| exact Hc].
      intros a Ha. cbv beta in Ha. apply Z.eqb_neq. congruence.
Qed.

Lemma address_block_one_default (c : Customer.t) (blk : list Address.t) :
  address_block c blk -> length (filter Address.IS_DEFAULT blk) = 1%nat.
Proof.
  intros (_ & _ & a & rest & -> & Ha & Hrest).
  cbn [filter]. rewrite Ha, filter_none by exact Hrest. reflexivity.
Qed.

(** ** Partial-correctness steps *)

Lemma ensures_bind_any {A B} (Q : B -> Prop) (c : M A) (k : A -> M B) :
  (forall a, ensures Q (k a)) -> ensures Q (bind c k).
Proof.
  intros Hk. apply ensures_bind with (P := fun _ => True).
  - intros g a g' _. exact I.
  - intros a _. apply Hk.
Qed.

Lemma ensures_randint (a b : Z) : ensures (fun v => (a <= v <= b)%Z) (randint a b).
Proof.
  unfold randint. destruct (Z.leb_spec (b - a + 1) 0) as [H | H].
  - apply ensures_raise.
  - apply returns_ensures.
    apply returns_bind with (P := fun j => (0 <= j < b - a + 1)%Z).
    + apply returns_randbelow. exact H.
    + intros j Hj. apply returns_ret. lia.
Qed.

Lemma replace_nth_incl {A} (n : nat) (l : list A) (x : A) :
  incl (replace_nth n l x) (x :: l).
Proof.
  revert n. induction l as [| h t IH]; intros n; cbn [replace_nth].
  - destruct n; intros y [].
  - destruct n as [| n'].
    + intros y [<- | Hy]; [left; reflexivity | right; right; exact Hy].
    + intros y [<- | Hy]; [right; left; reflexivity |].
      destruct (IH n' y Hy) as [<- | Hy']; [left; reflexivity | right; right; exact Hy'].
Qed.

Lemma In_firstn {A} (n : nat) (l : list A) (x : A) : In x (firstn n l) -> In x l.
Proof.
  intros H. rewrite <- (firstn_skipn n l). apply in_or_app. left. exact H.
Qed.

Lemma ensures_sample_pool {A} (k : nat) :
  forall pool : list A,
    ensures (fun l => incl l pool /\ length l = k) (sample_pool pool k).
Proof.
  induction k as [| k IH]; intros pool; cbn [sample_pool].
  - apply ensures_ret. split; [intros x [] | reflexivity].
  - destruct pool as [| d pool']; [apply ensures_raise |].
    apply ensures_bind_any. intros j.
    eapply ensures_bind; [apply IH |].
    intros rest [Hincl Hlen]. apply ensures_ret. split; [| cbn [length]; lia].
    intros y [<- | Hy].
    + apply nth_In_default. left. reflexivity.
    + apply Hincl in Hy. apply In_firstn in Hy.
      apply replace_nth_incl in Hy. destruct Hy as [<- | Hy]; [| exact Hy].
      apply nth_In_default. left. reflexivity.
Qed.

Lemma ensures_sample {A} (population : list A) (k : Z) :
  ensures (fun l => incl l population /\ length l = Z.to_nat k) (sample population k).
Proof.
  unfold sample. destruct (_ || _)%bool; [apply ensures_raise |].
  apply ensures_sample_pool.
Qed.

Ltac estep :=
  lazymatch goal with
  | |- ensures _ (bind (choice _) _) =>
      eapply ensures_bind; [apply ensures_choice | intros ? ?]
  | |- ensures _ (bind (randint _ _) _) =>
      eapply ensures_bind; [apply ensures_randint | intros ? ?]
  | |- ensures _ (bind random_random _) =>
      eapply ensures_bind; [apply returns_ensures, returns_random | intros ? ?]
  | |- ensures _ (bind (uniform _ _) _) =>
      eapply ensures_bind; [apply returns_ensures, returns_uniform | intros ? ?]
  | |- ensures _ (bind (sample _ _) _) =>
      eapply ensures_bind; [apply ensures_sample | intros ? ?]
  | |- ensures _ (bind gen_phone _) => apply ensures_bind_any; intros ?
  | |- ensures _ (bind (if ?b then _ else _) _) => destruct b
  | |- ensures _ (bind (match ?x with _ => _ end) _) => destruct x
  | |- ensures _ (ret _) => apply ensures_ret
  end.

(** ** Employees *)

Lemma ensures_new_employee (today : Z) (stores : list Store.t) (i : Z) :
  ensures (fun e => Employee.EMPLOYEE_ID e = i /\
                    In (Employee.STORE_ID e) (map Store.STORE_ID stores))
          (new_employee today stores i).
Proof.
  unfold new_employee. repeat estep.
  all: cbn [Employee.EMPLOYEE_ID Employee.STORE_ID]; split;
    [reflexivity | apply in_map; assumption].
Qed.

Lemma ensures_assign_manager (managers done : list Employee.t) (emp : Employee.t) :
  ensures (fun l => exists emp', l = done ++ [emp'] /\
                      Employee.EMPLOYEE_ID emp' = Employee.EMPLOYEE_ID emp /\
                      Employee.STORE_ID emp' = Employee.STORE_ID emp)
          (assign_manager managers done emp).
Proof.
  unfold assign_manager. destruct (is_manager emp).
  - apply ensures_ret. exists emp. auto.
  - estep. destruct (Qlt_le_dec _ _).
    + estep. estep. eexists. split; [reflexivity |]. split; reflexivity.
    + estep. exists emp. auto.
Qed.

Lemma ensures_assign_store_manager (employees : list Employee.t)
    (done : list Store.t) (store : Store.t) :
  ensures (fun l => exists store', l = done ++ [store'] /\
                      Store.STORE_ID store' = Store.STORE_ID store)
          (assign_store_manager employees done store).
Proof.
  unfold assign_store_manager. destruct (filter _ employees) as [| e0 es].
  - apply ensures_ret. exists store. auto.
  - estep. estep. eexists. split; [reflexivity |]. reflexivity.
Qed.

(** the employees keep the identifiers 1..n, every one of them works at a
    store of the caller's list, and the stores come back with their
    identifiers unchanged *)
Lemma ensures_generate_employees (today : Z) (stores : list Store.t) (n : Z) :
  ensures (fun r : list Employee.t * list Store.t =>
             map Employee.EMPLOYEE_ID (fst r) = range 1 (n + 1) /\
             Forall (fun e => In (Employee.STORE_ID e) (map Store.STORE_ID stores)) (fst r) /\
             map Store.STORE_ID (snd r) = map Store.STORE_ID stores)
          (generate_employees today stores n).
Proof.
  unfold generate_employees.
  eapply ensures_bind.
  { apply (ensures_loop
             (fun done es => map Employee.EMPLOYEE_ID es = done /\
                Forall (fun e => In (Employee.STORE_ID e) (map Store.STORE_ID stores)) es)).
    - split; [reflexivity | constructor].
    - intros done i es _ [Hids Hs].
      eapply ensures_bind; [apply ensures_new_employee |].
      intros e [He Hst]. apply ensures_ret. split.
      + rewrite map_app, Hids. cbn [map]. rewrite He. reflexivity.
      + apply Forall_app. split; [exact Hs | constructor; [exact Hst | constructor]]. }
  intros es0 [Hids0 Hs0]. cbv beta.
  eapply ensures_bind.
  { apply (ensures_loop
             (fun done es => map Employee.EMPLOYEE_ID es = map Employee.EMPLOYEE_ID done /\
                             map Employee.STORE_ID es = map Employee.STORE_ID done)).
    - split; reflexivity.
    - intros done emp es _ [Hi Hs].
      eapply ensures_weaken; [apply ensures_assign_manager |].
      intros l (emp' & -> & Hi' & Hs'). rewrite !map_app, Hi, Hs. cbn [map].
      rewrite Hi', Hs'. split; reflexivity. }
  intros es1 [Hids1 Hs1].
  eapply ensures_bind.
  { apply (ensures_loop
             (fun done ss => map Store.STORE_ID ss = map Store.STORE_ID done)).
    - reflexivity.
    - intros done store ss _ Hss.
      eapply ensures_weaken; [apply ensures_assign_store_manager |].
      intros l (store' & -> & Hs'). rewrite !map_app, Hss. cbn [map].
      rewrite Hs'. reflexivity. }
  intros ss Hss. apply ensures_ret. cbn [fst snd]. split; [| split].
  - rewrite Hids1. exact Hids0.
  - rewrite Forall_forall in *. intros e He.
    apply (in_map Employee.STORE_ID) in He. rewrite Hs1 in He.
    apply in_map_iff in He. destruct He as (e0 & <- & He0). apply Hs0. exact He0.
  - exact Hss.
Qed.

(** ** Orders *)

Lemma ensures_new_line (i : Z) (t d : Q) (det : list OrderLine.t) (p : Product.t) :
  ensures (fun st => exists q f,
             draw_ok (p, q, f) /\
             st = (fadd t (draw_amount (p, q, f)), fadd d (draw_discount (p, q, f)),
                   det ++ [draw_line i (p, q, f)]))
          (new_line i (t, d, det) p).
Proof.
  unfold new_line.
  eapply ensures_bind; [apply ensures_randint | intros q Hq].
  eapply ensures_bind; [apply returns_ensures, returns_uniform | intros f Hf].
  apply ensures_ret. exists q, f. split; [split; [exact Hq | exact Hf] |].
  unfold draw_line, draw_amount, draw_discount. reflexivity.
Qed.

Lemma ensures_lines_loop (i : Z) (t0 d0 : Q) (det0 : list OrderLine.t)
    (order_products : list Product.t) :
  ensures (fun st => exists draws,
             map draw_product draws = order_products /\
             Forall draw_ok draws /\
             st = (fsum_from t0 (map draw_amount draws),
                   fsum_from d0 (map draw_discount draws),
                   det0 ++ map (draw_line i) draws))
          (foldM (new_line i) (t0, d0, det0) order_products).
Proof.
  apply (ensures_loop
           (fun done st => exists draws,
              map draw_product draws = done /\
              Forall draw_ok draws /\
              st = (fsum_from t0 (map draw_amount draws),
                    fsum_from d0 (map draw_discount draws),
                    det0 ++ map (draw_line i) draws))).
  - exists []. split; [reflexivity | split; [constructor |]].
    cbn. rewrite app_nil_r. reflexivity.
  - intros done p [[t d] det] _ (draws & Hp & Hok & E). inversion E; subst. clear E.
    eapply ensures_weaken; [apply ensures_new_line |].
    intros st (q & f & Hd & ->). exists (draws ++ [(p, q, f)]).
    split; [| split].
    + rewrite map_app. reflexivity.
    + apply Forall_app. split; [exact Hok | constructor; [exact Hd | constructor]].
    + unfold fsum_from. rewrite !map_app, !fold_left_app, <- app_assoc.
      cbn [map fold_left]. reflexivity.
Qed.

Lemma ensures_new_order (today : Z) (customers : list Customer.t)
    (stores : list Store.t) (employees : list Employee.t) (products : list Product.t)
    (orders : list Order.t) (details : list OrderLine.t) (i : Z) :
  ensures (fun st => exists o lines,
             st = (orders ++ [o], details ++ lines) /\
             order_spec customers stores employees products i o lines)
          (new_order today customers stores employees products (orders, details) i).
Proof.
  unfold new_order.
  eapply ensures_bind; [apply ensures_choice | intros customer Hc].
  eapply ensures_bind; [apply ensures_choice | intros store Hs].
  eapply ensures_bind; [apply ensures_choice | intros employee He].
  apply filter_In in He. destruct He as [He Hes]. apply Z.eqb_eq in Hes.
  do 2 estep.
  apply ensures_bind_any. intros r.
  apply ensures_bind_any. intros ship_date.
  apply ensures_bind_any. intros order_status.
  eapply ensures_bind; [apply ensures_randint | intros num_products Hn].
  eapply ensures_bind; [apply ensures_sample | intros order_products [Hincl Hlen]].
  eapply ensures_bind; [apply ensures_randint | intros shipping_cost Hship].
  eapply ensures_bind; [apply ensures_lines_loop |].
  intros [[t d] det] (draws & Hp & Hok & E). injection E as -> -> ->.
  do 2 (apply ensures_bind_any; intros ?).
  apply ensures_ret. eexists. eexists. split; [reflexivity |].
  exists draws. cbv beta in *.
  cbn [Order.ORDER_ID Order.SHIPPING_ADDRESS_ID Order.SHIPPING_COST
       Order.TOTAL_AMOUNT Order.TAX_AMOUNT Order.DISCOUNT_AMOUNT
       Order.FINAL_AMOUNT Order.CUSTOMER_ID Order.STORE_ID Order.EMPLOYEE_ID].
  unfold final_of, tax_of, subtotal, discounts.
  split; [exact Hok |].
  split; [rewrite Hp; exact Hincl |].
  split; [rewrite <- (length_map draw_product), Hp, Hlen; lia |].
  do 3 (split; [reflexivity |]).
  split; [exact Hship |].
  do 4 (split; [reflexivity |]).
  split; [exists customer; split; [exact Hc | reflexivity] |].
  split; [exists store; split; [exact Hs | reflexivity] |].
  exists employee. split; [exact He | split; [reflexivity | exact Hes]].
Qed.

Lemma ensures_generate_orders (today : Z) (customers : list Customer.t)
    (stores : list Store.t) (employees : list Employee.t) (products : list Product.t)
    (n : Z) :
  ensures (fun r => orders_built customers stores employees products
                      (range 1 (n + 1)) (fst r) (snd r))
          (generate_orders today customers stores employees products n).
Proof.
  unfold generate_orders.
  apply (ensures_loop
           (fun done r => orders_built customers stores employees products
                            done (fst r) (snd r))).
  - constructor.
  - intros done i [orders details] _ Hb. cbn [fst snd] in Hb.
    eapply ensures_weaken; [apply ensures_new_order |].
    intros st (o & lines & -> & Ho). cbn [fst snd]. constructor; assumption.
Qed.

Lemma built_ids customers stores employees products ids orders details :
  orders_built customers stores employees products ids orders details ->
  map Order.ORDER_ID orders = ids /\
  Forall (fun l => In (OrderLine.ORDER_ID l) ids) details.
Proof.
  induction 1 as [| ids orders details i o lines _ [IHo IHl] Ho].
  - split; [reflexivity | constructor].
  - destruct Ho as (draws & _ & _ & _ & Hlines & Hid & _). split.
    + rewrite map_app, IHo. cbn [map]. rewrite Hid. reflexivity.
    + apply Forall_app. split.
      * eapply Forall_impl; [| exact IHl]. intros l Hl. apply in_or_app. left. exact Hl.
      * subst lines. apply Forall_forall. intros l Hl.
        apply in_map_iff in Hl. destruct Hl as ([[p q] f] & <- & _).
        apply in_or_app. right. left. reflexivity.
Qed.

Lemma built_orders customers stores employees products ids orders details :
  orders_built customers stores employees products ids orders details ->
  Forall (fun o => exists lines,
            order_spec customers stores employees products (Order.ORDER_ID o) o lines)
         orders.
Proof.
  induction 1 as [| ids orders details i o lines _ IH Ho].
  - constructor.
  - apply Forall_app. split; [exact IH |]. constructor; [| constructor].
    exists lines. destruct Ho as (draws & Ho). assert (Hid := Ho).
    destruct Hid as (_ & _ & _ & _ & Hid & _). rewrite Hid. exists draws. exact Ho.
Qed.

Lemma built_lines customers stores employees products ids orders details :
  orders_built customers stores employees products ids orders details ->
  Forall (fun l => exists i d, l = draw_line i d /\ draw_ok d /\
                               In (draw_product d) products)
         details.
Proof.
  induction 1 as [| ids orders details i o lines _ IH Ho].
  - constructor.
  - apply Forall_app. split; [exact IH |].
    destruct Ho as (draws & Hok & Hincl & _ & -> & _).
    apply Forall_forall. intros l Hl. apply in_map_iff in Hl.
    destruct Hl as (d & <- & Hd). exists i, d. split; [reflexivity |]. split.
    + rewrite Forall_forall in Hok. apply Hok. exact Hd.
    + apply Hincl. apply in_map. exact Hd.
Qed.

(** with pairwise distinct order identifiers, the lines that carry the
    identifier of an order are the lines appended by its iteration *)
Lemma built_lines_of_order customers stores employees products ids orders details :
  orders_built customers stores employees products ids orders details ->
  NoDup ids ->
  forall o, In o orders ->
    order_spec customers stores employees products (Order.ORDER_ID o) o
      (filter (fun l => (OrderLine.ORDER_ID l =? Order.ORDER_ID o)%Z) details).
Proof.
  induction 1 as [| ids orders details i o' lines Hb IH Ho]; intros Hnd o Hin.
  - destruct Hin.
  - apply NoDup_remove in Hnd. rewrite app_nil_r in Hnd. destruct Hnd as [Hnd Hi].
    destruct (built_ids _ _ _ _ _ _ _ Hb) as [Hids Hdet].
    assert (Hlines : Forall (fun l => OrderLine.ORDER_ID l = i) lines).
    { destruct Ho as (draws & _ & _ & _ & -> & _). apply Forall_forall.
      intros l Hl. apply in_map_iff in Hl. destruct Hl as ([[p q] f] & <- & _).
      reflexivity. }
    assert (Hid' : Order.ORDER_ID o' = i).
    { destruct Ho as (draws & _ & _ & _ & _ & Hid & _). exact Hid. }
    rewrite filter_app. apply in_app_or in Hin. destruct Hin as [Hin | [<- | []]].
    + assert (Hne : Order.ORDER_ID o <> i).
      { intros E. apply Hi. rewrite <- Hids, <- E. apply in_map. exact Hin. }
      rewrite (filter_none _ lines), app_nil_r; [apply IH; assumption |].
      eapply Forall_impl; [| exact Hlines]. intros l Hl. cbv beta in Hl.
      apply Z.eqb_neq. congruence.
    + rewrite filter_none, app_nil_l, filter_all.
      * rewrite Hid'. exact Ho.
      * eapply Forall_impl; [| exact Hlines]. intros l Hl. cbv beta in Hl.
        apply Z.eqb_eq. congruence.
      * eapply Forall_impl; [| exact Hdet]. intros l Hl. cbv beta in Hl.
        apply Z.eqb_neq. intros E. apply Hi. rewrite <- Hid', <- E. exact Hl.
Qed.

(** ** The flattened view *)

Lemma find_first {A} (f : A -> bool) (l : list A) (x : A) :
  find f l = Some x ->
  exists pre post, l = pre ++ x :: post /\ f x = true /\ Forall (fun y => f y = false) pre.
Proof.
  induction l as [| h t IH]; cbn [find]; [discriminate |].
  destruct (f h) eqn:Eh.
  - intros E. injection E as <-. exists [], t. repeat split; [exact Eh | constructor].
  - intros E. destruct (IH E) as (pre & post & -> & Hx & Hpre).
    exists (h :: pre), post. repeat split; [exact Hx | constructor; assumption].
Qed.

Lemma first_match_line (order_details : list OrderLine.t) (k : Z) (od : OrderLine.t) :
  first_match OrderLine.ORDER_ID k order_details = Some od ->
  first_line_of order_details k od.
Proof.
  intros H. apply find_first in H. destruct H as (pre & post & -> & Hx & Hpre).
  exists pre, post. split; [reflexivity |]. split.
  - apply Z.eqb_eq. exact Hx.
  - eapply Forall_impl; [| exact Hpre]. intros l Hl. cbv beta in Hl.
    apply Z.eqb_neq. exact Hl.
Qed.

Lemma add_sale_row customers products stores employees order_details sales_data order :
  add_sale customers products stores employees order_details sales_data order =
  sales_data ++ row_of customers products stores employees order_details order.
Proof.
  unfold row_of, add_sale.
  destruct (first_match OrderLine.ORDER_ID _ _); [| rewrite app_nil_r; reflexivity].
  destruct (first_match Customer.CUSTOMER_ID _ _); [| rewrite app_nil_r; reflexivity].
  destruct (first_match Product.PRODUCT_ID _ _); [| rewrite app_nil_r; reflexivity].
  destruct (first_match Store.STORE_ID _ _); [| rewrite app_nil_r; reflexivity].
  destruct (first_match Employee.EMPLOYEE_ID _ _); [| rewrite app_nil_r; reflexivity].
  reflexivity.
Qed.

Lemma build_sales_data_rows customers products stores employees orders order_details :
  build_sales_data customers products stores employees orders order_details =
  flat_map (row_of customers products stores employees order_details) orders.
Proof.
  unfold build_sales_data.
  enough (H : forall acc,
             fold_left (add_sale customers products stores employees order_details) orders acc =
             acc ++ flat_map (row_of customers products stores employees order_details) orders)
    by exact (H []).
  induction orders as [| o orders IH]; intros acc; cbn [fold_left flat_map].
  - rewrite app_nil_r. reflexivity.
  - rewrite IH, add_sale_row, <- app_assoc. reflexivity.
Qed.

(** an order contributes no row or one row; the row repeats the order's
    identifier and takes its product fields from the first matching line *)
Lemma row_of_cases customers products stores employees order_details order :
  row_of customers products stores employees order_details order = [] \/
  exists r od,
    row_of customers products stores employees order_details order = [r] /\
    first_line_of order_details (Order.ORDER_ID order) od /\
    Sale.ORDER_ID r = Order.ORDER_ID order /\
    Sale.PRODUCT_ID r = OrderLine.PRODUCT_ID od /\
    Sale.QUANTITY_ORDERED r = OrderLine.QUANTITY_ORDERED od /\
    Sale.UNIT_PRICE r = OrderLine.UNIT_PRICE od /\
    Sale.DISCOUNT_PERCENT r = OrderLine.DISCOUNT_PERCENT od /\
    Sale.TOTAL_AMOUNT r = OrderLine.TOTAL_LINE_AMOUNT od.
Proof.
  unfold row_of, add_sale.
  destruct (first_match OrderLine.ORDER_ID _ _) as [od |] eqn:Eod; [| left; reflexivity].
  destruct (first_match Customer.CUSTOMER_ID _ _); [| left; reflexivity].
  destruct (first_match Product.PRODUCT_ID _ _); [| left; reflexivity].
  destruct (first_match Store.STORE_ID _ _); [| left; reflexivity].
  destruct (first_match Employee.EMPLOYEE_ID _ _); [| left; reflexivity].
  right. eexists. exists od. split; [reflexivity |].
  split; [apply first_match_line; exact Eod |].
  cbn. repeat split.
Qed.

Lemma sales_rows_origin customers products stores employees orders order_details r :
  In r (build_sales_data customers products stores employees orders order_details) ->
  exists o od,
    In o orders /\
    Sale.ORDER_ID r = Order.ORDER_ID o /\
    first_line_of order_details (Order.ORDER_ID o) od /\
    Sale.PRODUCT_ID r = OrderLine.PRODUCT_ID od /\
    Sale.QUANTITY_ORDERED r = OrderLine.QUANTITY_ORDERED od /\
    Sale.UNIT_PRICE r = OrderLine.UNIT_PRICE od /\
    Sale.DISCOUNT_PERCENT r = OrderLine.DISCOUNT_PERCENT od /\
    Sale.TOTAL_AMOUNT r = OrderLine.TOTAL_LINE_AMOUNT od.
Proof.
  rewrite build_sales_data_rows. intros H. apply in_flat_map in H.
  destruct H as (o & Ho & Hr).
  destruct (row_of_cases customers products stores employees order_details o)
    as [E | (r' & od & E & Hfirst & Hid & Hrest)]; rewrite E in Hr.
  - destruct Hr.
  - destruct Hr as [<- | []]. exists o, od. auto.
Qed.

Lemma sales_rows_count customers products stores employees orders order_details :
  NoDup (map Order.ORDER_ID orders) ->
  forall k,
    (length (filter (fun r => (Sale.ORDER_ID r =? k)%Z)
               (build_sales_data customers products stores employees orders order_details))
     <= 1)%nat.
Proof.
  rewrite build_sales_data_rows. intros Hnd k.
  induction orders as [| o orders IH]; cbn [flat_map filter length]; [lia |].
  cbn [map] in Hnd. inversion Hnd as [| ? ? Hnotin Hnd']; subst.
  rewrite filter_app, length_app. specialize (IH Hnd').
  destruct (row_of_cases customers products stores employees order_details o)
    as [E | (r & od & E & _ & Hid & _)]; rewrite E.
  - cbn [filter length]. lia.
  - cbn [filter]. destruct (Z.eqb_spec (Sale.ORDER_ID r) k) as [Ek | Ek];
      [| cbn [length]; lia].
    rewrite filter_none; [cbn [length]; lia |].
    apply Forall_forall. intros r' Hr'. apply Z.eqb_neq. intros Er'.
    apply Hnotin. apply in_flat_map in Hr'. destruct Hr' as (o' & Ho' & Hr').
    destruct (row_of_cases customers products stores employees order_details o')
      as [E' | (r2 & od2 & E' & _ & Hid' & _)]; rewrite E' in Hr'; [destruct Hr' |].
    destruct Hr' as [<- | []].
    replace (Order.ORDER_ID o) with (Order.ORDER_ID o') by congruence.
    apply in_map. exact Ho'.
Qed.

Lemma ensures_generate_all_data (today a b c d e : Z) :
  ensures (fun data =>
             orders_built (Data.customers data) (Data.stores data)
               (Data.employees data) (Data.products data)
               (range 1 (e + 1)) (Data.orders data) (Data.order_details data) /\
             Data.sales_data data =
               build_sales_data (Data.customers data) (Data.products data)
                 (Data.stores data) (Data.employees data)
                 (Data.orders data) (Data.order_details data))
          (generate_all_data today a b c d e).
Proof.
  unfold generate_all_data.
  do 4 (apply ensures_bind_any; intros ?).
  apply ensures_bind_any. intros [employees stores].
  eapply ensures_bind; [apply ensures_generate_orders |].
  intros [orders details] Hb. apply ensures_ret. cbn [fst snd] in Hb.
  split; [exact Hb | reflexivity].
Qed.

(** ** Runs that end in an exception *)

Lemma raises_bind_l {A B} (e : exn) (c : M A) (k : A -> M B) :
  raises e c -> raises e (bind c k).
Proof. intros H g. unfold bind. rewrite (H g). reflexivity. Qed.

Lemma raises_bind_r {A B} (P : A -> Prop) (e : exn) (c : M A) (k : A -> M B) :
  returns P c -> (forall a, P a -> raises e (k a)) -> raises e (bind c k).
Proof.
  intros Hc Hk g. destruct (Hc g) as (a & g1 & E & Pa).
  unfold bind. rewrite E. apply Hk. exact Pa.
Qed.

Lemma range_cons (a b : Z) : (a < b)%Z -> range a b = a :: range (a + 1) b.
Proof.
  intros H. rewrite (range_app a (a + 1) b) by lia.
  replace (range a (a + 1)) with [a]; [reflexivity |].
  rewrite range_snoc, range_nil by lia. reflexivity.
Qed.

Ltac rstep :=
  lazymatch goal with
  | |- raises _ (bind (choice []) _) => apply raises_bind_l; intros ?; reflexivity
  | |- raises _ (bind (choice _) _) =>
      eapply raises_bind_r; [apply returns_choice; discriminate | intros ? ?]
  | |- raises _ (bind (randint _ _) _) =>
      eapply raises_bind_r; [apply returns_randint; lia | intros ? ?]
  | |- raises _ (bind random_random _) =>
      eapply raises_bind_r; [apply returns_random | intros ? ?]
  | |- raises _ (bind gen_phone _) =>
      eapply raises_bind_r; [apply returns_gen_phone | intros ? ?]
  end.

(** with no store to choose from, the first employee is never built *)
Lemma raises_new_employee_no_store (today i : Z) :
  raises IndexError (new_employee today [] i).
Proof. unfold new_employee. repeat rstep. Qed.

Lemma store_pass_no_employees (stores done : list Store.t) (g : rng) :
  foldM (assign_store_manager []) done stores g = Ok (done ++ stores, g).
Proof.
  revert done. induction stores as [| s stores IH]; intros done; cbn [foldM].
  - rewrite app_nil_r. reflexivity.
  - unfold bind. cbn [assign_store_manager filter ret].
    rewrite IH, <- app_assoc. reflexivity.
Qed.

(** an order for a store without employees is never built *)
Lemma raises_new_order_no_employee (today : Z) (customers : list Customer.t)
    (stores : list Store.t) (employees : list Employee.t) (products : list Product.t)
    (st : list Order.t * list OrderLine.t) (i : Z) :
  customers <> [] -> stores <> [] ->
  (forall s, In s stores ->
     filter (fun e => (Employee.STORE_ID e =? Store.STORE_ID s)%Z) employees = []) ->
  raises IndexError (new_order today customers stores employees products st i).
Proof.
  intros Hc Hs Hnone. unfold new_order. destruct st as [orders details].
  eapply raises_bind_r; [apply returns_choice; exact Hc | intros customer _].
  eapply raises_bind_r; [apply returns_choice; exact Hs | intros store Hstore].
  rewrite (Hnone store Hstore). apply raises_bind_l. intros g. reflexivity.
Qed.

(** ** Products *)

Lemma returns_new_product (i : Z) :
  returns (fun p => Product.PRODUCT_ID p = i /\ price_ok p) (new_product i).
Proof.
  unfold new_product.
  eapply returns_bind; [apply returns_choice; discriminate |].
  intros category Hc. split_in Hc; cbn [fst snd]; repeat mstep.
  all: cbv beta in *;
    repeat match goal with
           | H : exists _, _ |- _ => destruct H as (? & ? & ? & ?)
           end; subst;
    unfold price_ok; cbn [Product.PRODUCT_ID Product.UNIT_PRICE Product.UNIT_COST Product.MSRP];
    split; [reflexivity |];
    split; [assumption |];
    split; [apply unit_cost_below_price; assumption
           | apply price_below_msrp; assumption].
Qed.

Lemma returns_generate_products (n : Z) :
  returns (fun ps => map Product.PRODUCT_ID ps = range 1 (n + 1) /\ Forall price_ok ps)
          (generate_products n).
Proof.
  unfold generate_products.
  apply (returns_loop
           (fun done ps => map Product.PRODUCT_ID ps = done /\ Forall price_ok ps)).
  - split; [reflexivity | constructor].
  - intros done i ps [Hids Hok].
    eapply returns_bind; [apply returns_new_product |].
    intros p [Hp Hpok]. apply returns_ret. split.
    + rewrite map_app, Hids. cbn [map]. rewrite Hp. reflexivity.
    + apply Forall_app. split; [exact Hok | constructor; [exact Hpok | constructor]].
Qed.

(** ** Order amounts *)

Lemma draw_bounds (d : draw) :
  draw_ok d -> price_in_range (draw_product d) ->
  (0 <= draw_amount d /\ draw_amount d <= 250001 # 1) /\
  (0 <= draw_discount d /\ draw_discount d <= 52501 # 1).
Proof.
  destruct d as [[p q] f]. unfold draw_ok, price_in_range, draw_product.
  cbn [fst snd]. intros [Hq Hf] Hp.
  destruct (discount_fraction_range f Hf) as [Hf0 Hf1].
  assert (Hcap : float_lit (2 # 10) <= 21 # 100) by qcompute.
  assert (Hg : (0 <= Product.UNIT_PRICE p * q <= 250000)%Z) by nia.
  unfold draw_amount, draw_discount.
  set (gross := (Product.UNIT_PRICE p * q)%Z) in *.
  destruct (float_of_int_range gross) as (HG0 & _ & HGu); [lia |].
  destruct Hg as [_ Hg]. rewrite Zle_Qle in Hg.
  change (inject_Z 250000) with (250000 # 1) in Hg.
  set (G := float_of_int gross) in *. unfold eps in *.
  unfold fsub, fmul.
  assert (Hw0 : 0 <= RN (1 - f)) by (apply RN_nonneg; lra).
  destruct (RN_err21 (1 - f)) as [_ Hw1]; [split; lra |]. unfold eps in *.
  assert (Ha0 : 0 <= G * RN (1 - f)) by (apply Qmult_le_0_compat; assumption).
  assert (Ha1 : G * RN (1 - f) <= ((250000 # 1) + (1 # 4294967296)) * (1 + (1 # 4294967296)))
    by (apply Qmult_le_mono; lra).
  assert (Hd0 : 0 <= G * f) by (apply Qmult_le_0_compat; assumption).
  assert (Hd1 : G * f <= ((250000 # 1) + (1 # 4294967296)) * (21 # 100))
    by (apply Qmult_le_mono; lra).
  destruct (RN_err21 (G * RN (1 - f))) as [_ Ha]; [split; lra |].
  destruct (RN_err21 (G * f)) as [_ Hd]; [split; lra |]. unfold eps in *.
  split; (split; [apply RN_nonneg; assumption | lra]).
Qed.

Lemma fsum_bound (B : Q) (l : list Q) :
  0 <= B -> Forall (fun x => 0 <= x /\ x <= B) l ->
  forall acc,
    0 <= acc ->
    acc + inject_Z (Z.of_nat (length l)) * (B + 1) <= 2097152 # 1 ->
    0 <= fsum_from acc l /\
    fsum_from acc l <= acc + inject_Z (Z.of_nat (length l)) * (B + 1).
Proof.
  intros HB H. induction H as [| x l [Hx0 Hx1] _ IH]; intros acc Hacc Hcap.
  - unfold fsum_from. cbn [fold_left length].
    change (inject_Z (Z.of_nat 0)) with 0. split; lra.
  - unfold fsum_from in *. cbn [fold_left length] in *.
    rewrite Nat2Z.inj_succ in *. unfold Z.succ in *. rewrite inject_Z_plus in *.
    change (inject_Z 1) with 1 in *.
    set (n := inject_Z (Z.of_nat (length l))) in *.
    assert (Hn : 0 <= n).
    { unfold n. change 0 with (inject_Z 0). rewrite <- Zle_Qle. lia. }
    assert (Hn' : 0 <= n * (B + 1)) by (apply Qmult_le_0_compat; lra).
    assert (Hs0 : 0 <= fadd acc x) by (apply RN_nonneg; lra).
    destruct (RN_err21 (acc + x)) as [_ Hs1]; [split; lra |].
    fold (fadd acc x) in Hs1. unfold eps in *.
    destruct (IH (fadd acc x) Hs0) as [I0 I1]; [lra |].
    split; [exact I0 | lra].
Qed.

Lemma draws_bounds (products : list Product.t) (draws : list draw) :
  Forall price_in_range products ->
  Forall draw_ok draws ->
  incl (map draw_product draws) products ->
  (length draws <= 5)%nat ->
  (0 <= subtotal draws /\ subtotal draws <= 1250010 # 1) /\
  (0 <= discounts draws /\ discounts draws <= 262510 # 1).
Proof.
  intros Hp Hok Hincl Hlen.
  assert (Hb : Forall (fun d => (0 <= draw_amount d /\ draw_amount d <= 250001 # 1) /\
                                (0 <= draw_discount d /\ draw_discount d <= 52501 # 1)) draws).
  { rewrite Forall_forall in *. intros d Hd. apply draw_bounds; [apply Hok; exact Hd |].
    apply Hp, Hincl, in_map, Hd. }
  assert (Hn : inject_Z (Z.of_nat (length draws)) <= 5).
  { change 5 with (inject_Z 5). rewrite <- Zle_Qle. lia. }
  assert (Hn0 : 0 <= inject_Z (Z.of_nat (length draws))).
  { change 0 with (inject_Z 0). rewrite <- Zle_Qle. lia. }
  split.
  - destruct (fsum_bound (250001 # 1) (map draw_amount draws)) with (acc := 0) as [H0 H1].
    + discriminate.
    + apply Forall_map. eapply Forall_impl; [| exact Hb]. intros d [H _]. exact H.
    + apply Qle_refl.
    + rewrite length_map. lra.
    + rewrite length_map in H1. unfold subtotal. split; [exact H0 | lra].
  - destruct (fsum_bound (52501 # 1) (map draw_discount draws)) with (acc := 0) as [H0 H1].
    + discriminate.
    + apply Forall_map. eapply Forall_impl; [| exact Hb]. intros d [_ H]. exact H.
    + apply Qle_refl.
    + rewrite length_map. lra.
    + rewrite length_map in H1. unfold discounts. split; [exact H0 | lra].
Qed.

(** two amounts that differ by less than [n] cents round to values at most
    [n] cents apart, up to the error of reading the decimals back *)
Lemma round2_close_le (x y delta : Q) (n : Z) :
  - (2097151 # 1) <= x -> x <= 2097151 # 1 ->
  - (2097151 # 1) <= y -> y <= 2097151 # 1 ->
  x - y <= delta -> delta * 100 < inject_Z n ->
  round2 x - round2 y <= inject_Z n / 100 + 2 * eps.
Proof.
  intros Hxl Hxu Hyl Hyu Hd Hn.
  destruct (round_half_even_err (x * 100)) as [_ Kx].
  destruct (round_half_even_err (y * 100)) as [Ky _].
  destruct (cents_err x) as [Cxl Cxu]. destruct (cents_err y) as [Cyl Cyu].
  unfold round2.
  set (k1 := round_half_even (x * 100)) in *.
  set (k2 := round_half_even (y * 100)) in *.
  assert (Hk : (k1 - k2 <= n)%Z).
  { assert (H : (k1 - k2 < n + 1)%Z); [| lia].
    unfold Z.sub. rewrite Zlt_Qlt, !inject_Z_plus, inject_Z_opp.
    change (inject_Z 1) with 1. lra. }
  unfold Z.sub in Hk. rewrite Zle_Qle, inject_Z_plus, inject_Z_opp in Hk.
  assert (E1 : inject_Z k1 / 100 == inject_Z k1 * (1 # 100)) by reflexivity.
  assert (E2 : inject_Z k2 / 100 == inject_Z k2 * (1 # 100)) by reflexivity.
  assert (E3 : inject_Z n / 100 == inject_Z n * (1 # 100)) by reflexivity.
  destruct (RN_err21 (inject_Z k1 / 100)) as [_ R1]; [split; lra |].
  destruct (RN_err21 (inject_Z k2 / 100)) as [R2 _]; [split; lra |].
  lra.
Qed.

Lemma round2_close (x y delta : Q) (n : Z) :
  - (2097151 # 1) <= x -> x <= 2097151 # 1 ->
  - (2097151 # 1) <= y -> y <= 2097151 # 1 ->
  x - y <= delta -> y - x <= delta -> delta * 100 < inject_Z n ->
  Qabs (round2 x - round2 y) <= inject_Z n / 100 + 2 * eps.
Proof.
  intros Hxl Hxu Hyl Hyu Hd Hd' Hn.
  assert (A := round2_close_le x y delta n Hxl Hxu Hyl Hyu Hd Hn).
  assert (B := round2_close_le y x delta n Hyl Hyu Hxl Hxu Hd' Hn).
  apply Qabs_Qle_condition. split; lra.
Qed.

Lemma final_amount_close (T D : Q) (S : Z) :
  0 <= T -> T <= 1250010 # 1 -> 0 <= D -> D <= 262510 # 1 -> (0 <= S <= 500)%Z ->
  Qabs (round2 (final_of T D S) - stated_final T D (tax_of T) S)
    <= (1 # 100) + (1 # 1000000) /\
  Qabs (round2 (final_of T D S) -
        stated_final (round2 T) (round2 D) (round2 (tax_of T)) S)
    <= (2 # 100) + (1 # 1000000).
Proof.
  intros HT0 HT1 HD0 HD1 HS.
  destruct (float_of_int_range S) as (HS0 & _ & HSu); [lia |].
  destruct HS as [_ HS]. rewrite Zle_Qle in HS. change (inject_Z 500) with (500 # 1) in HS.
  set (Sf := float_of_int S) in *.
  assert (Hc0 : 0 <= float_lit (15 # 100)) by qcompute.
  assert (Hc1 : float_lit (15 # 100) <= 16 # 100) by qcompute.
  unfold stated_final, final_of, tax_of, fadd, fsub, fmul. fold Sf.
  set (c := float_lit (15 # 100)) in *.
  assert (HX0 : 0 <= T * c) by (apply Qmult_le_0_compat; assumption).
  assert (HX1 : T * c <= (1250010 # 1) * (16 # 100)) by (apply Qmult_le_mono; assumption).
  assert (HXn : 0 <= RN (T * c)) by (apply RN_nonneg; exact HX0).
  destruct (RN_err21 (T * c)) as [_ HXu]; [split; lra |].
  set (X := RN (T * c)) in *. unfold eps in *.
  (* the code: ((T + X) + S) - D *)
  destruct (RN_err21 (T + X)) as [A1 A1']; [split; lra |].
  set (s1 := RN (T + X)) in *. unfold eps in *.
  destruct (RN_err21 (s1 + Sf)) as [A2 A2']; [split; lra |].
  set (s2 := RN (s1 + Sf)) in *. unfold eps in *.
  destruct (RN_err21 (s2 - D)) as [A3 A3']; [split; lra |].
  set (f := RN (s2 - D)) in *. unfold eps in *.
  (* the claim on the unrounded amounts: ((T - D) + X) + S *)
  destruct (RN_err21 (T - D)) as [B1 B1']; [split; lra |].
  set (t1 := RN (T - D)) in *. unfold eps in *.
  destruct (RN_err21 (t1 + X)) as [B2 B2']; [split; lra |].
  set (t2 := RN (t1 + X)) in *. unfold eps in *.
  destruct (RN_err21 (t2 + Sf)) as [B3 B3']; [split; lra |].
  set (gA := RN (t2 + Sf)) in *. unfold eps in *.
  (* the claim on the stored amounts *)
  destruct (round2_err21 T) as [RT RT']; [lra | lra |].
  destruct (round2_err21 D) as [RD RD']; [lra | lra |].
  destruct (round2_err21 X) as [RX RX']; [lra | lra |].
  set (T' := round2 T) in *. set (D' := round2 D) in *. set (X' := round2 X) in *.
  unfold eps in *.
  destruct (RN_err21 (T' - D')) as [C1 C1']; [split; lra |].
  set (u1 := RN (T' - D')) in *. unfold eps in *.
  destruct (RN_err21 (u1 + X')) as [C2 C2']; [split; lra |].
  set (u2 := RN (u1 + X')) in *. unfold eps in *.
  destruct (RN_err21 (u2 + Sf)) as [C3 C3']; [split; lra |].
  set (gB := RN (u2 + Sf)) in *. unfold eps in *.
  split.
  - eapply Qle_trans;
      [apply (round2_close f gA (6 * eps) 1); unfold eps; lra || reflexivity |].
    unfold eps. discriminate.
  - eapply Qle_trans;
      [apply (round2_close f gB ((3 # 200) + 9 * eps) 2); unfold eps; lra || reflexivity |].
    unfold eps. discriminate.
Qed.

(** ** The sample runs succeed *)

Lemma sample_run_ok :
  generate_all_data sample_today 2 2 2 2 2 (constant_tape 2) = Ok sample_run.
Proof. vm_compute. reflexivity. Qed.

Lemma sample_staff_ok :
  generate_employees sample_today sample_stores 1 (constant_tape 2) =
  Ok (fst (fst sample_staff), snd (fst sample_staff), snd sample_staff).
Proof. vm_compute. reflexivity. Qed.

Lemma sample_orders_ok :
  generate_orders sample_today (Data.customers (fst sample_run))
    (Data.stores (fst sample_run)) (Data.employees (fst sample_run))
    (Data.products (fst sample_run)) 2 (constant_tape 2) =
  Ok (fst (fst sample_orders), snd (fst sample_orders), snd sample_orders).
Proof. vm_compute. reflexivity. Qed.

(** * The claims *)

(** C1: for every order of [generate_orders] over a catalogue with unit
    prices between 0 and 50000, with T the float sum of the line amounts of
    that order's lines, D the float sum of their discounts and X = 0.15 * T:
    the stored TOTAL_AMOUNT, TAX_AMOUNT and DISCOUNT_AMOUNT are T, X and D
    rounded to two decimals, the stored FINAL_AMOUNT is
    round(T + X + SHIPPING_COST - D, 2), and it differs from
    round(T - D + X + SHIPPING_COST, 2) by at most one cent and from the
    same expression over the stored (rounded) amounts by at most two cents,
    each up to 10^-6. *)
Theorem final_amount_reconciles
    (today : Z) (customers : list Customer.t) (stores : list Store.t)
    (employees : list Employee.t) (products : list Product.t) (n : Z) (g : rng)
    (orders : list Order.t) (details : list OrderLine.t) (g' : rng) :
  generate_orders today customers stores employees products n g =
    Ok (orders, details, g') ->
  Forall price_in_range products ->
  forall o, In o orders ->
    exists draws : list draw,
      filter (fun l => (OrderLine.ORDER_ID l =? Order.ORDER_ID o)%Z) details =
        map (draw_line (Order.ORDER_ID o)) draws /\
      Order.TOTAL_AMOUNT o = round2 (subtotal draws) /\
      Order.TAX_AMOUNT o = round2 (tax_of (subtotal draws)) /\
      Order.DISCOUNT_AMOUNT o = round2 (discounts draws) /\
      Order.FINAL_AMOUNT o =
        round2 (final_of (subtotal draws) (discounts draws) (Order.SHIPPING_COST o)) /\
      Qabs (Order.FINAL_AMOUNT o -
            stated_final (subtotal draws) (discounts draws) (tax_of (subtotal draws))
              (Order.SHIPPING_COST o))
        <= (1 # 100) + (1 # 1000000) /\
      Qabs (Order.FINAL_AMOUNT o -
            stated_final (Order.TOTAL_AMOUNT o) (Order.DISCOUNT_AMOUNT o)
              (Order.TAX_AMOUNT o) (Order.SHIPPING_COST o))
        <= (2 # 100) + (1 # 1000000).
Proof.
  intros H Hp o Ho. apply ensures_generate_orders in H. cbn [fst snd] in H.
  pose proof (built_lines_of_order _ _ _ _ _ _ _ H (range_NoDup 1 (n + 1)) o Ho) as Hspec.
  destruct Hspec as (draws & Hok & Hincl & Hlen & Hlines & _ & _ & Hship
                     & HT & HX & HD & HF & _).
  exists draws.
  destruct (draws_bounds products draws Hp Hok Hincl Hlen) as [[HT0 HT1] [HD0 HD1]].
  destruct (final_amount_close (subtotal draws) (discounts draws)
              (Order.SHIPPING_COST o) HT0 HT1 HD0 HD1 Hship) as [HA HB].
  split; [exact Hlines |]. split; [exact HT |]. split; [exact HX |].
  split; [exact HD |]. split; [exact HF |].
  rewrite HF, HT, HX, HD. split; assumption.
Qed.

Lemma final_amount_reconciles_witness :
  generate_orders sample_today (Data.customers (fst sample_run))
    (Data.stores (fst sample_run)) (Data.employees (fst sample_run))
    (Data.products (fst sample_run)) 1 (constant_tape 5559060566555522) =
    Ok (fst (fst discount_run), snd (fst discount_run), snd discount_run) /\
  Forall price_in_range (Data.products (fst sample_run)) /\
  In (hd no_order (fst (fst discount_run))) (fst (fst discount_run)) /\
  exists draws : list draw,
    let o := hd no_order (fst (fst discount_run)) in
    filter (fun l => (OrderLine.ORDER_ID l =? Order.ORDER_ID o)%Z)
           (snd (fst discount_run)) =
      map (draw_line (Order.ORDER_ID o)) draws /\
    Order.TOTAL_AMOUNT o = round2 (subtotal draws) /\
    Order.TAX_AMOUNT o = round2 (tax_of (subtotal draws)) /\
    Order.DISCOUNT_AMOUNT o = round2 (discounts draws) /\
    Order.FINAL_AMOUNT o =
      round2 (final_of (subtotal draws) (discounts draws) (Order.SHIPPING_COST o)) /\
    Qabs (Order.FINAL_AMOUNT o -
          stated_final (subtotal draws) (discounts draws) (tax_of (subtotal draws))
            (Order.SHIPPING_COST o))
      <= (1 # 100) + (1 # 1000000) /\
    Qabs (Order.FINAL_AMOUNT o -
          stated_final (Order.TOTAL_AMOUNT o) (Order.DISCOUNT_AMOUNT o)
            (Order.TAX_AMOUNT o) (Order.SHIPPING_COST o))
      <= (2 # 100) + (1 # 1000000).
Proof.
  assert (Hrun : generate_orders sample_today (Data.customers (fst sample_run))
                   (Data.stores (fst sample_run)) (Data.employees (fst sample_run))
                   (Data.products (fst sample_run)) 1 (constant_tape 5559060566555522) =
                 Ok (fst (fst discount_run), snd (fst discount_run), snd discount_run))
    by (vm_compute; reflexivity).
  assert (Hprices : Forall price_in_range (Data.products (fst sample_run)))
    by (repeat constructor; vm_compute; discriminate).
  assert (Hin : In (hd no_order (fst (fst discount_run))) (fst (fst discount_run)))
    by (left; reflexivity).
  split; [exact Hrun |]. split; [exact Hprices |]. split; [exact Hin |].
  exact (final_amount_reconciles _ _ _ _ _ _ _ _ _ _ Hrun Hprices _ Hin).
Defined.

(** C2: every employee of [generate_employees] carries the STORE_ID of a
    store of the table passed in; every order of [generate_orders] carries
    the STORE_ID of a store of its table and the EMPLOYEE_ID of an employee
    of its table whose STORE_ID is the order's STORE_ID. *)
Theorem employees_and_orders_reference_stores
    (today : Z) (stores : list Store.t) (n : Z) (g : rng)
    (emps : list Employee.t) (stores' : list Store.t) (g' : rng)
    (customers : list Customer.t) (stores2 : list Store.t)
    (employees2 : list Employee.t) (products : list Product.t) (m : Z) (g2 : rng)
    (orders : list Order.t) (details : list OrderLine.t) (g3 : rng) :
  generate_employees today stores n g = Ok (emps, stores', g') ->
  generate_orders today customers stores2 employees2 products m g2 =
    Ok (orders, details, g3) ->
  Forall (fun e => exists s, In s stores /\ Store.STORE_ID s = Employee.STORE_ID e) emps /\
  Forall (fun o =>
            (exists s, In s stores2 /\ Store.STORE_ID s = Order.STORE_ID o) /\
            exists e, In e employees2 /\
                      Employee.EMPLOYEE_ID e = Order.EMPLOYEE_ID o /\
                      Employee.STORE_ID e = Order.STORE_ID o)
         orders.
Proof.
  intros He Ho. split.
  - apply ensures_generate_employees in He. cbn [fst snd] in He.
    destruct He as (_ & Hs & _). eapply Forall_impl; [| exact Hs].
    intros e Hin. cbv beta in Hin. apply in_map_iff in Hin.
    destruct Hin as (s & Hid & Hin). exists s. auto.
  - apply ensures_generate_orders in Ho. cbn [fst snd] in Ho.
    apply built_orders in Ho. eapply Forall_impl; [| exact Ho].
    intros o (lines & draws & Hspec).
    destruct Hspec as (_ & _ & _ & _ & _ & _ & _ & _ & _ & _ & _ & _ & Hs & He').
    split; assumption.
Qed.

Lemma employees_and_orders_reference_stores_witness :
  generate_employees sample_today sample_stores 1 (constant_tape 2) =
    Ok (fst (fst sample_staff), snd (fst sample_staff), snd sample_staff) /\
  generate_orders sample_today (Data.customers (fst sample_run))
    (Data.stores (fst sample_run)) (Data.employees (fst sample_run))
    (Data.products (fst sample_run)) 2 (constant_tape 2) =
    Ok (fst (fst sample_orders), snd (fst sample_orders), snd sample_orders) /\
  Forall (fun e => exists s, In s sample_stores /\
                             Store.STORE_ID s = Employee.STORE_ID e)
         (fst (fst sample_staff)) /\
  Forall (fun o =>
            (exists s, In s (Data.stores (fst sample_run)) /\
                       Store.STORE_ID s = Order.STORE_ID o) /\
            exists e, In e (Data.employees (fst sample_run)) /\
                      Employee.EMPLOYEE_ID e = Order.EMPLOYEE_ID o /\
                      Employee.STORE_ID e = Order.STORE_ID o)
         (fst (fst sample_orders)).
Proof.
  split; [vm_compute; reflexivity |]. split; [vm_compute; reflexivity |].
  apply (employees_and_orders_reference_stores
           sample_today sample_stores 1 (constant_tape 2)
           (fst (fst sample_staff)) (snd (fst sample_staff)) (snd sample_staff)
           (Data.customers (fst sample_run)) (Data.stores (fst sample_run))
           (Data.employees (fst sample_run)) (Data.products (fst sample_run))
           2 (constant_tape 2)
           (fst (fst sample_orders)) (snd (fst sample_orders)) (snd sample_orders));
    vm_compute; reflexivity.
Defined.

(** C3: [generate_orders] has no guard for a store without employees.  On
    the sample tables (stores 1 and 2, one employee, at store 1) an order
    that selects store 2 ends in the IndexError of [random.choice].  The
    same happens inside [generate_all_data(1, 1, 2, 1, num_orders)] on a
    tape whose draws put the employee at store 1 and the order at store 2:
    with no order requested the run returns its tables, with one order it
    ends in the IndexError. *)
Theorem generate_orders_unguarded_empty_store :
  map Store.STORE_ID (snd (fst sample_staff)) = [1; 2]%Z /\
  map Employee.STORE_ID (fst (fst sample_staff)) = [1%Z] /\
  generate_orders sample_today (Data.customers (fst sample_run))
    (snd (fst sample_staff)) (fst (fst sample_staff))
    (Data.products (fst sample_run)) 1 (constant_tape 1) = Raise IndexError /\
  match generate_all_data sample_today 1 1 2 1 0 (switching_tape 71) with
  | Ok (data, _) =>
      map Store.STORE_ID (Data.stores data) = [1; 2]%Z /\
      map Employee.STORE_ID (Data.employees data) = [1%Z]
  | Raise _ => False
  end /\
  generate_all_data sample_today 1 1 2 1 1 (switching_tape 71) = Raise IndexError.
Proof.
  split; [vm_compute; reflexivity |].
  split; [vm_compute; reflexivity |].
  split; [vm_compute; reflexivity |].
  split; [vm_compute; split; reflexivity |].
  vm_compute. reflexivity.
Qed.

(** C4, as the code has it: every order line of [generate_orders] stores
    DISCOUNT_PERCENT = round(100 * d, 2) for the discount fraction d drawn
    for the line by [uniform(0, 0.2)], with 0 <= DISCOUNT_PERCENT <= 20, and
    TOTAL_LINE_AMOUNT = round(UNIT_PRICE * QUANTITY_ORDERED * (1 - d), 2),
    computed from the unrounded fraction d. *)
Theorem order_line_discount_and_total
    (today : Z) (customers : list Customer.t) (stores : list Store.t)
    (employees : list Employee.t) (products : list Product.t) (n : Z) (g : rng)
    (orders : list Order.t) (details : list OrderLine.t) (g' : rng) :
  generate_orders today customers stores employees products n g =
    Ok (orders, details, g') ->
  Forall (fun l => exists d,
            discount_fraction d /\
            OrderLine.DISCOUNT_PERCENT l = round2 (fmul d 100) /\
            0 <= OrderLine.DISCOUNT_PERCENT l /\
            OrderLine.DISCOUNT_PERCENT l <= 20 /\
            OrderLine.TOTAL_LINE_AMOUNT l =
              round2 (fmul (float_of_int
                              (OrderLine.UNIT_PRICE l * OrderLine.QUANTITY_ORDERED l))
                           (fsub 1 d)))
         details.
Proof.
  intros H. apply ensures_generate_orders in H. cbn [fst snd] in H.
  apply built_lines in H. eapply Forall_impl; [| exact H].
  intros l (i & [[p q] f] & -> & [_ Hf] & _). cbn [snd] in Hf.
  exists f. destruct (discount_percent_range f Hf) as [Hl Hu].
  unfold draw_line, draw_amount.
  cbn [OrderLine.DISCOUNT_PERCENT OrderLine.TOTAL_LINE_AMOUNT OrderLine.UNIT_PRICE
       OrderLine.QUANTITY_ORDERED].
  repeat split; assumption.
Qed.

Lemma order_line_discount_and_total_witness :
  generate_orders sample_today (Data.customers (fst sample_run))
    (Data.stores (fst sample_run)) (Data.employees (fst sample_run))
    (Data.products (fst sample_run)) 1 (constant_tape 5559060566555522) =
    Ok (fst (fst discount_run), snd (fst discount_run), snd discount_run) /\
  length (snd (fst discount_run)) = 2%nat /\
  Forall (fun l => exists d,
            discount_fraction d /\
            OrderLine.DISCOUNT_PERCENT l = round2 (fmul d 100) /\
            0 <= OrderLine.DISCOUNT_PERCENT l /\
            OrderLine.DISCOUNT_PERCENT l <= 20 /\
            OrderLine.TOTAL_LINE_AMOUNT l =
              round2 (fmul (float_of_int
                              (OrderLine.UNIT_PRICE l * OrderLine.QUANTITY_ORDERED l))
                           (fsub 1 d)))
         (snd (fst discount_run)).
Proof.
  split; [vm_compute; reflexivity |]. split; [reflexivity |].
  apply (order_line_discount_and_total
           sample_today (Data.customers (fst sample_run))
           (Data.stores (fst sample_run)) (Data.employees (fst sample_run))
           (Data.products (fst sample_run)) 1 (constant_tape 5559060566555522)
           (fst (fst discount_run)) (snd (fst discount_run)) (snd discount_run)).
  vm_compute. reflexivity.
Defined.

(** C4 as stated fails: in [discount_run] the first line has unit price
    502, quantity 3 and stored discount 12.34; its stored total is 1320.11,
    while the total recomputed from the stored fields is 1320.16. *)
Lemma line_total_not_recomputable_from_stored_percent :
  generate_orders sample_today (Data.customers (fst sample_run))
    (Data.stores (fst sample_run)) (Data.employees (fst sample_run))
    (Data.products (fst sample_run)) 1 (constant_tape 5559060566555522) =
    Ok (fst (fst discount_run), snd (fst discount_run), snd discount_run) /\
  exists l,
    In l (snd (fst discount_run)) /\
    OrderLine.UNIT_PRICE l = 502%Z /\
    OrderLine.QUANTITY_ORDERED l = 3%Z /\
    OrderLine.DISCOUNT_PERCENT l = float_lit (1234 # 100) /\
    OrderLine.TOTAL_LINE_AMOUNT l = float_lit (132011 # 100) /\
    stated_line_total l = float_lit (132016 # 100) /\
    ~ OrderLine.TOTAL_LINE_AMOUNT l == stated_line_total l.
Proof.
  split; [vm_compute; reflexivity |].
  exists (hd no_line (snd (fst discount_run))).
  split; [left; reflexivity |].
  repeat split; try (vm_compute; reflexivity).
  vm_compute. discriminate.
Qed.

(** C5 as the code has it: a count that is not positive is not rejected,
    every generator then returns an empty table (and [generate_employees]
    hands the stores back untouched) without consuming a draw;
    [generate_employees] with an empty stores table and a positive count
    ends in the IndexError of [random.choice] in its first iteration,
    with no table returned. *)
Theorem nonpositive_counts_and_empty_stores
    (today n : Z) (g : rng) :
  (n <= 0)%Z ->
  generate_customers today n g = Ok ([], g) /\
  generate_products n g = Ok ([], g) /\
  generate_stores today n g = Ok ([], g) /\
  (forall stores, generate_employees today stores n g = Ok ([], stores, g)) /\
  (forall customers stores employees products,
      generate_orders today customers stores employees products n g = Ok ([], [], g)) /\
  (forall m, (0 < m)%Z -> generate_employees today [] m g = Raise IndexError).
Proof.
  intros Hn.
  unfold generate_customers, generate_products, generate_stores, generate_orders.
  rewrite range_nil by lia. cbn [foldM].
  split; [reflexivity |]. split; [reflexivity |]. split; [reflexivity |].
  split; [| split; [reflexivity |]].
  - intros stores. unfold generate_employees. rewrite range_nil by lia.
    cbn [foldM]. unfold bind at 1. cbn [ret filter foldM]. unfold bind at 1.
    cbn [ret]. unfold bind. rewrite store_pass_no_employees. reflexivity.
  - intros m Hm. unfold generate_employees. rewrite range_cons by lia.
    cbn [foldM]. apply raises_bind_l. apply raises_bind_l. apply raises_bind_l.
    apply raises_new_employee_no_store.
Qed.

Lemma nonpositive_counts_and_empty_stores_witness :
  (0 <= 0)%Z /\
  generate_customers sample_today 0 (constant_tape 2) = Ok ([], constant_tape 2) /\
  generate_products 0 (constant_tape 2) = Ok ([], constant_tape 2) /\
  generate_stores sample_today 0 (constant_tape 2) = Ok ([], constant_tape 2) /\
  (forall stores,
      generate_employees sample_today stores 0 (constant_tape 2) =
      Ok ([], stores, constant_tape 2)) /\
  (forall customers stores employees products,
      generate_orders sample_today customers stores employees products 0 (constant_tape 2) =
      Ok ([], [], constant_tape 2)) /\
  (forall m, (0 < m)%Z ->
      generate_employees sample_today [] m (constant_tape 2) = Raise IndexError).
Proof.
  split; [discriminate |].
  apply (nonpositive_counts_and_empty_stores sample_today 0 (constant_tape 2)).
  discriminate.
Defined.

(** C5 as stated fails: a count of zero, and a negative count, and
    [generate_employees] on an empty stores table with a count of zero all
    return an empty table instead of failing. *)
Lemma nonpositive_count_not_rejected :
  generate_customers sample_today 0 (constant_tape 2) = Ok ([], constant_tape 2) /\
  generate_customers sample_today (-3) (constant_tape 2) = Ok ([], constant_tape 2) /\
  generate_employees sample_today [] 0 (constant_tape 2) = Ok ([], [], constant_tape 2).
Proof. repeat split. Qed.

(** C6: in the [sales_data] view built by [generate_all_data] every order
    has at most one row; each row belongs to an order of the orders table
    and takes PRODUCT_ID, QUANTITY_ORDERED, UNIT_PRICE, DISCOUNT_PERCENT and
    TOTAL_AMOUNT from the first entry of [order_details] that carries the
    order's ORDER_ID, so the further lines of the order have no row. *)
Theorem sales_data_first_line_only
    (today a b c d e : Z) (g : rng) (data : Data.t) (g' : rng) :
  generate_all_data today a b c d e g = Ok (data, g') ->
  (forall o, In o (Data.orders data) ->
     (length (filter (fun r => (Sale.ORDER_ID r =? Order.ORDER_ID o)%Z)
                (Data.sales_data data)) <= 1)%nat) /\
  (forall r, In r (Data.sales_data data) ->
     exists o od,
       In o (Data.orders data) /\
       Sale.ORDER_ID r = Order.ORDER_ID o /\
       first_line_of (Data.order_details data) (Order.ORDER_ID o) od /\
       Sale.PRODUCT_ID r = OrderLine.PRODUCT_ID od /\
       Sale.QUANTITY_ORDERED r = OrderLine.QUANTITY_ORDERED od /\
       Sale.UNIT_PRICE r = OrderLine.UNIT_PRICE od /\
       Sale.DISCOUNT_PERCENT r = OrderLine.DISCOUNT_PERCENT od /\
       Sale.TOTAL_AMOUNT r = OrderLine.TOTAL_LINE_AMOUNT od).
Proof.
  intros H. apply ensures_generate_all_data in H. destruct H as [Hb Hs].
  rewrite Hs. split.
  - intros o _. apply sales_rows_count.
    destruct (built_ids _ _ _ _ _ _ _ Hb) as [-> _]. apply range_NoDup.
  - intros r Hr. apply sales_rows_origin in Hr. exact Hr.
Qed.

Lemma sales_data_first_line_only_witness :
  generate_all_data sample_today 2 2 2 2 2 (constant_tape 2) =
    Ok (fst sample_run, snd sample_run) /\
  length (Data.order_details (fst sample_run)) = 4%nat /\
  length (Data.sales_data (fst sample_run)) = 2%nat /\
  (forall o, In o (Data.orders (fst sample_run)) ->
     (length (filter (fun r => (Sale.ORDER_ID r =? Order.ORDER_ID o)%Z)
                (Data.sales_data (fst sample_run))) <= 1)%nat) /\
  (forall r, In r (Data.sales_data (fst sample_run)) ->
     exists o od,
       In o (Data.orders (fst sample_run)) /\
       Sale.ORDER_ID r = Order.ORDER_ID o /\
       first_line_of (Data.order_details (fst sample_run)) (Order.ORDER_ID o) od /\
       Sale.PRODUCT_ID r = OrderLine.PRODUCT_ID od /\
       Sale.QUANTITY_ORDERED r = OrderLine.QUANTITY_ORDERED od /\
       Sale.UNIT_PRICE r = OrderLine.UNIT_PRICE od /\
       Sale.DISCOUNT_PERCENT r = OrderLine.DISCOUNT_PERCENT od /\
       Sale.TOTAL_AMOUNT r = OrderLine.TOTAL_LINE_AMOUNT od).
Proof.
  split; [vm_compute; reflexivity |].
  split; [vm_compute; reflexivity |].
  split; [vm_compute; reflexivity |].
  apply (sales_data_first_line_only sample_today 2 2 2 2 2 (constant_tape 2)
           (fst sample_run) (snd sample_run)).
  vm_compute. reflexivity.
Defined.

(** C7: for every positive N, [generate_customers(N)] returns exactly N
    customers whose CUSTOMER_ID values are 1, 2, ..., N in this order (so
    every integer of 1..N is used, and none twice); the ADDRESS_ID values
    assigned by [generate_customer_addresses] count up from 1 without a
    gap. *)
Theorem generate_customers_sequential_ids (today n : Z) (g : rng) :
  (0 < n)%Z ->
  (exists cs g',
      generate_customers today n g = Ok (cs, g') /\
      Z.of_nat (length cs) = n /\
      map Customer.CUSTOMER_ID cs = range 1 (n + 1) /\
      (forall i, In i (map Customer.CUSTOMER_ID cs) <-> (1 <= i <= n)%Z) /\
      NoDup (map Customer.CUSTOMER_ID cs)) /\
  (forall customers, exists addrs g',
      generate_customer_addresses customers g = Ok (addrs, g') /\
      map Address.ADDRESS_ID addrs = range 1 (1 + Z.of_nat (length addrs))).
Proof.
  intros Hn. split.
  - destruct (returns_generate_customers today n g) as (cs & g' & E & Hids & _).
    exists cs, g'. split; [exact E |]. split; [| split; [exact Hids | split]].
    + rewrite <- (length_map Customer.CUSTOMER_ID), Hids, range_length. lia.
    + intros i. rewrite Hids, range_In. lia.
    + rewrite Hids. apply range_NoDup.
  - intros customers.
    destruct (returns_generate_customer_addresses customers g) as (addrs & g' & E & Hd & _).
    exists addrs, g'. split; [exact E |].
    unfold dense_from in Hd. rewrite length_map in Hd. exact Hd.
Qed.

Lemma generate_customers_sequential_ids_witness :
  (0 < 2)%Z /\
  (exists cs g',
      generate_customers sample_today 2 (constant_tape 2) = Ok (cs, g') /\
      Z.of_nat (length cs) = 2%Z /\
      map Customer.CUSTOMER_ID cs = range 1 (2 + 1) /\
      (forall i, In i (map Customer.CUSTOMER_ID cs) <-> (1 <= i <= 2)%Z) /\
      NoDup (map Customer.CUSTOMER_ID cs)) /\
  (forall customers, exists addrs g',
      generate_customer_addresses customers (constant_tape 2) = Ok (addrs, g') /\
      map Address.ADDRESS_ID addrs = range 1 (1 + Z.of_nat (length addrs))).
Proof.
  split; [reflexivity |].
  apply (generate_customers_sequential_ids sample_today 2 (constant_tape 2)).
  reflexivity.
Defined.

(** C8: every product of [generate_products] has UNIT_COST < UNIT_PRICE and
    UNIT_PRICE <= MSRP on the stored, rounded values (the second even
    strictly); with the cost at 60-80% and the MSRP at 110-130% of a base
    price of at least 500 this holds on every run. *)
Theorem product_prices_ordered (n : Z) (g : rng) :
  exists ps g',
    generate_products n g = Ok (ps, g') /\
    Forall (fun p => Product.UNIT_COST p < inject_Z (Product.UNIT_PRICE p) /\
                     inject_Z (Product.UNIT_PRICE p) <= Product.MSRP p /\
                     inject_Z (Product.UNIT_PRICE p) < Product.MSRP p) ps.
Proof.
  destruct (returns_generate_products n g) as (ps & g' & E & _ & Hok).
  exists ps, g'. split; [exact E |].
  eapply Forall_impl; [| exact Hok].
  intros p (_ & Hc & Hm). split; [exact Hc |]. split; [apply Qlt_le_weak |]; exact Hm.
Qed.

(** C9: every customer of [generate_customers] has a birth year between
    1944 and 2006, and [generate_customer_addresses] emits one or two
    addresses for each of them, the first one marked default and no other:
    exactly one default address per customer. *)
Theorem birth_year_and_default_address (today n : Z) (g g2 : rng) :
  exists cs g1 addrs g3,
    generate_customers today n g = Ok (cs, g1) /\
    generate_customer_addresses cs g2 = Ok (addrs, g3) /\
    forall c, In c cs ->
      (1944 <= year (Customer.DATE_OF_BIRTH c) <= 2006)%Z /\
      let mine := filter (fun a => (Address.CUSTOMER_ID a =? Customer.CUSTOMER_ID c)%Z) addrs in
      (length mine = 1 \/ length mine = 2)%nat /\
      (exists a rest, mine = a :: rest /\ Address.IS_DEFAULT a = true /\
                      Forall (fun a' => Address.IS_DEFAULT a' = false) rest) /\
      length (filter Address.IS_DEFAULT mine) = 1%nat.
Proof.
  destruct (returns_generate_customers today n g) as (cs & g1 & E & Hids & Hy).
  destruct (returns_generate_customer_addresses cs g2)
    as (addrs & g3 & E' & _ & blocks & -> & Hb).
  exists cs, g1, (concat blocks), g3. split; [exact E | split; [exact E' |]].
  intros c Hc. split.
  - rewrite Forall_forall in Hy. exact (Hy c Hc).
  - assert (Hnd : NoDup (map Customer.CUSTOMER_ID cs))
      by (rewrite Hids; apply range_NoDup).
    pose proof (addresses_of_customer_block cs blocks Hnd Hb c Hc) as Hblk.
    cbv zeta. split; [exact (proj1 Hblk) | split].
    + exact (proj2 (proj2 Hblk)).
    + exact (address_block_one_default c _ Hblk).
Qed.

(** C10: every order of [generate_orders] has SHIPPING_ADDRESS_ID unset,
    and the orders table returned by [generate_all_data] still has it unset
    for every order: no pass fills it in. *)
Theorem shipping_address_never_set
    (today : Z) (customers : list Customer.t) (stores : list Store.t)
    (employees : list Employee.t) (products : list Product.t) (n : Z) (g : rng)
    (orders : list Order.t) (details : list OrderLine.t) (g' : rng)
    (a b c d e : Z) (g2 : rng) (data : Data.t) (g3 : rng) :
  generate_orders today customers stores employees products n g =
    Ok (orders, details, g') ->
  generate_all_data today a b c d e g2 = Ok (data, g3) ->
  Forall (fun o => Order.SHIPPING_ADDRESS_ID o = None) orders /\
  Forall (fun o => Order.SHIPPING_ADDRESS_ID o = None) (Data.orders data).
Proof.
  assert (Hb : forall cs ss es ps ids os ds,
             orders_built cs ss es ps ids os ds ->
             Forall (fun o => Order.SHIPPING_ADDRESS_ID o = None) os).
  { intros cs ss es ps ids os ds H. apply built_orders in H.
    eapply Forall_impl; [| exact H]. intros o (lines & draws & Hspec).
    destruct Hspec as (_ & _ & _ & _ & _ & Hnone & _). exact Hnone. }
  intros Ho Hd. split.
  - apply ensures_generate_orders in Ho. exact (Hb _ _ _ _ _ _ _ Ho).
  - apply ensures_generate_all_data in Hd. destruct Hd as [Hd _].
    exact (Hb _ _ _ _ _ _ _ Hd).
Qed.

Lemma shipping_address_never_set_witness :
  generate_orders sample_today (Data.customers (fst sample_run))
    (Data.stores (fst sample_run)) (Data.employees (fst sample_run))
    (Data.products (fst sample_run)) 2 (constant_tape 2) =
    Ok (fst (fst sample_orders), snd (fst sample_orders), snd sample_orders) /\
  generate_all_data sample_today 2 2 2 2 2 (constant_tape 2) =
    Ok (fst sample_run, snd sample_run) /\
  Forall (fun o => Order.SHIPPING_ADDRESS_ID o = None) (fst (fst sample_orders)) /\
  Forall (fun o => Order.SHIPPING_ADDRESS_ID o = None) (Data.orders (fst sample_run)).
Proof.
  split; [vm_compute; reflexivity |]. split; [vm_compute; reflexivity |].
  apply (shipping_address_never_set
           sample_today (Data.customers (fst sample_run))
           (Data.stores (fst sample_run)) (Data.employees (fst sample_run))
           (Data.products (fst sample_run)) 2 (constant_tape 2)
           (fst (fst sample_orders)) (snd (fst sample_orders)) (snd sample_orders)
           2 2 2 2 2 (constant_tape 2) (fst sample_run) (snd sample_run));
    vm_compute; reflexivity.
Defined.

(** * Profiles, links and amounts: supporting lemmas *)

Lemma returns_conj {A} (P Q : A -> Prop) (c : M A) :
  returns P c -> ensures Q c -> returns (fun a => P a /\ Q a) c.
Proof.
  intros HP HQ g. destruct (HP g) as (a & g' & E & Pa).
  exists a, g'. split; [exact E |]. split; [exact Pa | exact (HQ g a g' E)].
Qed.

Lemma ensures_conj {A} (P Q : A -> Prop) (c : M A) :
  ensures P c -> ensures Q c -> ensures (fun a => P a /\ Q a) c.
Proof. intros HP HQ g a g' E. split; [exact (HP g a g' E) | exact (HQ g a g' E)]. Qed.

Lemma returns_new_customer_profile (today i : Z) :
  returns (customer_profile_ok today) (new_customer today i).
Proof.
  unfold new_customer.
  eapply returns_bind; [apply returns_choice; discriminate | intros first_name Hf].
  eapply returns_bind; [apply returns_choice; discriminate | intros last_name Hl].
  eapply returns_bind; [apply returns_choice; discriminate | intros domain Hd].
  eapply returns_bind; [apply returns_gen_phone | intros phone _].
  eapply returns_bind; [apply returns_randint; lia | intros birth_year Hy].
  eapply returns_bind; [apply returns_randint; lia | intros birth_month Hm].
  eapply returns_bind; [apply returns_randint; lia | intros birth_day Hday].
  eapply returns_bind; [apply returns_randint; lia | intros reg_days Hr].
  eapply returns_bind;
    [apply returns_choices1; [discriminate | vm_compute; reflexivity] | intros segment Hs].
  cbv beta in *.
  assert (Hfinish : forall income,
             income_band segment income ->
             returns (customer_profile_ok today)
               (gender <- choice genders ;;
                marital_status <- choice marital_statuses ;;
                education_level <- choice education_levels ;;
                is_active <- choice mostly_true ;;
                ret (Customer.mk i first_name last_name
                       (lower first_name ++ "." ++ lower last_name ++ "@" ++ domain)%string
                       phone (mkDate birth_year birth_month birth_day) gender
                       marital_status education_level income segment
                       (today - reg_days)%Z is_active))).
  { intros income Hband. repeat mstep. unfold customer_profile_ok.
    cbn [Customer.CUSTOMER_SEGMENT Customer.ANNUAL_INCOME Customer.DATE_OF_BIRTH
         Customer.REGISTRATION_DATE Customer.FIRST_NAME Customer.LAST_NAME
         Customer.EMAIL month day].
    repeat (split; [first [assumption | lia] |]).
    exists domain. split; [assumption | reflexivity]. }
  unfold customer_segments in Hs. split_in Hs.
  - eapply returns_bind; [apply returns_randint; lia | intros income Hi].
    apply Hfinish. left. split; [reflexivity | exact Hi].
  - eapply returns_bind; [apply returns_randint; lia | intros income Hi].
    apply Hfinish. right. right. left. split; [reflexivity | exact Hi].
  - eapply returns_bind; [apply returns_randint; lia | intros income Hi].
    apply Hfinish. right. right. right. split; [reflexivity | exact Hi].
  - eapply returns_bind; [apply returns_randint; lia | intros income Hi].
    apply Hfinish. right. left. split; [reflexivity | exact Hi].
Qed.

Lemma ensures_gen_locality :
  ensures (fun pc => locality_ok (fst pc) (snd pc)) gen_locality.
Proof.
  unfold gen_locality.
  eapply ensures_bind; [apply ensures_choice | intros [province cities] He].
  eapply ensures_bind; [apply ensures_choice | intros city Hc].
  apply ensures_ret. cbn [fst snd] in *. exists cities. split; assumption.
Qed.

Lemma ensures_new_address_detail (c : Customer.t) (addresses : list Address.t)
    (address_id i : Z) :
  ensures (fun st => exists a, fst st = addresses ++ [a] /\ address_detail_ok a)
          (new_address c (addresses, address_id) i).
Proof.
  unfold new_address.
  eapply ensures_bind; [apply ensures_gen_locality | intros [province city] Hloc].
  repeat estep. cbn [fst snd] in *.
  eexists. split; [reflexivity |]. unfold address_detail_ok.
  cbn [Address.PROVINCE Address.CITY Address.IS_DEFAULT Address.ADDRESS_TYPE Address.COUNTRY].
  split; [exact Hloc |]. split; [| reflexivity].
  destruct (i =? 0)%Z; [left | right]; split; reflexivity.
Qed.

Lemma ensures_addresses_detail (customers : list Customer.t) :
  ensures (Forall address_detail_ok) (generate_customer_addresses customers).
Proof.
  unfold generate_customer_addresses.
  eapply ensures_bind; [| intros st H; apply ensures_ret; exact H].
  apply (ensures_loop (fun _ (st : list Address.t * Z) => Forall address_detail_ok (fst st))).
  - constructor.
  - intros done c [addresses address_id] _ Hinv. cbn [fst] in Hinv.
    unfold addresses_of_customer. apply ensures_bind_any. intros num.
    apply (ensures_loop (fun _ (st : list Address.t * Z) => Forall address_detail_ok (fst st))).
    + exact Hinv.
    + intros done' i [addrs aid] _ Hinv'. cbn [fst] in Hinv'.
      eapply ensures_weaken; [apply ensures_new_address_detail |].
      intros st (a & -> & Ha). apply Forall_app. split; [exact Hinv' |].
      constructor; [exact Ha | constructor].
Qed.

Lemma ensures_new_product_catalog (i : Z) :
  ensures product_catalog_ok (new_product i).
Proof.
  unfold new_product.
  eapply ensures_bind; [apply ensures_choice | intros [cid [name brands]] Hc].
  eapply ensures_bind; [apply ensures_choice | intros brand Hb].
  cbn [fst snd] in *.
  apply ensures_bind_any. intros product_name.
  repeat estep.
  all: exists name, brands; split; assumption.
Qed.

Lemma ensures_products_catalog (n : Z) :
  ensures (Forall product_catalog_ok) (generate_products n).
Proof.
  unfold generate_products.
  apply (ensures_loop (fun _ ps => Forall product_catalog_ok ps)).
  - constructor.
  - intros done i ps _ Hinv.
    eapply ensures_bind; [apply ensures_new_product_catalog |].
    intros p Hp. apply ensures_ret. apply Forall_app. split; [exact Hinv |].
    constructor; [exact Hp | constructor].
Qed.

Lemma returns_new_store (today i : Z) :
  returns (fun s => Store.STORE_ID s = i) (new_store today i).
Proof.
  unfold new_store. repeat mstep'. reflexivity.
Qed.

Lemma ensures_new_store_profile (today i : Z) :
  ensures (store_profile_ok today) (new_store today i).
Proof.
  unfold new_store.
  eapply ensures_bind; [apply ensures_gen_locality | intros [province city] Hloc].
  do 4 estep.
  apply ensures_bind_any. intros phone.
  eapply ensures_bind; [apply ensures_randint | intros open_days Hopen].
  estep.
  eapply ensures_bind; [apply ensures_choice | intros store_type Htype].
  estep. estep. cbv beta in *. cbn [fst snd] in *.
  unfold store_profile_ok.
  cbn [Store.MANAGER_ID Store.PROVINCE Store.CITY Store.OPENING_DATE Store.STORE_CODE
       Store.STORE_ID Store.STORE_TYPE].
  split; [reflexivity |]. split; [exact Hloc |]. split; [lia |].
  split; [reflexivity | exact Htype].
Qed.

Lemma returns_generate_stores (today n : Z) :
  returns (fun ss => map Store.STORE_ID ss = range 1 (n + 1) /\
                     Forall (store_profile_ok today) ss)
          (generate_stores today n).
Proof.
  unfold generate_stores.
  apply (returns_loop
           (fun done ss => map Store.STORE_ID ss = done /\
                           Forall (store_profile_ok today) ss)).
  - split; [reflexivity | constructor].
  - intros done i ss [Hids Hok].
    eapply returns_bind;
      [apply (returns_conj _ _ _ (returns_new_store today i)
                (ensures_new_store_profile today i)) |].
    intros s [Hs Hsok]. apply returns_ret. split.
    + rewrite map_app, Hids. cbn [map]. rewrite Hs. reflexivity.
    + apply Forall_app. split; [exact Hok | constructor; [exact Hsok | constructor]].
Qed.

(** ** Employees: profiles and the two back-fill passes *)

Lemma ensures_new_employee_profile (today : Z) (stores : list Store.t) (i : Z) :
  ensures (fun e => Employee.MANAGER_ID e = None /\ employee_profile_ok today e)
          (new_employee today stores i).
Proof.
  unfold new_employee.
  apply ensures_bind_any. intros first_name.
  apply ensures_bind_any. intros last_name.
  apply ensures_bind_any. intros phone.
  eapply ensures_bind; [apply ensures_randint | intros hire_days Hh].
  eapply ensures_bind; [apply ensures_choice | intros job_title Ht].
  eapply ensures_bind; [apply ensures_choice | intros department Hd].
  apply ensures_bind_any. intros store. cbv beta in *.
  assert (Hfinish : forall salary,
             salary_band job_title salary ->
             ensures (fun e => Employee.MANAGER_ID e = None /\ employee_profile_ok today e)
               (is_active <- choice mostly_true ;;
                ret (Employee.mk i first_name last_name
                       (lower first_name ++ "." ++ lower last_name ++ "@company.com")%string
                       phone (today - hire_days)%Z job_title department
                       (Store.STORE_ID store) None salary is_active))).
  { intros salary Hband. estep. estep. split; [reflexivity |].
    unfold employee_profile_ok.
    cbn [Employee.JOB_TITLE Employee.SALARY Employee.DEPARTMENT Employee.HIRE_DATE].
    split; [exact Hband |]. split; [exact Hd | lia]. }
  unfold job_titles in Ht. split_in Ht.
  all: (eapply ensures_bind; [apply ensures_randint | intros salary Hs]);
    apply Hfinish; cbv beta in Hs; unfold salary_band; cbn [In]; auto 10.
Qed.

Lemma ensures_assign_manager_link (managers done : list Employee.t) (emp : Employee.t) :
  ensures (fun l => exists emp', l = done ++ [emp'] /\ managed_by managers emp emp')
          (assign_manager managers done emp).
Proof.
  unfold assign_manager. destruct (is_manager emp) eqn:Em.
  - apply ensures_ret. exists emp. split; [reflexivity | left; reflexivity].
  - estep. destruct (Qlt_le_dec _ _).
    + eapply ensures_bind; [apply ensures_choice | intros m Hm].
      apply ensures_ret. eexists. split; [reflexivity |].
      right. split; [exact Em |]. exists m. split; [exact Hm | reflexivity].
    + apply ensures_ret. exists emp. split; [reflexivity | left; reflexivity].
Qed.

Lemma ensures_assign_store_manager_link (employees : list Employee.t)
    (done : list Store.t) (store : Store.t) :
  ensures (fun l => exists store', l = done ++ [store'] /\
                                   store_managed employees store store')
          (assign_store_manager employees done store).
Proof.
  unfold assign_store_manager.
  destruct (filter _ employees) as [| e0 es] eqn:Ef.
  - apply ensures_ret. exists store. split; [reflexivity |]. left. split; [reflexivity |].
    apply Forall_forall. intros e He.
    destruct (Z.eqb_spec (Employee.STORE_ID e) (Store.STORE_ID store)) as [Es | Es];
      [| left; exact Es].
    destruct (is_manager e) eqn:Em; [| right; reflexivity].
    exfalso. assert (Hin : In e (filter (fun e => (Employee.STORE_ID e =? Store.STORE_ID store)%Z && is_manager e) employees)).
    { apply filter_In. split; [exact He |]. rewrite Em. apply andb_true_iff. split; [| reflexivity].
      apply Z.eqb_eq. exact Es. }
    rewrite Ef in Hin. destruct Hin.
  - eapply ensures_bind; [apply ensures_choice | intros m Hm].
    apply ensures_ret. eexists. split; [reflexivity |]. right. exists m.
    rewrite <- Ef in Hm. apply filter_In in Hm. destruct Hm as [Hin Hc].
    apply andb_true_iff in Hc. destruct Hc as [Hs Hmgr]. apply Z.eqb_eq in Hs.
    repeat split; assumption.
Qed.

Lemma ensures_generate_employees_links (today : Z) (stores : list Store.t) (n : Z) :
  ensures (fun r : list Employee.t * list Store.t =>
             exists es0,
               Forall (fun e => Employee.MANAGER_ID e = None /\ employee_profile_ok today e) es0 /\
               Forall2 (managed_by (filter is_manager es0)) es0 (fst r) /\
               Forall2 (store_managed (fst r)) stores (snd r))
          (generate_employees today stores n).
Proof.
  unfold generate_employees.
  eapply ensures_bind.
  { apply (ensures_loop
             (fun _ es => Forall (fun e => Employee.MANAGER_ID e = None /\
                                           employee_profile_ok today e) es)).
    - constructor.
    - intros done i es _ Hinv.
      eapply ensures_bind; [apply ensures_new_employee_profile |].
      intros e He. apply ensures_ret. apply Forall_app. split; [exact Hinv |].
      constructor; [exact He | constructor]. }
  intros es0 H0. cbv beta.
  eapply ensures_bind.
  { apply (ensures_loop (fun done es => Forall2 (managed_by (filter is_manager es0)) done es)).
    - constructor.
    - intros done emp es _ Hinv.
      eapply ensures_weaken; [apply ensures_assign_manager_link |].
      intros l (emp' & -> & Hl). apply Forall2_app; [exact Hinv |].
      constructor; [exact Hl | constructor]. }
  intros es1 H1.
  eapply ensures_bind.
  { apply (ensures_loop (fun done ss => Forall2 (store_managed es1) done ss)).
    - constructor.
    - intros done store ss _ Hinv.
      eapply ensures_weaken; [apply ensures_assign_store_manager_link |].
      intros l (store' & -> & Hl). apply Forall2_app; [exact Hinv |].
      constructor; [exact Hl | constructor]. }
  intros ss Hss. apply ensures_ret. cbn [fst snd]. exists es0. auto.
Qed.

(** ** [sample] draws without replacement *)

Lemma replace_nth_middle {A} (a b : list A) (x y : A) :
  replace_nth (length a) (a ++ x :: b) y = a ++ y :: b.
Proof.
  induction a as [| h a IH]; cbn [length app replace_nth]; [reflexivity |].
  rewrite IH. reflexivity.
Qed.

Lemma nth_middle_default {A} (a b : list A) (x d : A) :
  nth (length a) (a ++ x :: b) d = x.
Proof. apply nth_middle. Qed.

Lemma firstn_pred_snoc {A} (l : list A) (x : A) :
  firstn (length (l ++ [x]) - 1) (l ++ [x]) = l.
Proof.
  rewrite length_app. cbn [length].
  replace (length l + 1 - 1)%nat with (length l) by lia.
  rewrite firstn_app, firstn_all, Nat.sub_diag. cbn [firstn]. apply app_nil_r.
Qed.

(** one selection step: the pool loses the selected entry and keeps the rest *)
Lemma sample_step_pool {A} (pool : list A) (d : A) (j : nat) :
  NoDup pool -> (j < length pool)%nat ->
  let x := nth j pool d in
  let pool' := firstn (length pool - 1)
                 (replace_nth j pool (nth (length pool - 1) pool d)) in
  NoDup pool' /\ ~ In x pool' /\ incl pool' pool.
Proof.
  intros Hnd Hj. cbv zeta.
  destruct (exists_last (l := pool)) as (init & y & ->).
  { intros ->. cbn in Hj. lia. }
  assert (Hlen : length (init ++ [y]) = (length init + 1)%nat)
    by (rewrite length_app; reflexivity).
  assert (Hy : nth (length (init ++ [y]) - 1) (init ++ [y]) d = y).
  { rewrite Hlen. replace (length init + 1 - 1)%nat with (length init) by lia.
    apply nth_middle. }
  rewrite Hy.
  apply NoDup_remove in Hnd. rewrite app_nil_r in Hnd. destruct Hnd as [Hinit Hyn].
  rewrite Hlen in Hj.
  destruct (Nat.eq_dec j (length init)) as [-> | Hne].
  - rewrite nth_middle, replace_nth_middle, firstn_pred_snoc.
    split; [exact Hinit |]. split; [exact Hyn |].
    intros z Hz. apply in_or_app. left. exact Hz.
  - assert (Hj' : (j < length init)%nat) by lia.
    destruct (nth_split init d Hj') as (a & b & Einit & Ea).
    rewrite app_nth1 by exact Hj'.
    set (x := nth j init d) in *.
    rewrite Einit in *. clear Einit.
    rewrite <- Ea, <- app_assoc. cbn [app].
    rewrite replace_nth_middle.
    replace (a ++ y :: b ++ [y]) with ((a ++ y :: b) ++ [y])
      by (rewrite <- app_assoc; reflexivity).
    replace (length (a ++ x :: b ++ [y])) with (length ((a ++ y :: b) ++ [y]))
      by (rewrite !length_app; cbn [length]; rewrite !length_app; cbn [length]; lia).
    rewrite firstn_pred_snoc.
    assert (Hx : ~ In x a /\ ~ In x b /\ NoDup (a ++ b)).
    { apply NoDup_remove in Hinit. destruct Hinit as [Hab Hxn]. repeat split.
      - intros H. apply Hxn. apply in_or_app. left. exact H.
      - intros H. apply Hxn. apply in_or_app. right. exact H.
      - exact Hab. }
    destruct Hx as (Hxa & Hxb & Hab).
    assert (Hxy : x <> y).
    { intros E. apply Hyn. rewrite <- E. apply in_or_app. right. left. reflexivity. }
    split; [| split].
    + apply (NoDup_Add (Add_app y a b)). split; [exact Hab |]. intros H. apply Hyn.
      apply in_app_or in H. apply in_or_app.
      destruct H as [H | H]; [left; exact H | right; right; exact H].
    + intros H. apply in_app_or in H. destruct H as [H | [H | H]].
      * exact (Hxa H).
      * exact (Hxy (eq_sym H)).
      * exact (Hxb H).
    + intros z Hz. apply in_app_or in Hz. apply in_or_app.
      destruct Hz as [Hz | [<- | Hz]].
      * left. exact Hz.
      * right. right. apply in_or_app. right. left. reflexivity.
      * right. right. apply in_or_app. left. exact Hz.
Qed.

Lemma ensures_sample_pool_NoDup {A} (k : nat) :
  forall pool : list A,
    NoDup pool -> ensures (fun l => NoDup l /\ incl l pool) (sample_pool pool k).
Proof.
  induction k as [| k IH]; intros pool Hnd; cbn [sample_pool].
  - apply ensures_ret. split; [constructor | intros x []].
  - destruct pool as [| d pool0] eqn:Ep; [apply ensures_raise |].
    rewrite <- Ep in *.
    assert (Hpos : (0 < Z.of_nat (length pool))%Z) by (rewrite Ep; cbn [length]; lia).
    eapply ensures_bind; [apply returns_ensures, returns_randbelow; exact Hpos |].
    intros j Hj. cbv beta in Hj.
    destruct (sample_step_pool pool d (Z.to_nat j) Hnd) as (Hnd' & Hx & Hincl); [lia |].
    eapply ensures_bind; [apply IH; exact Hnd' |].
    intros rest [Hr Hri]. apply ensures_ret. split.
    + constructor; [| exact Hr]. intros H. apply Hx. apply Hri. exact H.
    + intros z [<- | Hz].
      * apply nth_In. lia.
      * apply Hincl, Hri, Hz.
Qed.

Lemma ensures_sample_NoDup {A} (population : list A) (k : Z) :
  NoDup population ->
  ensures (fun l => NoDup l) (sample population k).
Proof.
  intros Hnd. unfold sample. destruct (_ || _)%bool; [apply ensures_raise |].
  eapply ensures_weaken; [apply ensures_sample_pool_NoDup; exact Hnd |].
  intros l [H _]. exact H.
Qed.

Lemma NoDup_map_incl {A B} (f : A -> B) (l l' : list A) :
  NoDup (map f l) -> NoDup l' -> incl l' l -> NoDup (map f l').
Proof.
  intros Hl Hl' Hincl. induction l' as [| x l' IH]; cbn [map]; [constructor |].
  inversion Hl' as [| ? ? Hx Hnd]; subst. constructor.
  - intros H. apply in_map_iff in H. destruct H as (y & Efy & Hy).
    assert (E : y = x).
    { assert (Hyl : In y l) by (apply Hincl; right; exact Hy).
      assert (Hxl : In x l) by (apply Hincl; left; reflexivity).
      clear - Hl Efy Hyl Hxl. induction l as [| z l IHl]; [destruct Hyl |].
      cbn [map] in Hl. inversion Hl as [| ? ? Hz Hnd]; subst.
      destruct Hyl as [-> | Hyl], Hxl as [-> | Hxl].
      - reflexivity.
      - exfalso. apply Hz. rewrite Efy. apply in_map. exact Hxl.
      - exfalso. apply Hz. rewrite <- Efy. apply in_map. exact Hyl.
      - apply IHl; assumption. }
    subst y. exact (Hx Hy).
  - apply IH; [exact Hnd |]. intros z Hz. apply Hincl. right. exact Hz.
Qed.

Lemma ensures_new_order_facts (today : Z) (customers : list Customer.t)
    (stores : list Store.t) (employees : list Employee.t) (products : list Product.t)
    (orders : list Order.t) (details : list OrderLine.t) (i : Z) :
  ensures (fun st => exists o lines,
             st = (orders ++ [o], details ++ lines) /\
             order_facts today products i o lines)
          (new_order today customers stores employees products (orders, details) i).
Proof.
  unfold new_order.
  do 3 (apply ensures_bind_any; intros ?).
  eapply ensures_bind; [apply ensures_randint | intros od Hod].
  eapply ensures_bind; [apply ensures_randint | intros rd Hrd].
  apply ensures_bind_any. intros r.
  set (order_date := (today - od)%Z).
  apply (ensures_bind
           (fun ship_date : option Z =>
              match ship_date with
              | Some d => (order_date + 1 <= d <= order_date + 7)%Z
              | None => True
              end)).
  { destruct (Qlt_le_dec r (float_lit (8 # 10))).
    - eapply ensures_bind; [apply ensures_randint | intros sd Hsd]. cbv beta in Hsd.
      apply ensures_ret. lia.
    - apply ensures_ret. exact I. }
  intros ship_date Hsd.
  apply (ensures_bind
           (fun order_status : string =>
              match ship_date with
              | Some d => order_status = "Shipped"%string \/
                          (order_status = "Delivered"%string /\ (d < today)%Z)
              | None => order_status = "Pending"%string \/
                        order_status = "Processing"%string
              end)).
  { destruct ship_date as [d |].
    - destruct (d <? today)%Z eqn:Elt.
      + eapply ensures_weaken; [apply ensures_choice |]. intros s Hs. split_in Hs.
        * right. split; [reflexivity | apply Z.ltb_lt; exact Elt].
        * left. reflexivity.
      + apply ensures_ret. left. reflexivity.
    - eapply ensures_weaken; [apply ensures_choice |]. intros s Hs.
      split_in Hs; [left | right]; reflexivity. }
  intros order_status Hstatus.
  eapply ensures_bind; [apply ensures_randint | intros num_products Hn].
  eapply ensures_bind;
    [apply (ensures_conj _ _ _ (ensures_sample products _)
              (fun g l g' E => fun Hnd => ensures_sample_NoDup products _ Hnd g l g' E))
    | intros order_products [[Hincl Hlen] Hnd]].
  apply ensures_bind_any. intros shipping_cost.
  eapply ensures_bind; [apply ensures_lines_loop |].
  intros [[t d] det] (draws & Hp & Hok & E). injection E as -> -> ->.
  eapply ensures_bind; [apply ensures_choice | intros ship_method Hsm].
  eapply ensures_bind; [apply ensures_choice | intros payment_method Hpm].
  apply ensures_ret. eexists. exists (map (draw_line i) draws).
  split; [reflexivity |]. cbv beta in *.
  unfold order_facts, order_schedule_ok, order_lines_ok.
  cbn [Order.ORDER_ID Order.ORDER_DATE Order.REQUIRED_DATE Order.SHIP_DATE
       Order.ORDER_STATUS Order.PAYMENT_STATUS Order.SHIP_METHOD Order.PAYMENT_METHOD].
  split; [reflexivity |]. split.
  - split; [unfold order_date; lia |]. split; [lia |]. split; [| split; assumption].
    destruct ship_date as [d |].
    + destruct Hstatus as [-> | [-> Hlt]].
      * split; [exact Hsd |]. split; [left; reflexivity | reflexivity].
      * split; [exact Hsd |]. split; [right; split; [reflexivity | exact Hlt] | reflexivity].
    + destruct Hstatus as [-> | ->]; split; auto.
  - split; [| split].
    + exists num_products. split; [exact Hn |].
      rewrite length_map, <- (length_map draw_product), Hp. exact Hlen.
    + apply Forall_forall. intros l Hl. apply in_map_iff in Hl.
      destruct Hl as ([[p q] f] & <- & Hd).
      rewrite Forall_forall in Hok. destruct (Hok _ Hd) as [Hq _].
      cbn [fst snd] in Hq.
      cbn [draw_line OrderLine.ORDER_ID OrderLine.QUANTITY_ORDERED
           OrderLine.PRODUCT_ID OrderLine.UNIT_PRICE].
      split; [reflexivity |]. split; [exact Hq |].
      exists p. split; [| split; reflexivity].
      apply Hincl. rewrite <- Hp. apply (in_map draw_product) in Hd. exact Hd.
    + intros Hids.
      assert (Hm : map OrderLine.PRODUCT_ID (map (draw_line i) draws) =
                   map Product.PRODUCT_ID order_products).
      { rewrite <- Hp, !map_map. apply map_ext. intros [[p q] f]. reflexivity. }
      rewrite Hm. apply (NoDup_map_incl _ products); [exact Hids | | exact Hincl].
      apply Hnd. apply (NoDup_map_inv _ _ Hids).
Qed.

Lemma Forall2_In_l {A B} (R : A -> B -> Prop) (l : list A) (l' : list B) (x : A) :
  Forall2 R l l' -> In x l -> exists y, In y l' /\ R x y.
Proof.
  induction 1 as [| a b l l' Hab _ IH]; intros Hin; [destruct Hin |].
  destruct Hin as [<- | Hin].
  - exists b. split; [left; reflexivity | exact Hab].
  - destruct (IH Hin) as (y & Hy & Hxy). exists y. split; [right; exact Hy | exact Hxy].
Qed.

Lemma Forall2_In_r {A B} (R : A -> B -> Prop) (l : list A) (l' : list B) (y : B) :
  Forall2 R l l' -> In y l' -> exists x, In x l /\ R x y.
Proof.
  induction 1 as [| a b l l' Hab _ IH]; intros Hin; [destruct Hin |].
  destruct Hin as [<- | Hin].
  - exists a. split; [left; reflexivity | exact Hab].
  - destruct (IH Hin) as (x & Hx & Hxy). exists x. split; [right; exact Hx | exact Hxy].
Qed.

(** ** Customers: profile *)

Lemma returns_generate_customers_profile (today n : Z) :
  returns (Forall (customer_profile_ok today)) (generate_customers today n).
Proof.
  unfold generate_customers.
  apply (returns_loop (fun _ cs => Forall (customer_profile_ok today) cs)).
  - constructor.
  - intros done i cs Hok.
    eapply returns_bind; [apply returns_new_customer_profile |].
    intros c Hc. apply returns_ret. apply Forall_app.
    split; [exact Hok | constructor; [exact Hc | constructor]].
Qed.

(** ** Addresses *)

Lemma blocks_length (cs : list Customer.t) (blocks : list (list Address.t)) :
  Forall2 address_block cs blocks ->
  (length cs <= length (concat blocks) <= 2 * length cs)%nat.
Proof.
  induction 1 as [| c blk cs blocks (Hl & _) _ IH]; cbn [concat length]; [lia |].
  rewrite length_app. lia.
Qed.

(** ** Products *)

Lemma category_row (cid : Z) (name : string) (brands : list string) :
  In (cid, (name, brands)) product_categories ->
  exists c, In c generate_product_categories /\ Category.CATEGORY_ID c = cid /\
            Category.CATEGORY_NAME c = name.
Proof.
  intros H. unfold generate_product_categories.
  eexists. split; [apply in_map_iff; eexists; split; [reflexivity | exact H] |].
  split; reflexivity.
Qed.

(** ** Employees after the back-fill passes *)

Lemma managed_by_fields (managers : list Employee.t) (e e' : Employee.t) :
  managed_by managers e e' ->
  Employee.EMPLOYEE_ID e' = Employee.EMPLOYEE_ID e /\
  Employee.JOB_TITLE e' = Employee.JOB_TITLE e /\
  Employee.SALARY e' = Employee.SALARY e /\
  Employee.DEPARTMENT e' = Employee.DEPARTMENT e /\
  Employee.HIRE_DATE e' = Employee.HIRE_DATE e /\
  Employee.STORE_ID e' = Employee.STORE_ID e.
Proof.
  intros [-> | (_ & m & _ & ->)]; repeat split; reflexivity.
Qed.

Lemma managed_by_manager (managers : list Employee.t) (e e' : Employee.t) :
  managed_by managers e e' -> is_manager e = true -> e' = e.
Proof. intros [-> | (Hf & _)] Ht; [reflexivity | congruence]. Qed.

Lemma store_managed_id (employees : list Employee.t) (s s' : Store.t) :
  store_managed employees s s' -> Store.STORE_ID s' = Store.STORE_ID s.
Proof. intros [[-> _] | (m & _ & _ & _ & ->)]; reflexivity. Qed.

Lemma ensures_employees_profile (today : Z) (stores : list Store.t) (n : Z) :
  ensures (fun r : list Employee.t * list Store.t =>
             Forall (fun e =>
                       salary_band (Employee.JOB_TITLE e) (Employee.SALARY e) /\
                       In (Employee.DEPARTMENT e) departments /\
                       (today - 1825 <= Employee.HIRE_DATE e <= today)%Z)
                    (fst r))
          (generate_employees today stores n).
Proof.
  eapply ensures_weaken; [apply ensures_generate_employees_links |].
  intros [emps stores'] (es0 & H0 & H1 & _). cbn [fst snd] in *.
  apply Forall_forall. intros e' He'.
  destruct (Forall2_In_r _ _ _ _ H1 He') as (e & He & Hm).
  rewrite Forall_forall in H0. destruct (H0 e He) as (_ & Hband & Hdep & Hhire).
  destruct (managed_by_fields _ _ _ Hm) as (_ & -> & -> & -> & -> & _).
  split; [exact Hband | split; [exact Hdep | exact Hhire]].
Qed.

Lemma ensures_employees_manager_links (today : Z) (stores : list Store.t) (n : Z) :
  ensures (fun r : list Employee.t * list Store.t =>
             Forall (manager_link_ok (fst r)) (fst r))
          (generate_employees today stores n).
Proof.
  eapply ensures_weaken; [apply ensures_generate_employees_links |].
  intros [emps stores'] (es0 & H0 & H1 & _). cbn [fst snd] in *.
  rewrite Forall_forall in H0.
  apply Forall_forall. intros e' He'. unfold manager_link_ok.
  destruct (Forall2_In_r _ _ _ _ H1 He') as (e & He & Hm).
  destruct Hm as [-> | (Hnm & m & Hmin & ->)].
  - rewrite (proj1 (H0 e He)). exact I.
  - cbn [Employee.set_MANAGER_ID Employee.MANAGER_ID].
    split; [exact Hnm |].
    apply filter_In in Hmin. destruct Hmin as [Hmin Hmgr].
    destruct (Forall2_In_l _ _ _ _ H1 Hmin) as (m' & Hm' & Hmm').
    apply managed_by_manager in Hmm'; [| exact Hmgr]. subst m'.
    exists m. split; [exact Hm' |]. split; [reflexivity |].
    split; [exact Hmgr | exact (proj1 (H0 m Hmin))].
Qed.

Lemma ensures_employees_store_links (today : Z) (stores : list Store.t) (n : Z) :
  Forall (fun s => Store.MANAGER_ID s = None) stores ->
  ensures (fun r : list Employee.t * list Store.t =>
             Forall (store_link_ok (fst r)) (snd r))
          (generate_employees today stores n).
Proof.
  intros Hnone.
  eapply ensures_weaken; [apply ensures_generate_employees_links |].
  intros [emps stores'] (es0 & _ & _ & H2). cbn [fst snd] in *.
  rewrite Forall_forall in Hnone.
  apply Forall_forall. intros s' Hs'. unfold store_link_ok.
  destruct (Forall2_In_r _ _ _ _ H2 Hs') as (s & Hs & Hm).
  destruct Hm as [[-> Hno] | (m & Hmin & Hst & Hmgr & ->)].
  - rewrite (Hnone s Hs). exact Hno.
  - cbn [Store.set_MANAGER_ID Store.MANAGER_ID Store.STORE_ID].
    exists m. auto.
Qed.

(** ** Runs on a tape of zeros *)

Lemma returns_on_zeros_ret {A} (P : A -> Prop) (a : A) : P a -> returns_on_zeros P (ret a).
Proof. intros H g Hg. exists a, g. split; [reflexivity | split; assumption]. Qed.

Lemma returns_on_zeros_bind {A B} (P : A -> Prop) (Q : B -> Prop) (c : M A) (k : A -> M B) :
  returns_on_zeros P c -> (forall a, P a -> returns_on_zeros Q (k a)) ->
  returns_on_zeros Q (bind c k).
Proof.
  intros Hc Hk g Hg. destruct (Hc g Hg) as (a & g1 & E & Hg1 & Pa).
  destruct (Hk a Pa g1 Hg1) as (b & g2 & E' & Hg2 & Qb).
  exists b, g2. unfold bind. rewrite E. split; [exact E' | split; assumption].
Qed.

Lemma returns_on_zeros_randbelow (n : Z) :
  returns_on_zeros (fun j => j = 0%Z) (randbelow n).
Proof.
  intros g Hg. eexists. eexists. split; [reflexivity |]. split.
  - intros k. apply Hg.
  - rewrite Hg. apply Zmod_0_l.
Qed.

Lemma returns_on_zeros_randint (a b : Z) :
  (a <= b)%Z -> returns_on_zeros (fun v => v = a) (randint a b).
Proof.
  intros Hab. unfold randint. destruct (Z.leb_spec (b - a + 1) 0); [lia |].
  eapply returns_on_zeros_bind; [apply returns_on_zeros_randbelow |].
  intros j ->. apply returns_on_zeros_ret. lia.
Qed.

Lemma returns_on_zeros_choice {A} (d : A) (l : list A) :
  returns_on_zeros (fun x => x = d) (choice (d :: l)).
Proof.
  unfold choice.
  eapply returns_on_zeros_bind; [apply returns_on_zeros_randbelow |].
  intros j ->. apply returns_on_zeros_ret. reflexivity.
Qed.

Lemma returns_on_zeros_random : returns_on_zeros (fun r => r = 0) random_random.
Proof.
  intros g Hg. eexists. eexists. split; [reflexivity |]. split.
  - intros k. apply Hg.
  - rewrite Hg. reflexivity.
Qed.

Lemma returns_on_zeros_loop {S A} (I : list A -> S -> Prop) (f : S -> A -> M S)
    (l : list A) (s : S) :
  I [] s ->
  (forall done x s, I done s -> returns_on_zeros (I (done ++ [x])) (f s x)) ->
  returns_on_zeros (I l) (foldM f s l).
Proof.
  intros H0 Hf.
  enough (H : forall done s, I done s -> returns_on_zeros (I (done ++ l)) (foldM f s l))
    by exact (H [] s H0).
  induction l as [| x l IH]; intros done s' HI.
  - rewrite app_nil_r. apply returns_on_zeros_ret. exact HI.
  - cbn [foldM]. apply returns_on_zeros_bind with (P := I (done ++ [x])).
    + apply Hf. exact HI.
    + intros s'' HI'. specialize (IH (done ++ [x]) s'' HI').
      rewrite <- app_assoc in IH. exact IH.
Qed.

Lemma raises_on_zeros_bind_r {A B} (P : A -> Prop) (e : exn) (c : M A) (k : A -> M B) :
  returns_on_zeros P c -> (forall a, P a -> raises_on_zeros e (k a)) ->
  raises_on_zeros e (bind c k).
Proof.
  intros Hc Hk g Hg. destruct (Hc g Hg) as (a & g1 & E & Hg1 & Pa).
  unfold bind. rewrite E. apply Hk; assumption.
Qed.

Lemma raises_on_zeros_bind_l {A B} (e : exn) (c : M A) (k : A -> M B) :
  raises_on_zeros e c -> raises_on_zeros e (bind c k).
Proof. intros H g Hg. unfold bind. rewrite (H g Hg). reflexivity. Qed.

Ltac zstep :=
  lazymatch goal with
  | |- returns_on_zeros _ (bind (choice (_ :: _)) _) =>
      eapply returns_on_zeros_bind; [apply returns_on_zeros_choice | intros ? ?]
  | |- returns_on_zeros _ (bind (randint _ _) _) =>
      eapply returns_on_zeros_bind; [apply returns_on_zeros_randint; lia | intros ? ?]
  | |- returns_on_zeros _ (bind (bind _ _) _) =>
      eapply returns_on_zeros_bind with (P := fun _ => True);
      [repeat zstep; exact I | intros ? _]
  | |- returns_on_zeros _ (ret _) => apply returns_on_zeros_ret
  end.

Lemma returns_on_zeros_new_employee (today : Z) (s : Store.t) (stores : list Store.t) (i : Z) :
  returns_on_zeros (fun e => is_manager e = false) (new_employee today (s :: stores) i).
Proof.
  unfold new_employee, gen_phone, job_titles, first_names, last_names, departments,
    mostly_true.
  do 2 zstep.
  eapply returns_on_zeros_bind with (P := fun _ => True); [repeat zstep; exact I | intros phone _].
  do 4 zstep. cbv beta in *. subst.
  change (contains "Manager" "Sales Associate") with false.
  change (contains "Supervisor" "Sales Associate") with false.
  cbv iota. repeat zstep. reflexivity.
Qed.

Lemma raises_on_zeros_assign_first (done : list Employee.t) (emp : Employee.t)
    (rest : list Employee.t) :
  is_manager emp = false ->
  raises_on_zeros IndexError (foldM (assign_manager []) done (emp :: rest)).
Proof.
  intros Hm. cbn [foldM]. apply raises_on_zeros_bind_l.
  unfold assign_manager. rewrite Hm.
  eapply raises_on_zeros_bind_r; [apply returns_on_zeros_random |].
  intros r ->. destruct (Qlt_le_dec 0 (float_lit (3 # 10))) as [_ | H].
  - apply raises_on_zeros_bind_l. intros g _. reflexivity.
  - exfalso. revert H. vm_compute. intros H. apply H. reflexivity.
Qed.

(** ** The order tables, by iteration *)

Lemma ensures_generate_orders_facts (today : Z) (customers : list Customer.t)
    (stores : list Store.t) (employees : list Employee.t) (products : list Product.t)
    (n : Z) :
  ensures (fun r => tables_built (order_facts today products)
                      (range 1 (n + 1)) (fst r) (snd r))
          (generate_orders today customers stores employees products n).
Proof.
  unfold generate_orders.
  apply (ensures_loop
           (fun done r => tables_built (order_facts today products) done (fst r) (snd r))).
  - constructor.
  - intros done i [orders details] _ Hb. cbn [fst snd] in Hb.
    eapply ensures_weaken; [apply ensures_new_order_facts |].
    intros st (o & lines & -> & Ho). cbn [fst snd]. constructor; assumption.
Qed.

Lemma order_facts_ids (today : Z) (products : list Product.t) (i : Z) (o : Order.t)
    (lines : list OrderLine.t) :
  order_facts today products i o lines ->
  Order.ORDER_ID o = i /\ Forall (fun l => OrderLine.ORDER_ID l = i) lines.
Proof.
  intros (Hid & _ & _ & Hl & _). split; [exact Hid |].
  eapply Forall_impl; [| exact Hl]. intros l Hl'. exact (proj1 Hl').
Qed.

Lemma tables_ids (today : Z) (products : list Product.t) ids orders details :
  tables_built (order_facts today products) ids orders details ->
  map Order.ORDER_ID orders = ids /\
  Forall (fun l => In (OrderLine.ORDER_ID l) ids) details.
Proof.
  induction 1 as [| ids orders details i o lines _ [IHo IHl] Ho].
  - split; [reflexivity | constructor].
  - destruct (order_facts_ids _ _ _ _ _ Ho) as [Hid Hl]. split.
    + rewrite map_app, IHo. cbn [map]. rewrite Hid. reflexivity.
    + apply Forall_app. split.
      * eapply Forall_impl; [| exact IHl]. intros l Hl'. apply in_or_app. left. exact Hl'.
      * eapply Forall_impl; [| exact Hl]. intros l Hl'. cbv beta in Hl'.
        apply in_or_app. right. left. symmetry. exact Hl'.
Qed.

Lemma tables_orders (today : Z) (products : list Product.t) ids orders details :
  tables_built (order_facts today products) ids orders details ->
  Forall (order_schedule_ok today) orders.
Proof.
  induction 1 as [| ids orders details i o lines _ IH Ho].
  - constructor.
  - apply Forall_app. split; [exact IH |]. constructor; [| constructor].
    exact (proj1 (proj2 Ho)).
Qed.

(** with pairwise distinct order identifiers, the lines that carry the
    identifier of an order are those appended by its iteration *)
Lemma tables_lines_of_order (today : Z) (products : list Product.t) ids orders details :
  tables_built (order_facts today products) ids orders details ->
  NoDup ids ->
  forall o, In o orders ->
    order_lines_ok products (Order.ORDER_ID o)
      (filter (fun l => (OrderLine.ORDER_ID l =? Order.ORDER_ID o)%Z) details).
Proof.
  induction 1 as [| ids orders details i o' lines Hb IH Ho]; intros Hnd o Hin.
  - destruct Hin.
  - apply NoDup_remove in Hnd. rewrite app_nil_r in Hnd. destruct Hnd as [Hnd Hi].
    destruct (tables_ids _ _ _ _ _ Hb) as [Hids Hdet].
    destruct (order_facts_ids _ _ _ _ _ Ho) as [Hid' Hlines].
    rewrite filter_app. apply in_app_or in Hin. destruct Hin as [Hin | [<- | []]].
    + assert (Hne : Order.ORDER_ID o <> i).
      { intros E. apply Hi. rewrite <- Hids, <- E. apply in_map. exact Hin. }
      rewrite (filter_none _ lines), app_nil_r; [apply IH; assumption |].
      eapply Forall_impl; [| exact Hlines]. intros l Hl. cbv beta in Hl.
      apply Z.eqb_neq. congruence.
    + rewrite filter_none, app_nil_l, filter_all.
      * rewrite Hid'. exact (proj2 (proj2 Ho)).
      * eapply Forall_impl; [| exact Hlines]. intros l Hl. cbv beta in Hl.
        apply Z.eqb_eq. congruence.
      * eapply Forall_impl; [| exact Hdet]. intros l Hl. cbv beta in Hl.
        apply Z.eqb_neq. intros E. apply Hi. rewrite <- Hid', <- E. exact Hl.
Qed.

Lemma tables_lines_total (today : Z) (products : list Product.t) ids orders details :
  tables_built (order_facts today products) ids orders details ->
  (length details <= 5 * length orders)%nat /\
  (products <> [] -> (length orders <= length details)%nat) /\
  (products = [] -> details = []).
Proof.
  induction 1 as [| ids orders details i o lines _ (IH1 & IH2 & IH3) Ho].
  - split; [cbn; lia | split; [cbn; lia | reflexivity]].
  - destruct Ho as (_ & _ & (k & Hk & Hlen) & _).
    rewrite !length_app. cbn [length]. split; [lia | split].
    + intros Hp. specialize (IH2 Hp).
      assert ((0 < length products)%nat) by (destruct products; [congruence | cbn; lia]).
      lia.
    + intros Hp. rewrite (IH3 Hp). subst products. cbn [length] in Hlen.
      replace (Z.min k (Z.of_nat 0)) with 0%Z in Hlen by lia.
      destruct lines; [reflexivity | discriminate Hlen].
Qed.

Lemma tables_key_NoDup (today : Z) (products : list Product.t) ids orders details :
  tables_built (order_facts today products) ids orders details ->
  NoDup ids ->
  NoDup (map Product.PRODUCT_ID products) ->
  NoDup (map (fun l => (OrderLine.ORDER_ID l, OrderLine.PRODUCT_ID l)) details).
Proof.
  induction 1 as [| ids orders details i o lines Hb IH Ho]; intros Hnd Hp.
  - constructor.
  - apply NoDup_remove in Hnd. rewrite app_nil_r in Hnd. destruct Hnd as [Hnd Hi].
    destruct (tables_ids _ _ _ _ _ Hb) as [_ Hdet].
    destruct (order_facts_ids _ _ _ _ _ Ho) as [_ Hlines].
    destruct Ho as (_ & _ & _ & _ & Hkey). specialize (Hkey Hp).
    rewrite map_app. apply NoDup_app.
    + apply IH; assumption.
    + assert (E : map (fun l => (OrderLine.ORDER_ID l, OrderLine.PRODUCT_ID l)) lines =
                  map (pair i) (map OrderLine.PRODUCT_ID lines)).
      { rewrite map_map. apply map_ext_in. intros l Hl.
        rewrite Forall_forall in Hlines. rewrite (Hlines l Hl). reflexivity. }
      rewrite E. apply Injective_map_NoDup; [| exact Hkey].
      intros x y Exy. injection Exy as ->. reflexivity.
    + intros key Hk1 Hk2. apply in_map_iff in Hk1. destruct Hk1 as (l1 & <- & Hl1).
      apply in_map_iff in Hk2. destruct Hk2 as (l2 & E2 & Hl2).
      injection E2 as E2 _.
      rewrite Forall_forall in Hdet, Hlines.
      apply Hi. rewrite <- (Hlines l2 Hl2), E2. apply Hdet. exact Hl1.
Qed.

(** ** Float sums against exact sums *)

Lemma inject_nat_nonneg (n : nat) : 0 <= inject_Z (Z.of_nat n).
Proof. change 0 with (inject_Z 0). rewrite <- Zle_Qle. lia. Qed.

Lemma inject_nat_succ (n : nat) :
  inject_Z (Z.of_nat (S n)) == inject_Z (Z.of_nat n) + 1.
Proof.
  rewrite Nat2Z.inj_succ. unfold Z.succ. rewrite inject_Z_plus. reflexivity.
Qed.

Lemma fsum_err (B : Q) (l : list Q) :
  0 <= B -> Forall (fun x => 0 <= x /\ x <= B) l ->
  forall acc,
    0 <= acc ->
    acc + inject_Z (Z.of_nat (length l)) * (B + 1) <= 2097152 # 1 ->
    acc + qsum l - inject_Z (Z.of_nat (length l)) * eps <= fsum_from acc l /\
    fsum_from acc l <= acc + qsum l + inject_Z (Z.of_nat (length l)) * eps.
Proof.
  intros HB H. induction H as [| x l [Hx0 Hx1] _ IH]; intros acc Hacc Hcap.
  - unfold fsum_from, qsum. cbn [fold_left fold_right length].
    change (inject_Z (Z.of_nat 0)) with 0. split; lra.
  - unfold fsum_from in *. cbn [fold_left length] in *.
    unfold qsum in *. cbn [fold_right].
    rewrite inject_nat_succ in *.
    pose proof (inject_nat_nonneg (length l)) as Hn.
    set (n := inject_Z (Z.of_nat (length l))) in *.
    assert (Hn' : 0 <= n * (B + 1)) by (apply Qmult_le_0_compat; lra).
    assert (Hs0 : 0 <= fadd acc x) by (apply RN_nonneg; lra).
    destruct (RN_err21 (acc + x)) as [Hs1 Hs2]; [split; lra |].
    unfold fadd in *. set (s := RN (acc + x)) in *. unfold eps in *.
    destruct (IH s Hs0) as [I0 I1]; [lra |].
    split; lra.
Qed.

Lemma fsum_mono (pairs : list (Q * Q)) :
  Forall (fun p => 0 <= fst p /\ fst p <= snd p) pairs ->
  forall acc1 acc2,
    0 <= acc1 -> acc1 <= acc2 ->
    0 <= fsum_from acc1 (map fst pairs) /\
    fsum_from acc1 (map fst pairs) <= fsum_from acc2 (map snd pairs).
Proof.
  induction 1 as [| [b a] pairs [Hb Hba] _ IH]; intros acc1 acc2 H1 H12.
  - unfold fsum_from. cbn [map fold_left]. split; assumption.
  - unfold fsum_from in *. cbn [map fold_left fst snd] in *.
    apply IH.
    + apply RN_nonneg. lra.
    + unfold fadd. apply RN_mono; lra.
Qed.

Lemma qsum_round2_err (l : list Q) :
  Forall (fun x => 0 <= x /\ x <= 2097151 # 1) l ->
  qsum l - inject_Z (Z.of_nat (length l)) * ((1 # 200) + eps) <= qsum (map round2 l) /\
  qsum (map round2 l) <= qsum l + inject_Z (Z.of_nat (length l)) * ((1 # 200) + eps).
Proof.
  induction 1 as [| x l [Hx0 Hx1] _ [IH0 IH1]].
  - unfold qsum. cbn [map fold_right length]. change (inject_Z (Z.of_nat 0)) with 0.
    split; lra.
  - unfold qsum in *. cbn [map fold_right length]. rewrite inject_nat_succ.
    destruct (round2_err21 x) as [R0 R1]; [lra | lra |].
    set (n := inject_Z (Z.of_nat (length l))) in *.
    set (r := round2 x) in *. unfold eps in *. split; lra.
Qed.

(** ** One line: the amount, the discount and their sum *)

Lemma draw_discount_le_amount (d : draw) :
  draw_ok d -> price_in_range (draw_product d) ->
  0 <= draw_discount d /\ draw_discount d <= draw_amount d.
Proof.
  destruct d as [[p q] f]. unfold draw_ok, price_in_range, draw_product.
  cbn [fst snd]. intros [Hq Hf] Hp.
  destruct (discount_fraction_range f Hf) as [Hf0 Hf1].
  assert (Hcap : float_lit (2 # 10) <= 21 # 100) by qcompute.
  assert (Hg : (0 <= Product.UNIT_PRICE p * q <= 250000)%Z) by nia.
  unfold draw_amount, draw_discount.
  set (gross := (Product.UNIT_PRICE p * q)%Z) in *.
  destruct (float_of_int_range gross) as (HG0 & _ & _); [lia |].
  set (G := float_of_int gross) in *.
  unfold fsub, fmul.
  assert (Hw : 21 # 100 <= RN (1 - f)).
  { apply Qle_trans with (RN (79 # 100)); [qcompute |]. apply RN_mono; lra. }
  assert (Hd0 : 0 <= G * f) by (apply Qmult_le_0_compat; assumption).
  split; [apply RN_nonneg; exact Hd0 |].
  apply RN_mono; [exact Hd0 |].
  rewrite (Qmult_comm G f), (Qmult_comm G (RN (1 - f))).
  apply Qmult_le_compat_r; [lra | exact HG0].
Qed.

Lemma draw_gross (d : draw) :
  draw_ok d -> price_in_range (draw_product d) ->
  Qabs (draw_amount d + draw_discount d -
        inject_Z (Product.UNIT_PRICE (draw_product d) * snd (fst d))) <= 4 * eps.
Proof.
  destruct d as [[p q] f]. unfold draw_ok, price_in_range, draw_product.
  cbn [fst snd]. intros [Hq Hf] Hp.
  destruct (discount_fraction_range f Hf) as [Hf0 Hf1].
  assert (Hcap : float_lit (2 # 10) <= 21 # 100) by qcompute.
  assert (Hg : (0 <= Product.UNIT_PRICE p * q <= 250000)%Z) by nia.
  unfold draw_amount, draw_discount.
  set (gross := (Product.UNIT_PRICE p * q)%Z) in *.
  destruct (float_of_int_range gross) as (HG0 & HGl & HGu); [lia |].
  destruct Hg as [_ Hg]. rewrite Zle_Qle in Hg.
  change (inject_Z 250000) with (250000 # 1) in Hg.
  set (G := float_of_int gross) in *. unfold eps in *.
  unfold fsub, fmul.
  assert (Hw : Qabs (RN (1 - f) - (1 - f)) <= pow2 (1 - 53)).
  { apply RN_err; [lia |]. apply Qabs_Qle_condition.
    assert (E : pow2 1 == 2) by reflexivity. rewrite E. split; lra. }
  assert (E : pow2 (1 - 53) == 1 # 4503599627370496) by reflexivity.
  rewrite E in Hw. apply Qabs_Qle_condition in Hw. destruct Hw as [Hw0 Hw1].
  set (w := RN (1 - f)) in *.
  assert (Hwpos : 0 <= w) by lra.
  (* G * w within G * 2^-52 of G * (1 - f) *)
  assert (Hm1 : G * (w - (1 - f)) <= G * (1 # 4503599627370496)).
  { rewrite !(Qmult_comm G). apply Qmult_le_compat_r; [lra | exact HG0]. }
  assert (Hm2 : G * (- (1 # 4503599627370496)) <= G * (w - (1 - f))).
  { rewrite !(Qmult_comm G). apply Qmult_le_compat_r; [lra | exact HG0]. }
  assert (Hm3 : G * (1 # 4503599627370496) <= 1 # 4294967296).
  { apply Qle_trans with (((250000 # 1) + (1 # 4294967296)) * (1 # 4503599627370496));
      [| discriminate].
    apply Qmult_le_compat_r; [lra | discriminate]. }
  assert (Hring : G * w + G * f == G + G * (w - (1 - f))) by ring.
  assert (Ha0 : 0 <= G * w) by (apply Qmult_le_0_compat; assumption).
  assert (Ha1 : G * w <= ((250000 # 1) + (1 # 4294967296)) * (1 + (1 # 4294967296)))
    by (apply Qmult_le_mono; lra).
  assert (Hd0 : 0 <= G * f) by (apply Qmult_le_0_compat; assumption).
  assert (Hd1 : G * f <= ((250000 # 1) + (1 # 4294967296)) * (21 # 100))
    by (apply Qmult_le_mono; lra).
  destruct (RN_err21 (G * w)) as [A0 A1]; [split; lra |].
  destruct (RN_err21 (G * f)) as [D0 D1]; [split; lra |]. unfold eps in *.
  apply Qabs_Qle_condition. split; lra.
Qed.

(** ** The stored amounts of an order against its lines *)

Lemma line_totals_of_draws (i : Z) (draws : list draw) :
  map OrderLine.TOTAL_LINE_AMOUNT (map (draw_line i) draws) =
  map round2 (map draw_amount draws).
Proof.
  rewrite !map_map. apply map_ext. intros [[p q] f]. reflexivity.
Qed.

Lemma gross_of_draws (i : Z) (draws : list draw) :
  gross_of_lines (map (draw_line i) draws) =
  fold_right Z.add 0%Z
    (map (fun d => (Product.UNIT_PRICE (draw_product d) * snd (fst d))%Z) draws).
Proof.
  unfold gross_of_lines. rewrite map_map. f_equal. apply map_ext.
  intros [[p q] f]. reflexivity.
Qed.

Lemma draws_each (products : list Product.t) (draws : list draw) :
  Forall price_in_range products ->
  Forall draw_ok draws ->
  incl (map draw_product draws) products ->
  Forall (fun d => draw_ok d /\ price_in_range (draw_product d)) draws.
Proof.
  intros Hp Hok Hincl. rewrite Forall_forall in *. intros d Hd.
  split; [apply Hok; exact Hd |]. apply Hp, Hincl, in_map, Hd.
Qed.

Lemma draws_gross (draws : list draw) :
  Forall (fun d => draw_ok d /\ price_in_range (draw_product d)) draws ->
  let g := inject_Z (fold_right Z.add 0%Z
                       (map (fun d => (Product.UNIT_PRICE (draw_product d) *
                                       snd (fst d))%Z) draws)) in
  let n := inject_Z (Z.of_nat (length draws)) in
  g - n * (4 * eps) <= qsum (map draw_amount draws) + qsum (map draw_discount draws) /\
  qsum (map draw_amount draws) + qsum (map draw_discount draws) <= g + n * (4 * eps).
Proof.
  cbv zeta. induction 1 as [| d draws [Hd Hp] _ [IH0 IH1]].
  - unfold qsum. cbn [map fold_right length].
    change (inject_Z (Z.of_nat 0)) with 0. change (inject_Z 0) with 0. split; lra.
  - pose proof (draw_gross d Hd Hp) as Hg. apply Qabs_Qle_condition in Hg.
    destruct Hg as [Hg0 Hg1].
    unfold qsum in *. cbn [map fold_right length].
    rewrite inject_nat_succ, inject_Z_plus.
    set (n := inject_Z (Z.of_nat (length draws))) in *.
    set (gd := inject_Z (Product.UNIT_PRICE (draw_product d) * snd (fst d))) in *.
    set (a := draw_amount d) in *. set (b := draw_discount d) in *.
    unfold eps in *. split; lra.
Qed.

Lemma order_amounts (products : list Product.t) (draws : list draw) (S : Z) :
  Forall price_in_range products ->
  Forall draw_ok draws ->
  incl (map draw_product draws) products ->
  (length draws <= 5)%nat ->
  (0 <= S <= 500)%Z ->
  let T := subtotal draws in
  let D := discounts draws in
  Qabs (round2 T - qsum (map round2 (map draw_amount draws)))
    <= (3 # 100) + (1 # 1000000) /\
  Qabs (round2 (tax_of T) - (15 # 100) * round2 T) <= 6 # 1000 /\
  Qabs (round2 T + round2 D -
        inject_Z (fold_right Z.add 0%Z
                    (map (fun d => (Product.UNIT_PRICE (draw_product d) *
                                    snd (fst d))%Z) draws)))
    <= (1 # 100) + (1 # 1000000) /\
  0 <= round2 D /\ round2 D <= round2 T /\
  0 <= round2 (tax_of T) /\
  0 <= round2 (final_of T D S).
Proof.
  intros Hp Hok Hincl Hlen HS. cbv zeta.
  destruct (draws_bounds products draws Hp Hok Hincl Hlen) as [[HT0 HT1] [HD0 HD1]].
  pose proof (draws_each products draws Hp Hok Hincl) as Heach.
  assert (Hb : Forall (fun d => (0 <= draw_amount d /\ draw_amount d <= 250001 # 1) /\
                                (0 <= draw_discount d /\ draw_discount d <= 52501 # 1)) draws).
  { eapply Forall_impl; [| exact Heach]. intros d [Hd Hpd]. apply draw_bounds; assumption. }
  assert (Hn : inject_Z (Z.of_nat (length draws)) <= 5).
  { change 5 with (inject_Z 5). rewrite <- Zle_Qle. lia. }
  pose proof (inject_nat_nonneg (length draws)) as Hn0.
  (* the float sums against the exact sums *)
  destruct (fsum_err (250001 # 1) (map draw_amount draws)) with (acc := 0) as [TA0 TA1].
  { discriminate. }
  { apply Forall_map. eapply Forall_impl; [| exact Hb]. intros d [H _]. exact H. }
  { apply Qle_refl. }
  { rewrite length_map. lra. }
  destruct (fsum_err (52501 # 1) (map draw_discount draws)) with (acc := 0) as [DA0 DA1].
  { discriminate. }
  { apply Forall_map. eapply Forall_impl; [| exact Hb]. intros d [_ H]. exact H. }
  { apply Qle_refl. }
  { rewrite length_map. lra. }
  rewrite length_map in TA0, TA1, DA0, DA1.
  fold (subtotal draws) in TA0, TA1. fold (discounts draws) in DA0, DA1.
  (* the rounded line amounts against the line amounts *)
  destruct (qsum_round2_err (map draw_amount draws)) as [LA0 LA1].
  { apply Forall_map. eapply Forall_impl; [| exact Hb]. intros d [[H0 H1] _].
    cbv beta. split; lra. }
  rewrite length_map in LA0, LA1.
  destruct (draws_gross draws Heach) as [G0 G1].
  (* the discount sum is below the sum of the amounts *)
  assert (HDT : discounts draws <= subtotal draws).
  { destruct (fsum_mono (map (fun d => (draw_discount d, draw_amount d)) draws))
      with (acc1 := 0) (acc2 := 0) as [_ Hm].
    - apply Forall_map. eapply Forall_impl; [| exact Heach]. intros d [Hd Hpd].
      cbn [fst snd]. apply draw_discount_le_amount; assumption.
    - apply Qle_refl.
    - apply Qle_refl.
    - rewrite !map_map in Hm. cbn [fst snd] in Hm. exact Hm. }
  set (T := subtotal draws) in *. set (D := discounts draws) in *.
  set (n := inject_Z (Z.of_nat (length draws))) in *.
  set (sa := qsum (map draw_amount draws)) in *.
  set (sd := qsum (map draw_discount draws)) in *.
  set (sr := qsum (map round2 (map draw_amount draws))) in *.
  set (g := inject_Z (fold_right Z.add 0%Z _)) in *.
  destruct (round2_err21 T) as [RT0 RT1]; [lra | lra |].
  destruct (round2_err21 D) as [RD0 RD1]; [lra | lra |].
  (* the tax *)
  assert (Hc0 : (15 # 100) - (1 # 1000000000000000) <= float_lit (15 # 100)) by qcompute.
  assert (Hc1 : float_lit (15 # 100) <= (15 # 100) + (1 # 1000000000000000)) by qcompute.
  unfold tax_of, final_of, tax_of, fadd, fsub, fmul.
  set (c := float_lit (15 # 100)) in *.
  assert (HX0 : 0 <= T * c) by (apply Qmult_le_0_compat; lra).
  assert (HXu : T * c <= T * ((15 # 100) + (1 # 1000000000000000))).
  { rewrite !(Qmult_comm T). apply Qmult_le_compat_r; lra. }
  assert (HXl : T * ((15 # 100) - (1 # 1000000000000000)) <= T * c).
  { rewrite !(Qmult_comm T). apply Qmult_le_compat_r; lra. }
  assert (HXn : 0 <= RN (T * c)) by (apply RN_nonneg; exact HX0).
  destruct (RN_err21 (T * c)) as [X0 X1]; [split; lra |].
  set (X := RN (T * c)) in *.
  destruct (round2_err21 X) as [RX0 RX1]; [unfold eps in *; lra | unfold eps in *; lra |].
  (* the final amount *)
  destruct (float_of_int_range S) as (HS0 & _ & HSu); [lia |].
  destruct HS as [_ HS]. rewrite Zle_Qle in HS. change (inject_Z 500) with (500 # 1) in HS.
  set (Sf := float_of_int S) in *. unfold eps in *.
  destruct (RN_err21 (T + X)) as [A1 A1']; [split; unfold eps; lra |].
  set (s1 := RN (T + X)) in *. unfold eps in *.
  destruct (RN_err21 (s1 + Sf)) as [A2 A2']; [split; unfold eps; lra |].
  set (s2 := RN (s1 + Sf)) in *. unfold eps in *.
  destruct (RN_err21 (s2 - D)) as [A3 _]; [split; unfold eps; lra |].
  set (f := RN (s2 - D)) in *. unfold eps in *.
  split; [apply Qabs_Qle_condition; split; lra |].
  split; [apply Qabs_Qle_condition; split; lra |].
  split; [apply Qabs_Qle_condition; split; lra |].
  split; [apply round2_nonneg; exact HD0 |].
  split; [apply round2_mono; assumption |].
  split; [apply round2_nonneg; exact HXn |].
  unfold round2. apply RN_nonneg.
  apply Qle_shift_div_l; [reflexivity |]. rewrite Qmult_0_l.
  change 0 with (inject_Z 0). rewrite <- Zle_Qle.
  change 0%Z with (round_half_even (- (1 # 4))).
  apply round_half_even_mono. lra.
Qed.

Lemma order_amounts_of_run
    (today : Z) (customers : list Customer.t) (stores : list Store.t)
    (employees : list Employee.t) (products : list Product.t) (n : Z) (g : rng)
    (orders : list Order.t) (details : list OrderLine.t) (g' : rng) :
  generate_orders today customers stores employees products n g =
    Ok (orders, details, g') ->
  Forall price_in_range products ->
  Forall (fun o =>
            Qabs (Order.TOTAL_AMOUNT o -
                  qsum (map OrderLine.TOTAL_LINE_AMOUNT (lines_of details o)))
              <= (3 # 100) + (1 # 1000000) /\
            Qabs (Order.TAX_AMOUNT o - (15 # 100) * Order.TOTAL_AMOUNT o) <= 6 # 1000 /\
            Qabs (Order.TOTAL_AMOUNT o + Order.DISCOUNT_AMOUNT o -
                  inject_Z (gross_of_lines (lines_of details o)))
              <= (1 # 100) + (1 # 1000000) /\
            0 <= Order.DISCOUNT_AMOUNT o /\
            Order.DISCOUNT_AMOUNT o <= Order.TOTAL_AMOUNT o /\
            0 <= Order.TAX_AMOUNT o /\
            0 <= Order.FINAL_AMOUNT o)
         orders.
Proof.
  intros H Hp. apply ensures_generate_orders in H. cbn [fst snd] in H.
  apply Forall_forall. intros o Ho.
  pose proof (built_lines_of_order _ _ _ _ _ _ _ H (range_NoDup 1 (n + 1)) o Ho) as Hspec.
  destruct Hspec as (draws & Hok & Hincl & Hlen & Hlines & _ & _ & Hship
                     & HT & HX & HD & HF & _).
  pose proof (order_amounts products draws (Order.SHIPPING_COST o)
                Hp Hok Hincl Hlen Hship) as Ha.
  cbv zeta in Ha.
  unfold lines_of. rewrite Hlines, line_totals_of_draws, gross_of_draws.
  rewrite HT, HX, HD, HF. exact Ha.
Qed.

(** ** The whole data set *)

Lemma ensures_dataset (today a b c d e : Z) :
  ensures (dataset_ok today a b c d e) (generate_all_data today a b c d e).
Proof.
  unfold generate_all_data.
  eapply ensures_bind;
    [apply returns_ensures, returns_generate_customers | intros customers [Hc _]].
  eapply ensures_bind;
    [apply returns_ensures, returns_generate_customer_addresses | intros addrs [_ Hblocks]].
  eapply ensures_bind;
    [apply (ensures_conj _ _ _ (returns_ensures _ _ (returns_generate_products b))
              (ensures_products_catalog b))
    | intros products [[Hp _] Hcat]].
  eapply ensures_bind;
    [apply returns_ensures, returns_generate_stores | intros stores0 [Hs Hprof]].
  assert (Hnone : Forall (fun s => Store.MANAGER_ID s = None) stores0).
  { eapply Forall_impl; [| exact Hprof]. intros s Hs'. exact (proj1 Hs'). }
  eapply ensures_bind;
    [apply (ensures_conj _ _ _ (ensures_generate_employees today stores0 d)
              (ensures_conj _ _ _ (ensures_employees_manager_links today stores0 d)
                 (ensures_employees_store_links today stores0 d Hnone))) |].
  intros [employees stores] [(He & Hes & Hss) [Hml Hsl]]. cbn [fst snd] in *.
  eapply ensures_bind;
    [apply (ensures_conj _ _ _
              (ensures_generate_orders today customers stores employees products e)
              (ensures_generate_orders_facts today customers stores employees products e)) |].
  intros [orders details] [Hb Ht]. cbn [fst snd] in *.
  apply ensures_ret. unfold dataset_ok.
  cbn [Data.customers Data.customer_addresses Data.product_categories Data.products
       Data.stores Data.employees Data.orders Data.order_details Data.sales_data].
  split; [exact Hc |]. split; [exact Hblocks |]. split; [reflexivity |].
  split; [split; assumption |].
  split; [rewrite Hss; exact Hs |].
  split; [split; [exact He | split; [rewrite Hss; exact Hes | split; assumption]] |].
  split; [exact Hb |]. split; [exact Ht | reflexivity].
Qed.

Lemma range_size (a : Z) : length (range 1 (a + 1)) = Z.to_nat a.
Proof. rewrite range_length. f_equal. lia. Qed.

Lemma first_match_some {A} (key : A -> Z) (k : Z) (l : list A) :
  (exists x, In x l /\ key x = k) ->
  exists y, first_match key k l = Some y /\ In y l /\ key y = k.
Proof.
  intros (x & Hx & Hk). unfold first_match.
  destruct (find (fun x => (key x =? k)%Z) l) as [y |] eqn:E.
  - exists y. split; [reflexivity |]. apply find_some in E.
    destruct E as [Hy Hky]. split; [exact Hy | apply Z.eqb_eq; exact Hky].
  - exfalso. pose proof (find_none _ _ E x Hx) as Hf. cbv beta in Hf.
    apply Z.eqb_neq in Hf. exact (Hf Hk).
Qed.

Lemma flat_map_singletons {A B} (P : A -> B -> Prop) (f : A -> list B) (l : list A) :
  (forall x, In x l -> exists y, f x = [y] /\ P x y) ->
  Forall2 P l (flat_map f l).
Proof.
  induction l as [| x l IH]; intros H; cbn [flat_map]; [constructor |].
  destruct (H x (or_introl eq_refl)) as (y & E & Hy). rewrite E. cbn [app].
  constructor; [exact Hy |]. apply IH. intros z Hz. apply H. right. exact Hz.
Qed.

Lemma flat_map_nil {A B} (f : A -> list B) (l : list A) :
  (forall x, In x l -> f x = []) -> flat_map f l = [].
Proof.
  induction l as [| x l IH]; intros H; cbn [flat_map]; [reflexivity |].
  rewrite (H x (or_introl eq_refl)), IH; [reflexivity |].
  intros z Hz. apply H. right. exact Hz.
Qed.

(** over a non-empty catalogue every order gets its row *)
Lemma row_of_order (today : Z) customers stores employees products ids orders details :
  orders_built customers stores employees products ids orders details ->
  tables_built (order_facts today products) ids orders details ->
  NoDup ids -> products <> [] ->
  forall o, In o orders ->
    exists r, row_of customers products stores employees details o = [r] /\
              sale_of_order o r.
Proof.
  intros Hb Ht Hnd Hp o Ho.
  (* the first line of the order *)
  destruct (tables_lines_of_order _ _ _ _ _ Ht Hnd o Ho) as ((k & Hk & Hlen) & _).
  assert (Hlines : exists l, In l details /\ OrderLine.ORDER_ID l = Order.ORDER_ID o).
  { destruct (filter _ details) as [| l ls] eqn:Ef.
    - exfalso. cbn [length] in Hlen.
      assert ((0 < length products)%nat) by (destruct products; [congruence | cbn; lia]).
      lia.
    - assert (Hl : In l (filter (fun l => (OrderLine.ORDER_ID l =? Order.ORDER_ID o)%Z)
                           details)) by (rewrite Ef; left; reflexivity).
      apply filter_In in Hl. destruct Hl as [Hl Hid]. apply Z.eqb_eq in Hid.
      exists l. split; assumption. }
  destruct (first_match_some OrderLine.ORDER_ID _ _ Hlines) as (od & Eod & Hod & _).
  (* its product *)
  pose proof (built_lines _ _ _ _ _ _ _ Hb) as Hbl. rewrite Forall_forall in Hbl.
  destruct (Hbl od Hod) as (i & [[p q] f] & Eline & _ & Hpin).
  assert (Hprod : exists x, In x products /\
                            Product.PRODUCT_ID x = OrderLine.PRODUCT_ID od).
  { exists p. split; [exact Hpin |]. rewrite Eline. reflexivity. }
  destruct (first_match_some Product.PRODUCT_ID _ _ Hprod) as (p' & Ep & _).
  (* customer, store and employee *)
  pose proof (built_orders _ _ _ _ _ _ _ Hb) as Hbo. rewrite Forall_forall in Hbo.
  destruct (Hbo o Ho) as (lines & draws & Hspec).
  destruct Hspec as (_ & _ & _ & _ & _ & _ & _ & _ & _ & _ & _ & Hc & Hs & He).
  destruct (first_match_some Customer.CUSTOMER_ID _ _ Hc) as (c' & Ec & _).
  destruct (first_match_some Store.STORE_ID _ _ Hs) as (s' & Es & _).
  assert (He' : exists x, In x employees /\
                          Employee.EMPLOYEE_ID x = Order.EMPLOYEE_ID o).
  { destruct He as (x & Hx & Hid & _). exists x. auto. }
  destruct (first_match_some Employee.EMPLOYEE_ID _ _ He') as (e' & Ee & _).
  unfold row_of, add_sale. rewrite Eod, Ec, Ep, Es, Ee. cbn [app].
  eexists. split; [reflexivity |]. unfold sale_of_order. cbn. repeat split.
Qed.

Lemma built_nonempty customers stores employees products ids orders details :
  orders_built customers stores employees products ids orders details ->
  ids <> [] -> customers <> [] /\ stores <> [] /\ employees <> [].
Proof.
  intros Hb Hids. destruct Hb as [| ids orders details i o lines _ Ho].
  - congruence.
  - destruct Ho as (draws & _ & _ & _ & _ & _ & _ & _ & _ & _ & _ & _
                    & (c & Hc & _) & (s & Hs & _) & (e & He & _)).
    repeat split; intros E; subst; contradiction.
Qed.

(** ** The sizes of the tables *)

Lemma dataset_sizes (today a b c d e : Z) (data : Data.t) :
  dataset_ok today a b c d e data ->
  length (Data.customers data) = Z.to_nat a /\
  (Z.to_nat a <= length (Data.customer_addresses data) <= 2 * Z.to_nat a)%nat /\
  length (Data.product_categories data) = 8%nat /\
  length (Data.products data) = Z.to_nat b /\
  length (Data.stores data) = Z.to_nat c /\
  length (Data.employees data) = Z.to_nat d /\
  length (Data.orders data) = Z.to_nat e /\
  (length (Data.order_details data) <= 5 * Z.to_nat e)%nat /\
  ((0 < b)%Z ->
   (Z.to_nat e <= length (Data.order_details data))%nat /\
   length (Data.sales_data data) = Z.to_nat e) /\
  ((b <= 0)%Z -> Data.order_details data = [] /\ Data.sales_data data = []).
Proof.
  intros H.
  destruct H as (Hc & (blocks & Ha & Hblk) & Hcat & (Hp & _) & Hs & (He & _) & Hb & Ht & Hsd).
  assert (Lc : length (Data.customers data) = Z.to_nat a)
    by (rewrite <- (length_map Customer.CUSTOMER_ID), Hc; apply range_size).
  assert (Lp : length (Data.products data) = Z.to_nat b)
    by (rewrite <- (length_map Product.PRODUCT_ID), Hp; apply range_size).
  destruct (built_ids _ _ _ _ _ _ _ Hb) as [Ho _].
  assert (Lo : length (Data.orders data) = Z.to_nat e)
    by (rewrite <- (length_map Order.ORDER_ID), Ho; apply range_size).
  destruct (tables_lines_total _ _ _ _ _ Ht) as (T1 & T2 & T3).
  split; [exact Lc |].
  split; [rewrite Ha, <- Lc; apply blocks_length; exact Hblk |].
  split; [rewrite Hcat; reflexivity |].
  split; [exact Lp |].
  split; [rewrite <- (length_map Store.STORE_ID), Hs; apply range_size |].
  split; [rewrite <- (length_map Employee.EMPLOYEE_ID), He; apply range_size |].
  split; [exact Lo |].
  split; [rewrite <- Lo; exact T1 |].
  split.
  - intros Hb0.
    assert (Hne : Data.products data <> []).
    { intros E. rewrite E in Lp. cbn [length] in Lp. lia. }
    split; [rewrite <- Lo; exact (T2 Hne) |].
    rewrite Hsd, build_sales_data_rows, <- Lo.
    symmetry. eapply Forall2_length.
    apply (flat_map_singletons sale_of_order).
    apply (row_of_order today _ _ _ _ _ _ _ Hb Ht (range_NoDup 1 (e + 1)) Hne).
  - intros Hb0.
    assert (Hnil : Data.products data = []).
    { destruct (Data.products data); [reflexivity |]. cbn [length] in Lp. lia. }
    assert (Hd : Data.order_details data = []) by exact (T3 Hnil).
    split; [exact Hd |].
    rewrite Hsd, build_sales_data_rows, Hd. apply flat_map_nil.
    intros o _. reflexivity.
Qed.

(** ** [export_to_csv] *)



(** ** Rounded values between two decimals *)

Lemma round2_between (lo hi : Z) (x : Q) :
  (-200000000 <= lo)%Z -> (hi <= 200000000)%Z ->
  inject_Z lo - (1 # 4) <= x * 100 -> x * 100 <= inject_Z hi + (1 # 4) ->
  inject_Z lo / 100 - eps <= round2 x /\ round2 x <= inject_Z hi / 100 + eps.
Proof.
  intros Hlo Hhi Hl Hu.
  destruct (round_half_even_err (x * 100)) as [K0 K1].
  unfold round2. set (k := round_half_even (x * 100)) in *.
  assert (Hk0 : (lo <= k)%Z).
  { assert (H : (lo - 1 < k)%Z); [| lia].
    unfold Z.sub. rewrite Zlt_Qlt, inject_Z_plus, inject_Z_opp.
    change (inject_Z 1) with 1. lra. }
  assert (Hk1 : (k <= hi)%Z).
  { assert (H : (k < hi + 1)%Z); [| lia].
    rewrite Zlt_Qlt, inject_Z_plus. change (inject_Z 1) with 1. lra. }
  assert (Hk0' := Hk0). assert (Hk1' := Hk1).
  rewrite Zle_Qle in Hk0', Hk1'.
  assert (Hlo' : inject_Z (-200000000) <= inject_Z lo) by (rewrite <- Zle_Qle; exact Hlo).
  assert (Hhi' : inject_Z hi <= inject_Z 200000000) by (rewrite <- Zle_Qle; exact Hhi).
  change (inject_Z (-200000000)) with (- (200000000 # 1)) in Hlo'.
  change (inject_Z 200000000) with (200000000 # 1) in Hhi'.
  assert (E1 : inject_Z k / 100 == inject_Z k * (1 # 100)) by reflexivity.
  assert (E2 : inject_Z lo / 100 == inject_Z lo * (1 # 100)) by reflexivity.
  assert (E3 : inject_Z hi / 100 == inject_Z hi * (1 # 100)) by reflexivity.
  destruct (RN_err21 (inject_Z k / 100)) as [R0 R1]; [split; lra |].
  lra.
Qed.

(** a base price times a factor between [ulo] and [uhi], rounded to two
    decimals *)
Lemma scaled_band (base : Z) (u ulo uhi : Q) (lo hi : Z) :
  (500 <= base <= 50000)%Z ->
  0 <= ulo -> ulo <= u -> u <= uhi -> uhi <= 2 ->
  (0 <= lo)%Z -> (hi <= 200000000)%Z ->
  inject_Z lo - (1 # 8) <= (inject_Z base - eps) * ulo * 100 ->
  (inject_Z base + eps) * uhi * 100 <= inject_Z hi + (1 # 8) ->
  inject_Z lo / 100 - eps <= round2 (fmul (float_of_int base) u) /\
  round2 (fmul (float_of_int base) u) <= inject_Z hi / 100 + eps.
Proof.
  intros Hb Hulo Hu0 Hu1 Huhi Hlo Hhi Hl Hh.
  destruct (float_of_int_range base) as (HB0 & HBl & HBu); [lia |].
  destruct Hb as [Hbl Hbu]. rewrite Zle_Qle in Hbl, Hbu.
  change (inject_Z 500) with (500 # 1) in Hbl.
  change (inject_Z 50000) with (50000 # 1) in Hbu.
  set (B := float_of_int base) in *. unfold eps in *.
  assert (H1 : (inject_Z base - (1 # 4294967296)) * ulo <= B * u)
    by (apply Qmult_le_mono; lra).
  assert (H2 : B * u <= (inject_Z base + (1 # 4294967296)) * uhi)
    by (apply Qmult_le_mono; lra).
  assert (H3 : (inject_Z base + (1 # 4294967296)) * uhi
               <= ((50000 # 1) + (1 # 4294967296)) * 2)
    by (apply Qmult_le_mono; lra).
  assert (H4 : 0 <= (inject_Z base - (1 # 4294967296)) * ulo)
    by (apply Qmult_le_0_compat; lra).
  unfold fmul.
  destruct (RN_err21 (B * u)) as [R0 R1]; [split; lra |]. unfold eps in *.
  apply round2_between; [lia | exact Hhi | |].
  - set (lhs := (inject_Z base - (1 # 4294967296)) * ulo) in *. lra.
  - set (rhs := (inject_Z base + (1 # 4294967296)) * uhi) in *. lra.
Qed.

Lemma cost_band (base : Z) (r : Q) :
  (500 <= base <= 50000)%Z -> 0 <= r -> r < 1 ->
  (6 # 10) * inject_Z base - (1 # 1000000)
    <= round2 (fmul (float_of_int base)
                 (fadd (float_lit (6 # 10))
                    (fmul (fsub (float_lit (8 # 10)) (float_lit (6 # 10))) r))) /\
  round2 (fmul (float_of_int base)
            (fadd (float_lit (6 # 10))
               (fmul (fsub (float_lit (8 # 10)) (float_lit (6 # 10))) r)))
    <= (8 # 10) * inject_Z base + (1 # 1000000).
Proof.
  intros Hb Hr0 Hr1.
  destruct (uniform_bounds (float_lit (6 # 10)) (float_lit (8 # 10)) r) as [Hl Hu];
    [qcompute | qcompute | exact Hr0 | lra |].
  set (u := fadd _ (fmul _ r)) in *.
  assert (Hu0 : (6 # 10) - (1 # 1000000000000000) <= u)
    by (eapply Qle_trans; [| exact Hl]; qcompute).
  assert (Hu1 : u <= (8 # 10) + (1 # 1000000000000000))
    by (eapply Qle_trans; [exact Hu |]; qcompute).
  assert (Hb' := Hb). destruct Hb' as [Hbl Hbu]. rewrite Zle_Qle in Hbl, Hbu.
  change (inject_Z 500) with (500 # 1) in Hbl.
  change (inject_Z 50000) with (50000 # 1) in Hbu.
  destruct (scaled_band base u ((6 # 10) - (1 # 1000000000000000))
              ((8 # 10) + (1 # 1000000000000000)) (60 * base) (80 * base))
    as [S0 S1]; try assumption; try lia; try (unfold eps; discriminate).
  - rewrite inject_Z_mult. change (inject_Z 60) with 60. unfold eps. lra.
  - rewrite inject_Z_mult. change (inject_Z 80) with 80. unfold eps. lra.
  - rewrite inject_Z_mult in S0, S1.
    change (inject_Z 60) with 60 in S0. change (inject_Z 80) with 80 in S1.
    set (c := round2 _) in *. unfold eps in *.
    assert (E0 : 60 * inject_Z base / 100 == (6 # 10) * inject_Z base) by (field).
    assert (E1 : 80 * inject_Z base / 100 == (8 # 10) * inject_Z base) by (field).
    rewrite E0 in S0. rewrite E1 in S1. split; lra.
Qed.

Lemma msrp_band (base : Z) (r : Q) :
  (500 <= base <= 50000)%Z -> 0 <= r -> r < 1 ->
  (11 # 10) * inject_Z base - (1 # 1000000)
    <= round2 (fmul (float_of_int base)
                 (fadd (float_lit (11 # 10))
                    (fmul (fsub (float_lit (13 # 10)) (float_lit (11 # 10))) r))) /\
  round2 (fmul (float_of_int base)
            (fadd (float_lit (11 # 10))
               (fmul (fsub (float_lit (13 # 10)) (float_lit (11 # 10))) r)))
    <= (13 # 10) * inject_Z base + (1 # 1000000).
Proof.
  intros Hb Hr0 Hr1.
  destruct (uniform_bounds (float_lit (11 # 10)) (float_lit (13 # 10)) r) as [Hl Hu];
    [qcompute | qcompute | exact Hr0 | lra |].
  set (u := fadd _ (fmul _ r)) in *.
  assert (Hu0 : (11 # 10) - (1 # 1000000000000000) <= u)
    by (eapply Qle_trans; [| exact Hl]; qcompute).
  assert (Hu1 : u <= (13 # 10) + (1 # 1000000000000000))
    by (eapply Qle_trans; [exact Hu |]; qcompute).
  assert (Hb' := Hb). destruct Hb' as [Hbl Hbu]. rewrite Zle_Qle in Hbl, Hbu.
  change (inject_Z 500) with (500 # 1) in Hbl.
  change (inject_Z 50000) with (50000 # 1) in Hbu.
  destruct (scaled_band base u ((11 # 10) - (1 # 1000000000000000))
              ((13 # 10) + (1 # 1000000000000000)) (110 * base) (130 * base))
    as [S0 S1]; try assumption; try lia; try (unfold eps; discriminate).
  - rewrite inject_Z_mult. change (inject_Z 110) with 110. unfold eps. lra.
  - rewrite inject_Z_mult. change (inject_Z 130) with 130. unfold eps. lra.
  - rewrite inject_Z_mult in S0, S1.
    change (inject_Z 110) with 110 in S0. change (inject_Z 130) with 130 in S1.
    set (c := round2 _) in *. unfold eps in *.
    assert (E0 : 110 * inject_Z base / 100 == (11 # 10) * inject_Z base) by (field).
    assert (E1 : 130 * inject_Z base / 100 == (13 # 10) * inject_Z base) by (field).
    rewrite E0 in S0. rewrite E1 in S1. split; lra.
Qed.

Lemma weight_band_light (r : Q) :
  0 <= r -> r < 1 ->
  (1 # 100) - (1 # 1000000)
    <= round2 (fadd (float_lit (1 # 100))
                 (fmul (fsub (float_lit 2) (float_lit (1 # 100))) r)) /\
  round2 (fadd (float_lit (1 # 100))
            (fmul (fsub (float_lit 2) (float_lit (1 # 100))) r))
    <= 2 + (1 # 1000000).
Proof.
  intros Hr0 Hr1.
  destruct (uniform_bounds (float_lit (1 # 100)) (float_lit 2) r) as [Hl Hu];
    [qcompute | qcompute | exact Hr0 | lra |].
  set (u := fadd _ (fmul _ r)) in *.
  assert (Hu0 : (1 # 100) - (1 # 1000000000000000) <= u)
    by (eapply Qle_trans; [| exact Hl]; qcompute).
  assert (Hu1 : u <= 2 + (1 # 1000000000000000))
    by (eapply Qle_trans; [exact Hu |]; qcompute).
  destruct (round2_between 1 200 u) as [S0 S1]; try lia.
  - change (inject_Z 1) with 1. lra.
  - change (inject_Z 200) with 200. lra.
  - change (inject_Z 1 / 100) with (1 # 100) in S0.
    assert (E : inject_Z 200 / 100 == 2) by reflexivity. rewrite E in S1.
    unfold eps in *. split; lra.
Qed.

Lemma weight_band_heavy (r : Q) :
  0 <= r -> r < 1 ->
  (1 # 10) - (1 # 1000000)
    <= round2 (fadd (float_lit (1 # 10))
                 (fmul (fsub (float_lit 10) (float_lit (1 # 10))) r)) /\
  round2 (fadd (float_lit (1 # 10))
            (fmul (fsub (float_lit 10) (float_lit (1 # 10))) r))
    <= 10 + (1 # 1000000).
Proof.
  intros Hr0 Hr1.
  destruct (uniform_bounds (float_lit (1 # 10)) (float_lit 10) r) as [Hl Hu];
    [qcompute | qcompute | exact Hr0 | lra |].
  set (u := fadd _ (fmul _ r)) in *.
  assert (Hu0 : (1 # 10) - (1 # 1000000000000000) <= u)
    by (eapply Qle_trans; [| exact Hl]; qcompute).
  assert (Hu1 : u <= 10 + (1 # 1000000000000000))
    by (eapply Qle_trans; [exact Hu |]; qcompute).
  destruct (round2_between 10 1000 u) as [S0 S1]; try lia.
  - change (inject_Z 10) with 10. lra.
  - change (inject_Z 1000) with 1000. lra.
  - assert (E0 : inject_Z 10 / 100 == 1 # 10) by reflexivity. rewrite E0 in S0.
    assert (E : inject_Z 1000 / 100 == 10) by reflexivity. rewrite E in S1.
    unfold eps in *. split; lra.
Qed.

Lemma product_bands_intro (i : Z) (name : string) (cid : Z) (brand model descr : string)
    (base : Z) (r1 r2 : Q) (w : Q) (dims : string) (active : bool) :
  (500 <= base <= 50000)%Z -> 0 <= r1 -> r1 < 1 -> 0 <= r2 -> r2 < 1 ->
  (if existsb (Z.eqb cid) [3; 7; 8]%Z
   then (1 # 100) - (1 # 1000000) <= w /\ w <= 2 + (1 # 1000000)
   else (1 # 10) - (1 # 1000000) <= w /\ w <= 10 + (1 # 1000000)) ->
  product_bands
    (Product.mk i name cid brand model descr
       (round2 (fmul (float_of_int base)
                  (fadd (float_lit (6 # 10))
                     (fmul (fsub (float_lit (8 # 10)) (float_lit (6 # 10))) r1))))
       base
       (round2 (fmul (float_of_int base)
                  (fadd (float_lit (11 # 10))
                     (fmul (fsub (float_lit (13 # 10)) (float_lit (11 # 10))) r2))))
       w dims active).
Proof.
  intros Hb H10 H11 H20 H21 Hw.
  destruct (cost_band base r1 Hb H10 H11) as [C0 C1].
  destruct (msrp_band base r2 Hb H20 H21) as [M0 M1].
  unfold product_bands.
  cbn [Product.UNIT_PRICE Product.UNIT_COST Product.MSRP Product.WEIGHT_KG
       Product.CATEGORY_ID].
  cbv zeta.
  split; [exact C0 |]. split; [exact C1 |]. split; [exact M0 |]. split; [exact M1 |].
  exact Hw.
Qed.

Lemma returns_new_product_bands (i : Z) :
  returns product_bands (new_product i).
Proof.
  unfold new_product.
  eapply returns_bind; [apply returns_choice; discriminate |].
  intros category Hc.
  split_in Hc; cbn [fst snd existsb Z.eqb Pos.eqb orb]; cbv iota; repeat mstep.
  all: cbv beta in *;
    repeat match goal with
           | H : exists _, _ |- _ => destruct H as (? & ? & ? & ?)
           end; subst;
    apply product_bands_intro; [assumption .. |];
    cbn [existsb Z.eqb Pos.eqb orb]; cbv iota;
    lazymatch goal with
    | |- _ <= round2 (fadd (float_lit (1 # 100)) _) /\ _ =>
        apply weight_band_light; assumption
    | |- _ <= round2 (fadd (float_lit (1 # 10)) _) /\ _ =>
        apply weight_band_heavy; assumption
    end.
Qed.

Lemma returns_generate_products_bands (n : Z) :
  returns (Forall product_bands) (generate_products n).
Proof.
  unfold generate_products.
  apply (returns_loop (fun _ ps => Forall product_bands ps)).
  - constructor.
  - intros done i ps Hok.
    eapply returns_bind; [apply returns_new_product_bands |].
    intros p Hp. apply returns_ret. apply Forall_app.
    split; [exact Hok | constructor; [exact Hp | constructor]].
Qed.

(** ** [generate_orders] over staffed stores *)







(** ** The exceptions of a run *)












(** * Further properties of the generators and of the export *)

(** ** Customers *)

(** X1: [generate_customers] returns on every tape, and the ANNUAL_INCOME of
    every customer lies in the band of its CUSTOMER_SEGMENT: Premium
    1.5M-5M, VIP 5M-15M, Regular 500K-1.5M, Occasional 200K-800K. *)
Theorem customer_income_follows_segment (today n : Z) (g : rng) :
  exists cs g',
    generate_customers today n g = Ok (cs, g') /\
    Forall (fun c => income_band (Customer.CUSTOMER_SEGMENT c) (Customer.ANNUAL_INCOME c))
           cs.
Proof.
  destruct (returns_generate_customers_profile today n g) as (cs & g' & E & H).
  exists cs, g'. split; [exact E |].
  eapply Forall_impl; [| exact H]. intros c Hc. exact (proj1 Hc).
Qed.

(** X2: every customer of [generate_customers] has a birth month in 1..12
    and a birth day in 1..28, a registration date at most 1825 days before
    today and not after it, names taken from the two name tables, and the
    e-mail address [first.last@domain] built from the lower-cased names and
    one of the four domains. *)
Theorem customer_dates_and_email (today n : Z) (g : rng) :
  exists cs g',
    generate_customers today n g = Ok (cs, g') /\
    Forall (fun c =>
              (1 <= month (Customer.DATE_OF_BIRTH c) <= 12)%Z /\
              (1 <= day (Customer.DATE_OF_BIRTH c) <= 28)%Z /\
              (today - 1825 <= Customer.REGISTRATION_DATE c <= today)%Z /\
              In (Customer.FIRST_NAME c) first_names /\
              In (Customer.LAST_NAME c) last_names /\
              exists domain,
                In domain ["gmail.com"; "yahoo.com"; "hotmail.com"; "outlook.com"]%string /\
                Customer.EMAIL c =
                  (lower (Customer.FIRST_NAME c) ++ "." ++ lower (Customer.LAST_NAME c)
                     ++ "@" ++ domain)%string)
           cs.
Proof.
  destruct (returns_generate_customers_profile today n g) as (cs & g' & E & H).
  exists cs, g'. split; [exact E |].
  eapply Forall_impl; [| exact H]. intros c Hc. exact (proj2 Hc).
Qed.

(** ** Customer addresses *)

(** X3: [generate_customer_addresses] returns on every tape; it emits at
    least one and at most two addresses per customer, every address carries
    the CUSTOMER_ID of a customer of the list passed in and a city listed
    under its province, its type is Primary exactly when it is the default
    address, and its country is Pakistan. *)
Theorem addresses_belong_to_customers (customers : list Customer.t) (g : rng) :
  exists addrs g',
    generate_customer_addresses customers g = Ok (addrs, g') /\
    (length customers <= length addrs <= 2 * length customers)%nat /\
    Forall (fun a =>
              In (Address.CUSTOMER_ID a) (map Customer.CUSTOMER_ID customers) /\
              locality_ok (Address.PROVINCE a) (Address.CITY a) /\
              (Address.ADDRESS_TYPE a = "Primary"%string <-> Address.IS_DEFAULT a = true) /\
              (Address.ADDRESS_TYPE a = "Secondary"%string <-> Address.IS_DEFAULT a = false) /\
              Address.COUNTRY a = "Pakistan"%string)
           addrs.
Proof.
  destruct (returns_conj _ _ _ (returns_generate_customer_addresses customers)
              (ensures_addresses_detail customers) g)
    as (addrs & g' & E & (_ & blocks & -> & Hb) & Hd).
  exists (concat blocks), g'. split; [exact E |].
  split; [apply blocks_length; exact Hb |].
  pose proof (blocks_customer_ids customers blocks Hb) as Hc.
  rewrite Forall_forall in *. intros a Ha.
  destruct (Hd a Ha) as (Hloc & Hty & Hco).
  split; [exact (Hc a Ha) |]. split; [exact Hloc |].
  split; [| split; [| exact Hco]].
  - destruct Hty as [[Hdef Ht] | [Hdef Ht]]; rewrite Hdef, Ht; split; intros H;
      first [reflexivity | discriminate H].
  - destruct Hty as [[Hdef Ht] | [Hdef Ht]]; rewrite Hdef, Ht; split; intros H;
      first [reflexivity | discriminate H].
Qed.

(** ** Products *)

(** X4: [generate_products] returns on every tape; the PRODUCT_ID values
    are 1, 2, ..., n in this order, the CATEGORY_ID of every product is the
    CATEGORY_ID of a row of [generate_product_categories], and its BRAND is
    one of the brands listed for that category. *)
Theorem products_ids_and_categories (n : Z) (g : rng) :
  exists ps g',
    generate_products n g = Ok (ps, g') /\
    map Product.PRODUCT_ID ps = range 1 (n + 1) /\
    Forall (fun p =>
              (exists c, In c generate_product_categories /\
                         Category.CATEGORY_ID c = Product.CATEGORY_ID p) /\
              exists name brands,
                In (Product.CATEGORY_ID p, (name, brands)) product_categories /\
                In (Product.BRAND p) brands)
           ps.
Proof.
  destruct (returns_conj _ _ _ (returns_generate_products n)
              (ensures_products_catalog n) g)
    as (ps & g' & E & (Hids & _) & Hc).
  exists ps, g'. split; [exact E |]. split; [exact Hids |].
  eapply Forall_impl; [| exact Hc]. intros p (name & brands & Hin & Hb).
  split.
  - destruct (category_row _ _ _ Hin) as (c & Hc' & Hid & _). exists c. auto.
  - exists name, brands. auto.
Qed.

(** X5: the sampling ranges of [generate_products] on the stored values.
    On every run, every product has a UNIT_PRICE between 500 and 50000, a
    UNIT_COST between 60% and 80% of it and an MSRP between 110% and 130% of
    it, and a WEIGHT_KG between 0.01 and 2 for the categories 3, 7 and 8
    and between 0.1 and 10 for the others; the bounds hold for the rounded
    values up to 10^-6, the error of representing two decimals in
    binary. *)
Theorem product_cost_msrp_weight_bands (n : Z) (g : rng) :
  exists ps g',
    generate_products n g = Ok (ps, g') /\
    Forall (fun p =>
              (500 <= Product.UNIT_PRICE p <= 50000)%Z /\
              (6 # 10) * inject_Z (Product.UNIT_PRICE p) - (1 # 1000000)
                <= Product.UNIT_COST p /\
              Product.UNIT_COST p
                <= (8 # 10) * inject_Z (Product.UNIT_PRICE p) + (1 # 1000000) /\
              (11 # 10) * inject_Z (Product.UNIT_PRICE p) - (1 # 1000000)
                <= Product.MSRP p /\
              Product.MSRP p
                <= (13 # 10) * inject_Z (Product.UNIT_PRICE p) + (1 # 1000000) /\
              if existsb (Z.eqb (Product.CATEGORY_ID p)) [3; 7; 8]%Z
              then (1 # 100) - (1 # 1000000) <= Product.WEIGHT_KG p /\
                   Product.WEIGHT_KG p <= 2 + (1 # 1000000)
              else (1 # 10) - (1 # 1000000) <= Product.WEIGHT_KG p /\
                   Product.WEIGHT_KG p <= 10 + (1 # 1000000))
           ps.
Proof.
  destruct (returns_conj _ _ _ (returns_generate_products n)
              (returns_ensures _ _ (returns_generate_products_bands n)) g)
    as (ps & g' & E & (_ & Hok) & Hb).
  exists ps, g'. split; [exact E |].
  rewrite Forall_forall in *. intros p Hp.
  split; [exact (proj1 (Hok p Hp)) | exact (Hb p Hp)].
Qed.

(** ** Stores *)

(** X6: [generate_stores] returns on every tape; the STORE_ID values are
    1, 2, ..., n in this order and every store comes without a manager
    (MANAGER_ID is None), with the code ST followed by its identifier padded
    to three digits, a city listed under its province, a store type of the
    table and an opening date at most 3650 days before today. *)
Theorem stores_generated_without_manager (today n : Z) (g : rng) :
  exists ss g',
    generate_stores today n g = Ok (ss, g') /\
    map Store.STORE_ID ss = range 1 (n + 1) /\
    Forall (fun s =>
              Store.MANAGER_ID s = None /\
              locality_ok (Store.PROVINCE s) (Store.CITY s) /\
              (today - 3650 <= Store.OPENING_DATE s <= today)%Z /\
              Store.STORE_CODE s = ("ST" ++ fmt03d (Store.STORE_ID s))%string /\
              In (Store.STORE_TYPE s) store_types)
           ss.
Proof.
  destruct (returns_generate_stores today n g) as (ss & g' & E & Hids & H).
  exists ss, g'. split; [exact E |]. split; [exact Hids | exact H].
Qed.

(** ** Employees *)

(** X7: in a run of [generate_employees] that returns, the EMPLOYEE_ID
    values are 1, 2, ..., n in this order and, after the two back-fill
    passes, every employee still has a salary in the band of its job title
    (Manager 80K-150K, Supervisor 60K-100K, any other title 30K-60K), a
    department of the table and a hire date at most 1825 days before
    today. *)
Theorem employee_salary_follows_title
    (today : Z) (stores : list Store.t) (n : Z) (g : rng)
    (emps : list Employee.t) (stores' : list Store.t) (g' : rng) :
  generate_employees today stores n g = Ok (emps, stores', g') ->
  map Employee.EMPLOYEE_ID emps = range 1 (n + 1) /\
  Forall (fun e =>
            salary_band (Employee.JOB_TITLE e) (Employee.SALARY e) /\
            In (Employee.DEPARTMENT e) departments /\
            (today - 1825 <= Employee.HIRE_DATE e <= today)%Z)
         emps.
Proof.
  intros H. split.
  - apply ensures_generate_employees in H. exact (proj1 H).
  - apply ensures_employees_profile in H. exact H.
Qed.

Lemma employee_salary_follows_title_witness :
  generate_employees sample_today sample_stores 6 (table_tape staff_draws) =
    Ok (fst (fst mixed_staff), snd (fst mixed_staff), snd mixed_staff) /\
  map Employee.EMPLOYEE_ID (fst (fst mixed_staff)) = range 1 (6 + 1) /\
  Forall (fun e =>
            salary_band (Employee.JOB_TITLE e) (Employee.SALARY e) /\
            In (Employee.DEPARTMENT e) departments /\
            (sample_today - 1825 <= Employee.HIRE_DATE e <= sample_today)%Z)
         (fst (fst mixed_staff)).
Proof.
  split; [vm_compute; reflexivity |].
  apply (employee_salary_follows_title sample_today sample_stores 6
           (table_tape staff_draws)
           (fst (fst mixed_staff)) (snd (fst mixed_staff)) (snd mixed_staff)).
  vm_compute. reflexivity.
Defined.

(** X8: the first back-fill pass of [generate_employees].  In a run that
    returns, an employee whose MANAGER_ID is set has no manager title, and
    the identifier stored is the EMPLOYEE_ID of an employee of the returned
    table who has a manager title and no manager of its own; employees with
    a manager title keep MANAGER_ID unset. *)
Theorem manager_backfill_links
    (today : Z) (stores : list Store.t) (n : Z) (g : rng)
    (emps : list Employee.t) (stores' : list Store.t) (g' : rng) :
  generate_employees today stores n g = Ok (emps, stores', g') ->
  Forall (fun e =>
            match Employee.MANAGER_ID e with
            | None => True
            | Some m =>
                is_manager e = false /\
                exists mgr, In mgr emps /\
                            Employee.EMPLOYEE_ID mgr = m /\
                            is_manager mgr = true /\
                            Employee.MANAGER_ID mgr = None
            end)
         emps.
Proof.
  intros H. apply ensures_employees_manager_links in H. exact H.
Qed.

Lemma manager_backfill_links_witness :
  generate_employees sample_today sample_stores 6 (table_tape staff_draws) =
    Ok (fst (fst mixed_staff), snd (fst mixed_staff), snd mixed_staff) /\
  map Employee.MANAGER_ID (fst (fst mixed_staff)) =
    [Some 4; Some 5; Some 4; None; None; None]%Z /\
  Forall (fun e =>
            match Employee.MANAGER_ID e with
            | None => True
            | Some m =>
                is_manager e = false /\
                exists mgr, In mgr (fst (fst mixed_staff)) /\
                            Employee.EMPLOYEE_ID mgr = m /\
                            is_manager mgr = true /\
                            Employee.MANAGER_ID mgr = None
            end)
         (fst (fst mixed_staff)).
Proof.
  split; [vm_compute; reflexivity |]. split; [vm_compute; reflexivity |].
  apply (manager_backfill_links sample_today sample_stores 6
           (table_tape staff_draws)
           (fst (fst mixed_staff)) (snd (fst mixed_staff)) (snd mixed_staff)).
  vm_compute. reflexivity.
Defined.

(** X9: the second back-fill pass of [generate_employees].  For stores
    passed in without a manager, in a run that returns the stores come back
    in the same order with the same identifiers; a store whose MANAGER_ID is
    set carries the EMPLOYEE_ID of an employee of the returned table who
    works at that store and has a manager title, and a store whose
    MANAGER_ID is still unset has no employee with a manager title. *)
Theorem store_manager_backfill
    (today : Z) (stores : list Store.t) (n : Z) (g : rng)
    (emps : list Employee.t) (stores' : list Store.t) (g' : rng) :
  generate_employees today stores n g = Ok (emps, stores', g') ->
  Forall (fun s => Store.MANAGER_ID s = None) stores ->
  map Store.STORE_ID stores' = map Store.STORE_ID stores /\
  Forall (fun s' =>
            match Store.MANAGER_ID s' with
            | Some m =>
                exists e, In e emps /\
                          Employee.EMPLOYEE_ID e = m /\
                          Employee.STORE_ID e = Store.STORE_ID s' /\
                          is_manager e = true
            | None =>
                Forall (fun e => Employee.STORE_ID e <> Store.STORE_ID s' \/
                                 is_manager e = false)
                       emps
            end)
         stores'.
Proof.
  intros H Hnone. split.
  - apply ensures_generate_employees in H. exact (proj2 (proj2 H)).
  - apply (ensures_employees_store_links today stores n Hnone) in H. exact H.
Qed.

Lemma store_manager_backfill_witness :
  generate_employees sample_today sample_stores 6 (table_tape staff_draws) =
    Ok (fst (fst mixed_staff), snd (fst mixed_staff), snd mixed_staff) /\
  Forall (fun s => Store.MANAGER_ID s = None) sample_stores /\
  map Store.MANAGER_ID (snd (fst mixed_staff)) = [None; Some 5%Z] /\
  map Store.STORE_ID (snd (fst mixed_staff)) = map Store.STORE_ID sample_stores /\
  Forall (fun s' =>
            match Store.MANAGER_ID s' with
            | Some m =>
                exists e, In e (fst (fst mixed_staff)) /\
                          Employee.EMPLOYEE_ID e = m /\
                          Employee.STORE_ID e = Store.STORE_ID s' /\
                          is_manager e = true
            | None =>
                Forall (fun e => Employee.STORE_ID e <> Store.STORE_ID s' \/
                                 is_manager e = false)
                       (fst (fst mixed_staff))
            end)
         (snd (fst mixed_staff)).
Proof.
  split; [vm_compute; reflexivity |].
  split; [repeat constructor |].
  split; [vm_compute; reflexivity |].
  apply (store_manager_backfill sample_today sample_stores 6
           (table_tape staff_draws)
           (fst (fst mixed_staff)) (snd (fst mixed_staff)) (snd mixed_staff)).
  - vm_compute. reflexivity.
  - repeat constructor.
Defined.

(** X10: the first back-fill pass is not guarded against an empty list of
    managers.  On a tape whose draws are all 0, with at least one store and
    a positive count, every employee is given the first job title (Sales
    Associate), so no employee has a manager title; the first pass then
    draws 0 < 0.3 for the first employee and [generate_employees] ends in
    the IndexError of [random.choice] on the empty list of managers. *)
Theorem generate_employees_unguarded_no_manager
    (today : Z) (stores : list Store.t) (n : Z) (g : rng) :
  stores <> [] -> (0 < n)%Z -> (forall k, tape g k = 0%Z) ->
  generate_employees today stores n g = Raise IndexError.
Proof.
  intros Hs Hn Hg. destruct stores as [| s stores]; [congruence |].
  revert g Hg. change (raises_on_zeros IndexError (generate_employees today (s :: stores) n)).
  unfold generate_employees.
  eapply raises_on_zeros_bind_r.
  { apply (returns_on_zeros_loop
             (fun done es => Forall (fun e => is_manager e = false) es /\
                             length es = length done)).
    - split; [constructor | reflexivity].
    - intros done i es [Hno Hlen].
      eapply returns_on_zeros_bind; [apply returns_on_zeros_new_employee |].
      intros e He. apply returns_on_zeros_ret. split.
      + apply Forall_app. split; [exact Hno | constructor; [exact He | constructor]].
      + rewrite !length_app, Hlen. reflexivity. }
  intros es0 [Hno Hlen]. cbv beta.
  rewrite (filter_none _ _ Hno).
  apply raises_on_zeros_bind_l.
  destruct es0 as [| e es0].
  - rewrite range_length in Hlen. cbn [length] in Hlen. lia.
  - apply raises_on_zeros_assign_first. inversion Hno; assumption.
Qed.

Lemma generate_employees_unguarded_no_manager_witness :
  sample_stores <> [] /\ (0 < 3)%Z /\ (forall k, tape (constant_tape 0) k = 0%Z) /\
  generate_employees sample_today sample_stores 3 (constant_tape 0) = Raise IndexError.
Proof.
  assert (Hs : sample_stores <> []) by discriminate.
  assert (Hn : (0 < 3)%Z) by reflexivity.
  assert (Hg : forall k, tape (constant_tape 0) k = 0%Z) by reflexivity.
  split; [exact Hs |]. split; [exact Hn |]. split; [exact Hg |].
  exact (generate_employees_unguarded_no_manager sample_today sample_stores 3
           (constant_tape 0) Hs Hn Hg).
Defined.

(** ** Orders *)

(** X11: every order of [generate_orders] is dated at most 730 days before
    today, is required 1 to 14 days after its date and, when it has a ship
    date, ships 1 to 7 days after its date.  An order with a ship date is
    Shipped or Delivered (Delivered only when the ship date is before today)
    and its payment is Completed; an order without a ship date is Pending or
    Processing and its payment is Pending.  The shipping and payment methods
    come from the two tables, and no order is ever Cancelled. *)
Theorem order_dates_and_status
    (today : Z) (customers : list Customer.t) (stores : list Store.t)
    (employees : list Employee.t) (products : list Product.t) (n : Z) (g : rng)
    (orders : list Order.t) (details : list OrderLine.t) (g' : rng) :
  generate_orders today customers stores employees products n g =
    Ok (orders, details, g') ->
  Forall (fun o => order_schedule_ok today o /\
                   Order.ORDER_STATUS o <> "Cancelled"%string)
         orders.
Proof.
  intros H. apply ensures_generate_orders_facts in H. cbn [fst snd] in H.
  apply tables_orders in H. eapply Forall_impl; [| exact H].
  intros o Ho. split; [exact Ho |].
  destruct Ho as (_ & _ & Hs & _).
  destruct (Order.SHIP_DATE o).
  - destruct Hs as (_ & [E | [E _]] & _); rewrite E; discriminate.
  - destruct Hs as ([E | E] & _); rewrite E; discriminate.
Qed.

Lemma order_dates_and_status_witness :
  generate_orders sample_today (Data.customers (fst mixed_run))
    (Data.stores (fst mixed_run)) (Data.employees (fst mixed_run))
    (Data.products (fst mixed_run)) 3 (table_tape mixed_draws) =
    Ok (fst (fst mixed_orders), snd (fst mixed_orders), snd mixed_orders) /\
  map Order.ORDER_STATUS (fst (fst mixed_orders)) =
    ["Shipped"; "Shipped"; "Delivered"]%string /\
  Forall (fun o => order_schedule_ok sample_today o /\
                   Order.ORDER_STATUS o <> "Cancelled"%string)
         (fst (fst mixed_orders)).
Proof.
  split; [vm_compute; reflexivity |]. split; [vm_compute; reflexivity |].
  apply (order_dates_and_status sample_today (Data.customers (fst mixed_run))
           (Data.stores (fst mixed_run)) (Data.employees (fst mixed_run))
           (Data.products (fst mixed_run)) 3 (table_tape mixed_draws)
           (fst (fst mixed_orders)) (snd (fst mixed_orders)) (snd mixed_orders)).
  vm_compute. reflexivity.
Defined.

(** X12: in a run of [generate_orders] that returns, the ORDER_ID values
    are 1, 2, ..., n in this order; every order carries the CUSTOMER_ID of a
    customer of the table passed in; every order line carries the ORDER_ID
    of an order of the returned table, the PRODUCT_ID of a product of the
    catalogue together with that product's UNIT_PRICE, and a quantity
    between 1 and 5. *)
Theorem orders_reference_customers_and_products
    (today : Z) (customers : list Customer.t) (stores : list Store.t)
    (employees : list Employee.t) (products : list Product.t) (n : Z) (g : rng)
    (orders : list Order.t) (details : list OrderLine.t) (g' : rng) :
  generate_orders today customers stores employees products n g =
    Ok (orders, details, g') ->
  map Order.ORDER_ID orders = range 1 (n + 1) /\
  Forall (fun o => exists c, In c customers /\
                             Customer.CUSTOMER_ID c = Order.CUSTOMER_ID o)
         orders /\
  Forall (fun l =>
            (exists o, In o orders /\ Order.ORDER_ID o = OrderLine.ORDER_ID l) /\
            (exists p, In p products /\
                       Product.PRODUCT_ID p = OrderLine.PRODUCT_ID l /\
                       Product.UNIT_PRICE p = OrderLine.UNIT_PRICE l) /\
            (1 <= OrderLine.QUANTITY_ORDERED l <= 5)%Z)
         details.
Proof.
  intros H. apply ensures_generate_orders in H. cbn [fst snd] in H.
  destruct (built_ids _ _ _ _ _ _ _ H) as [Hids Hdet].
  split; [exact Hids |]. split.
  - apply built_orders in H. eapply Forall_impl; [| exact H].
    intros o (lines & draws & Hspec).
    destruct Hspec as (_ & _ & _ & _ & _ & _ & _ & _ & _ & _ & _ & Hc & _). exact Hc.
  - apply built_lines in H. rewrite Forall_forall in *. intros l Hl.
    destruct (H l Hl) as (i & [[p q] f] & -> & [Hq _] & Hp).
    specialize (Hdet _ Hl). rewrite <- Hids in Hdet.
    apply in_map_iff in Hdet. destruct Hdet as (o & Ho & Hin).
    cbn [fst snd draw_product] in *.
    split; [exists o; split; [exact Hin | exact Ho] |].
    split; [exists p; split; [exact Hp | split; reflexivity] | exact Hq].
Qed.

Lemma orders_reference_customers_and_products_witness :
  generate_orders sample_today (Data.customers (fst mixed_run))
    (Data.stores (fst mixed_run)) (Data.employees (fst mixed_run))
    (Data.products (fst mixed_run)) 3 (table_tape mixed_draws) =
    Ok (fst (fst mixed_orders), snd (fst mixed_orders), snd mixed_orders) /\
  map Order.ORDER_ID (fst (fst mixed_orders)) = range 1 (3 + 1) /\
  Forall (fun o => exists c, In c (Data.customers (fst mixed_run)) /\
                             Customer.CUSTOMER_ID c = Order.CUSTOMER_ID o)
         (fst (fst mixed_orders)) /\
  Forall (fun l =>
            (exists o, In o (fst (fst mixed_orders)) /\
                       Order.ORDER_ID o = OrderLine.ORDER_ID l) /\
            (exists p, In p (Data.products (fst mixed_run)) /\
                       Product.PRODUCT_ID p = OrderLine.PRODUCT_ID l /\
                       Product.UNIT_PRICE p = OrderLine.UNIT_PRICE l) /\
            (1 <= OrderLine.QUANTITY_ORDERED l <= 5)%Z)
         (snd (fst mixed_orders)).
Proof.
  split; [vm_compute; reflexivity |].
  apply (orders_reference_customers_and_products sample_today
           (Data.customers (fst mixed_run))
           (Data.stores (fst mixed_run)) (Data.employees (fst mixed_run))
           (Data.products (fst mixed_run)) 3 (table_tape mixed_draws)
           (fst (fst mixed_orders)) (snd (fst mixed_orders)) (snd mixed_orders)).
  vm_compute. reflexivity.
Defined.

(** X13: the number of lines of an order.  In a run of [generate_orders]
    that returns, every order has min(k, number of products) lines for a k
    between 1 and 5 (the request to [sample] is clamped to the size of the
    catalogue); so [order_details] has at most five lines per order, at
    least one line per order when the catalogue is not empty, and no line at
    all when the catalogue is empty. *)
Theorem order_line_counts
    (today : Z) (customers : list Customer.t) (stores : list Store.t)
    (employees : list Employee.t) (products : list Product.t) (n : Z) (g : rng)
    (orders : list Order.t) (details : list OrderLine.t) (g' : rng) :
  generate_orders today customers stores employees products n g =
    Ok (orders, details, g') ->
  Forall (fun o => exists k, (1 <= k <= 5)%Z /\
                     length (lines_of details o) =
                       Z.to_nat (Z.min k (Z.of_nat (length products))))
         orders /\
  (length details <= 5 * length orders)%nat /\
  (products <> [] -> (length orders <= length details)%nat) /\
  (products = [] -> details = []).
Proof.
  intros H. apply ensures_generate_orders_facts in H. cbn [fst snd] in H.
  split; [| apply (tables_lines_total _ _ _ _ _ H)].
  apply Forall_forall. intros o Ho.
  destruct (tables_lines_of_order _ _ _ _ _ H (range_NoDup 1 (n + 1)) o Ho) as (Hk & _).
  exact Hk.
Qed.

Lemma order_line_counts_witness :
  generate_orders sample_today (Data.customers (fst mixed_run))
    (Data.stores (fst mixed_run)) (Data.employees (fst mixed_run))
    (Data.products (fst mixed_run)) 3 (table_tape mixed_draws) =
    Ok (fst (fst mixed_orders), snd (fst mixed_orders), snd mixed_orders) /\
  map (fun o => length (lines_of (snd (fst mixed_orders)) o)) (fst (fst mixed_orders)) =
    [3; 1; 3]%nat /\
  Forall (fun o => exists k, (1 <= k <= 5)%Z /\
                     length (lines_of (snd (fst mixed_orders)) o) =
                       Z.to_nat (Z.min k (Z.of_nat (length (Data.products (fst mixed_run))))))
         (fst (fst mixed_orders)) /\
  (length (snd (fst mixed_orders)) <= 5 * length (fst (fst mixed_orders)))%nat /\
  (Data.products (fst mixed_run) <> [] ->
   (length (fst (fst mixed_orders)) <= length (snd (fst mixed_orders)))%nat) /\
  (Data.products (fst mixed_run) = [] -> snd (fst mixed_orders) = []).
Proof.
  split; [vm_compute; reflexivity |]. split; [vm_compute; reflexivity |].
  apply (order_line_counts sample_today (Data.customers (fst mixed_run))
           (Data.stores (fst mixed_run)) (Data.employees (fst mixed_run))
           (Data.products (fst mixed_run)) 3 (table_tape mixed_draws)
           (fst (fst mixed_orders)) (snd (fst mixed_orders)) (snd mixed_orders)).
  vm_compute. reflexivity.
Defined.

(** X14: the composite key of [order_details].  Over a catalogue with
    pairwise distinct PRODUCT_ID values, in a run of [generate_orders] that
    returns no two order lines share both ORDER_ID and PRODUCT_ID.  This
    uses that [sample] takes its entries at pairwise distinct positions of
    the catalogue, as the selection loop modelled here does and as the
    selection by rejection that CPython uses for larger populations does
    too. *)
Theorem order_details_key_unique
    (today : Z) (customers : list Customer.t) (stores : list Store.t)
    (employees : list Employee.t) (products : list Product.t) (n : Z) (g : rng)
    (orders : list Order.t) (details : list OrderLine.t) (g' : rng) :
  generate_orders today customers stores employees products n g =
    Ok (orders, details, g') ->
  NoDup (map Product.PRODUCT_ID products) ->
  NoDup (map (fun l => (OrderLine.ORDER_ID l, OrderLine.PRODUCT_ID l)) details).
Proof.
  intros H Hp. apply ensures_generate_orders_facts in H. cbn [fst snd] in H.
  exact (tables_key_NoDup _ _ _ _ _ H (range_NoDup 1 (n + 1)) Hp).
Qed.

Lemma order_details_key_unique_witness :
  generate_orders sample_today (Data.customers (fst mixed_run))
    (Data.stores (fst mixed_run)) (Data.employees (fst mixed_run))
    (Data.products (fst mixed_run)) 3 (table_tape mixed_draws) =
    Ok (fst (fst mixed_orders), snd (fst mixed_orders), snd mixed_orders) /\
  NoDup (map Product.PRODUCT_ID (Data.products (fst mixed_run))) /\
  map (fun l => (OrderLine.ORDER_ID l, OrderLine.PRODUCT_ID l)) (snd (fst mixed_orders)) =
    [(1, 1); (1, 4); (1, 2); (2, 1); (3, 4); (3, 3); (3, 1)]%Z /\
  NoDup (map (fun l => (OrderLine.ORDER_ID l, OrderLine.PRODUCT_ID l))
             (snd (fst mixed_orders))).
Proof.
  assert (Hp : NoDup (map Product.PRODUCT_ID (Data.products (fst mixed_run)))).
  { change (NoDup [1; 2; 3; 4]%Z). repeat constructor; cbn [In]; lia. }
  split; [vm_compute; reflexivity |]. split; [exact Hp |].
  split; [vm_compute; reflexivity |].
  apply (order_details_key_unique sample_today (Data.customers (fst mixed_run))
           (Data.stores (fst mixed_run)) (Data.employees (fst mixed_run))
           (Data.products (fst mixed_run)) 3 (table_tape mixed_draws)
           (fst (fst mixed_orders)) (snd (fst mixed_orders)) (snd mixed_orders));
    [vm_compute; reflexivity | exact Hp].
Defined.



(** ** Order amounts *)

(** X16: the order total against the line totals.  Over a catalogue with
    unit prices between 0 and 50000, the stored TOTAL_AMOUNT of every order
    of [generate_orders] differs from the sum of the stored
    TOTAL_LINE_AMOUNT values of its lines by at most three cents (up to
    10^-6): the total is the rounded sum of the unrounded line amounts, not
    the sum of the rounded ones. *)
Theorem order_total_close_to_line_totals
    (today : Z) (customers : list Customer.t) (stores : list Store.t)
    (employees : list Employee.t) (products : list Product.t) (n : Z) (g : rng)
    (orders : list Order.t) (details : list OrderLine.t) (g' : rng) :
  generate_orders today customers stores employees products n g =
    Ok (orders, details, g') ->
  Forall price_in_range products ->
  Forall (fun o =>
            Qabs (Order.TOTAL_AMOUNT o -
                  qsum (map OrderLine.TOTAL_LINE_AMOUNT (lines_of details o)))
              <= (3 # 100) + (1 # 1000000))
         orders.
Proof.
  intros H Hp.
  eapply Forall_impl; [| exact (order_amounts_of_run _ _ _ _ _ _ _ _ _ _ H Hp)].
  intros o Ho. exact (proj1 Ho).
Qed.

Lemma order_total_close_to_line_totals_witness :
  generate_orders sample_today (Data.customers (fst mixed_run))
    (Data.stores (fst mixed_run)) (Data.employees (fst mixed_run))
    (Data.products (fst mixed_run)) 3 (table_tape mixed_draws) =
    Ok (fst (fst mixed_orders), snd (fst mixed_orders), snd mixed_orders) /\
  Forall price_in_range (Data.products (fst mixed_run)) /\
  Forall (fun o =>
            Qabs (Order.TOTAL_AMOUNT o -
                  qsum (map OrderLine.TOTAL_LINE_AMOUNT
                          (lines_of (snd (fst mixed_orders)) o)))
              <= (3 # 100) + (1 # 1000000))
         (fst (fst mixed_orders)).
Proof.
  assert (Hp : Forall price_in_range (Data.products (fst mixed_run)))
    by (repeat constructor; vm_compute; discriminate).
  split; [vm_compute; reflexivity |]. split; [exact Hp |].
  apply (order_total_close_to_line_totals sample_today (Data.customers (fst mixed_run))
           (Data.stores (fst mixed_run)) (Data.employees (fst mixed_run))
           (Data.products (fst mixed_run)) 3 (table_tape mixed_draws)
           (fst (fst mixed_orders)) (snd (fst mixed_orders)) (snd mixed_orders));
    [vm_compute; reflexivity | exact Hp].
Defined.

(** X17: over a catalogue with unit prices between 0 and 50000, the stored
    TAX_AMOUNT of every order of [generate_orders] is within 0.6 cents of
    15% of its stored TOTAL_AMOUNT. *)
Theorem tax_is_15_percent_of_total
    (today : Z) (customers : list Customer.t) (stores : list Store.t)
    (employees : list Employee.t) (products : list Product.t) (n : Z) (g : rng)
    (orders : list Order.t) (details : list OrderLine.t) (g' : rng) :
  generate_orders today customers stores employees products n g =
    Ok (orders, details, g') ->
  Forall price_in_range products ->
  Forall (fun o => Qabs (Order.TAX_AMOUNT o - (15 # 100) * Order.TOTAL_AMOUNT o)
                     <= 6 # 1000)
         orders.
Proof.
  intros H Hp.
  eapply Forall_impl; [| exact (order_amounts_of_run _ _ _ _ _ _ _ _ _ _ H Hp)].
  intros o Ho. exact (proj1 (proj2 Ho)).
Qed.

Lemma tax_is_15_percent_of_total_witness :
  generate_orders sample_today (Data.customers (fst mixed_run))
    (Data.stores (fst mixed_run)) (Data.employees (fst mixed_run))
    (Data.products (fst mixed_run)) 3 (table_tape mixed_draws) =
    Ok (fst (fst mixed_orders), snd (fst mixed_orders), snd mixed_orders) /\
  Forall price_in_range (Data.products (fst mixed_run)) /\
  Forall (fun o => Qabs (Order.TAX_AMOUNT o - (15 # 100) * Order.TOTAL_AMOUNT o)
                     <= 6 # 1000)
         (fst (fst mixed_orders)).
Proof.
  assert (Hp : Forall price_in_range (Data.products (fst mixed_run)))
    by (repeat constructor; vm_compute; discriminate).
  split; [vm_compute; reflexivity |]. split; [exact Hp |].
  apply (tax_is_15_percent_of_total sample_today (Data.customers (fst mixed_run))
           (Data.stores (fst mixed_run)) (Data.employees (fst mixed_run))
           (Data.products (fst mixed_run)) 3 (table_tape mixed_draws)
           (fst (fst mixed_orders)) (snd (fst mixed_orders)) (snd mixed_orders));
    [vm_compute; reflexivity | exact Hp].
Defined.

(** X18: over a catalogue with unit prices between 0 and 50000, for every
    order of [generate_orders] the stored TOTAL_AMOUNT plus the stored
    DISCOUNT_AMOUNT is within one cent (up to 10^-6) of the undiscounted
    value of its lines, the sum of UNIT_PRICE * QUANTITY_ORDERED. *)
Theorem total_plus_discount_is_gross
    (today : Z) (customers : list Customer.t) (stores : list Store.t)
    (employees : list Employee.t) (products : list Product.t) (n : Z) (g : rng)
    (orders : list Order.t) (details : list OrderLine.t) (g' : rng) :
  generate_orders today customers stores employees products n g =
    Ok (orders, details, g') ->
  Forall price_in_range products ->
  Forall (fun o =>
            Qabs (Order.TOTAL_AMOUNT o + Order.DISCOUNT_AMOUNT o -
                  inject_Z (gross_of_lines (lines_of details o)))
              <= (1 # 100) + (1 # 1000000))
         orders.
Proof.
  intros H Hp.
  eapply Forall_impl; [| exact (order_amounts_of_run _ _ _ _ _ _ _ _ _ _ H Hp)].
  intros o Ho. exact (proj1 (proj2 (proj2 Ho))).
Qed.

Lemma total_plus_discount_is_gross_witness :
  generate_orders sample_today (Data.customers (fst mixed_run))
    (Data.stores (fst mixed_run)) (Data.employees (fst mixed_run))
    (Data.products (fst mixed_run)) 3 (table_tape mixed_draws) =
    Ok (fst (fst mixed_orders), snd (fst mixed_orders), snd mixed_orders) /\
  Forall price_in_range (Data.products (fst mixed_run)) /\
  map (fun o => gross_of_lines (lines_of (snd (fst mixed_orders)) o))
      (fst (fst mixed_orders)) = [260921; 43046; 203601]%Z /\
  Forall (fun o =>
            Qabs (Order.TOTAL_AMOUNT o + Order.DISCOUNT_AMOUNT o -
                  inject_Z (gross_of_lines (lines_of (snd (fst mixed_orders)) o)))
              <= (1 # 100) + (1 # 1000000))
         (fst (fst mixed_orders)).
Proof.
  assert (Hp : Forall price_in_range (Data.products (fst mixed_run)))
    by (repeat constructor; vm_compute; discriminate).
  split; [vm_compute; reflexivity |]. split; [exact Hp |].
  split; [vm_compute; reflexivity |].
  apply (total_plus_discount_is_gross sample_today (Data.customers (fst mixed_run))
           (Data.stores (fst mixed_run)) (Data.employees (fst mixed_run))
           (Data.products (fst mixed_run)) 3 (table_tape mixed_draws)
           (fst (fst mixed_orders)) (snd (fst mixed_orders)) (snd mixed_orders));
    [vm_compute; reflexivity | exact Hp].
Defined.

(** X19: over a catalogue with unit prices between 0 and 50000, no order
    of [generate_orders] stores a negative amount: DISCOUNT_AMOUNT lies
    between 0 and TOTAL_AMOUNT, and TAX_AMOUNT and FINAL_AMOUNT are not
    negative. *)
Theorem order_amounts_never_negative
    (today : Z) (customers : list Customer.t) (stores : list Store.t)
    (employees : list Employee.t) (products : list Product.t) (n : Z) (g : rng)
    (orders : list Order.t) (details : list OrderLine.t) (g' : rng) :
  generate_orders today customers stores employees products n g =
    Ok (orders, details, g') ->
  Forall price_in_range products ->
  Forall (fun o =>
            0 <= Order.DISCOUNT_AMOUNT o /\
            Order.DISCOUNT_AMOUNT o <= Order.TOTAL_AMOUNT o /\
            0 <= Order.TAX_AMOUNT o /\
            0 <= Order.FINAL_AMOUNT o)
         orders.
Proof.
  intros H Hp.
  eapply Forall_impl; [| exact (order_amounts_of_run _ _ _ _ _ _ _ _ _ _ H Hp)].
  intros o Ho. exact (proj2 (proj2 (proj2 Ho))).
Qed.

Lemma order_amounts_never_negative_witness :
  generate_orders sample_today (Data.customers (fst mixed_run))
    (Data.stores (fst mixed_run)) (Data.employees (fst mixed_run))
    (Data.products (fst mixed_run)) 3 (table_tape mixed_draws) =
    Ok (fst (fst mixed_orders), snd (fst mixed_orders), snd mixed_orders) /\
  Forall price_in_range (Data.products (fst mixed_run)) /\
  Forall (fun o =>
            0 <= Order.DISCOUNT_AMOUNT o /\
            Order.DISCOUNT_AMOUNT o <= Order.TOTAL_AMOUNT o /\
            0 <= Order.TAX_AMOUNT o /\
            0 <= Order.FINAL_AMOUNT o)
         (fst (fst mixed_orders)).
Proof.
  assert (Hp : Forall price_in_range (Data.products (fst mixed_run)))
    by (repeat constructor; vm_compute; discriminate).
  split; [vm_compute; reflexivity |]. split; [exact Hp |].
  apply (order_amounts_never_negative sample_today (Data.customers (fst mixed_run))
           (Data.stores (fst mixed_run)) (Data.employees (fst mixed_run))
           (Data.products (fst mixed_run)) 3 (table_tape mixed_draws)
           (fst (fst mixed_orders)) (snd (fst mixed_orders)) (snd mixed_orders));
    [vm_compute; reflexivity | exact Hp].
Defined.

(** ** The data set of [generate_all_data] *)

(** X20: the sizes of the tables.  In a run of [generate_all_data] that
    returns, the customers, products, stores, employees and orders tables
    have exactly the requested numbers of rows (none for a count that is not
    positive), there are eight categories, one or two addresses per
    customer and at most five order lines per order; with a positive number
    of products every order has at least one line and [sales_data] has one
    row per order, and without products there is no order line and
    [sales_data] is empty whatever the number of orders. *)
Theorem dataset_table_sizes
    (today a b c d e : Z) (g : rng) (data : Data.t) (g' : rng) :
  generate_all_data today a b c d e g = Ok (data, g') ->
  length (Data.customers data) = Z.to_nat a /\
  (Z.to_nat a <= length (Data.customer_addresses data) <= 2 * Z.to_nat a)%nat /\
  length (Data.product_categories data) = 8%nat /\
  length (Data.products data) = Z.to_nat b /\
  length (Data.stores data) = Z.to_nat c /\
  length (Data.employees data) = Z.to_nat d /\
  length (Data.orders data) = Z.to_nat e /\
  (length (Data.order_details data) <= 5 * Z.to_nat e)%nat /\
  ((0 < b)%Z ->
   (Z.to_nat e <= length (Data.order_details data))%nat /\
   length (Data.sales_data data) = Z.to_nat e) /\
  ((b <= 0)%Z -> Data.order_details data = [] /\ Data.sales_data data = []).
Proof.
  intros H. apply ensures_dataset in H. exact (dataset_sizes _ _ _ _ _ _ _ H).
Qed.

Lemma dataset_table_sizes_witness :
  generate_all_data sample_today 3 4 2 6 4 (table_tape mixed_draws) =
    Ok (fst mixed_run, snd mixed_run) /\
  length (Data.customer_addresses (fst mixed_run)) = 4%nat /\
  length (Data.order_details (fst mixed_run)) = 12%nat /\
  length (Data.customers (fst mixed_run)) = Z.to_nat 3 /\
  (Z.to_nat 3 <= length (Data.customer_addresses (fst mixed_run)) <= 2 * Z.to_nat 3)%nat /\
  length (Data.product_categories (fst mixed_run)) = 8%nat /\
  length (Data.products (fst mixed_run)) = Z.to_nat 4 /\
  length (Data.stores (fst mixed_run)) = Z.to_nat 2 /\
  length (Data.employees (fst mixed_run)) = Z.to_nat 6 /\
  length (Data.orders (fst mixed_run)) = Z.to_nat 4 /\
  (length (Data.order_details (fst mixed_run)) <= 5 * Z.to_nat 4)%nat /\
  ((0 < 4)%Z ->
   (Z.to_nat 4 <= length (Data.order_details (fst mixed_run)))%nat /\
   length (Data.sales_data (fst mixed_run)) = Z.to_nat 4) /\
  ((4 <= 0)%Z -> Data.order_details (fst mixed_run) = [] /\
                 Data.sales_data (fst mixed_run) = []).
Proof.
  split; [vm_compute; reflexivity |]. split; [vm_compute; reflexivity |].
  split; [vm_compute; reflexivity |].
  apply (dataset_table_sizes sample_today 3 4 2 6 4 (table_tape mixed_draws)
           (fst mixed_run) (snd mixed_run)).
  vm_compute. reflexivity.
Defined.

(** X21: referential integrity of the data set.  In a run of
    [generate_all_data] that returns, every foreign key is a key of its
    parent table: the CUSTOMER_ID of an address, the CATEGORY_ID of a
    product, the STORE_ID of an employee, a MANAGER_ID that is set on an
    employee or on a store, the CUSTOMER_ID, STORE_ID and EMPLOYEE_ID of an
    order, the ORDER_ID and PRODUCT_ID of an order line, and the ORDER_ID of
    a row of [sales_data]. *)
Theorem dataset_referential_integrity
    (today a b c d e : Z) (g : rng) (data : Data.t) (g' : rng) :
  generate_all_data today a b c d e g = Ok (data, g') ->
  Forall (fun x => In (Address.CUSTOMER_ID x)
                      (map Customer.CUSTOMER_ID (Data.customers data)))
         (Data.customer_addresses data) /\
  Forall (fun p => In (Product.CATEGORY_ID p)
                      (map Category.CATEGORY_ID (Data.product_categories data)))
         (Data.products data) /\
  Forall (fun x => In (Employee.STORE_ID x) (map Store.STORE_ID (Data.stores data)) /\
                   forall m, Employee.MANAGER_ID x = Some m ->
                             In m (map Employee.EMPLOYEE_ID (Data.employees data)))
         (Data.employees data) /\
  Forall (fun s => forall m, Store.MANAGER_ID s = Some m ->
                             In m (map Employee.EMPLOYEE_ID (Data.employees data)))
         (Data.stores data) /\
  Forall (fun o => In (Order.CUSTOMER_ID o)
                      (map Customer.CUSTOMER_ID (Data.customers data)) /\
                   In (Order.STORE_ID o) (map Store.STORE_ID (Data.stores data)) /\
                   In (Order.EMPLOYEE_ID o)
                      (map Employee.EMPLOYEE_ID (Data.employees data)))
         (Data.orders data) /\
  Forall (fun l => In (OrderLine.ORDER_ID l) (map Order.ORDER_ID (Data.orders data)) /\
                   In (OrderLine.PRODUCT_ID l)
                      (map Product.PRODUCT_ID (Data.products data)))
         (Data.order_details data) /\
  Forall (fun r => In (Sale.ORDER_ID r) (map Order.ORDER_ID (Data.orders data)))
         (Data.sales_data data).
Proof.
  intros H. apply ensures_dataset in H.
  destruct H as (Hc & (blocks & Ha & Hblk) & Hcat & (Hp & Hpc) & Hs
                 & (He & Hes & Hml & Hsl) & Hb & Ht & Hsd).
  destruct (built_ids _ _ _ _ _ _ _ Hb) as [Ho Hdet].
  split; [rewrite Ha; apply blocks_customer_ids; exact Hblk |].
  split.
  { eapply Forall_impl; [| exact Hpc]. intros p (name & brands & Hin & _).
    destruct (category_row _ _ _ Hin) as (cat & Hcin & Hid & _).
    rewrite Hcat, <- Hid. apply in_map. exact Hcin. }
  split.
  { rewrite Forall_forall in *. intros x Hx. split; [apply Hes; exact Hx |].
    intros m Hm. specialize (Hml x Hx). unfold manager_link_ok in Hml.
    rewrite Hm in Hml. destruct Hml as (_ & mgr & Hin & <- & _).
    apply in_map. exact Hin. }
  split.
  { rewrite Forall_forall in *. intros s Hs' m Hm. specialize (Hsl s Hs').
    unfold store_link_ok in Hsl. rewrite Hm in Hsl.
    destruct Hsl as (x & Hin & <- & _). apply in_map. exact Hin. }
  split.
  { pose proof (built_orders _ _ _ _ _ _ _ Hb) as Hbo.
    eapply Forall_impl; [| exact Hbo]. intros o (lines & draws & Hspec).
    destruct Hspec as (_ & _ & _ & _ & _ & _ & _ & _ & _ & _ & _
                       & (c0 & Hc0 & <-) & (s0 & Hs0 & <-) & (e0 & He0 & <- & _)).
    repeat split; apply in_map; assumption. }
  split.
  { pose proof (built_lines _ _ _ _ _ _ _ Hb) as Hbl.
    rewrite Forall_forall in *. intros l Hl. split; [rewrite Ho; apply Hdet; exact Hl |].
    destruct (Hbl l Hl) as (i & [[p q] f] & -> & _ & Hpin).
    cbn [draw_line OrderLine.PRODUCT_ID]. apply in_map. exact Hpin. }
  rewrite Hsd. apply Forall_forall. intros r Hr.
  apply sales_rows_origin in Hr. destruct Hr as (o & od & Hin & -> & _).
  apply in_map. exact Hin.
Qed.

Lemma dataset_referential_integrity_witness :
  generate_all_data sample_today 3 4 2 6 4 (table_tape mixed_draws) =
    Ok (fst mixed_run, snd mixed_run) /\
  map Employee.MANAGER_ID (Data.employees (fst mixed_run)) =
    [Some 6; None; None; None; None; None]%Z /\
  map Store.MANAGER_ID (Data.stores (fst mixed_run)) = [None; Some 6%Z] /\
  Forall (fun x => In (Address.CUSTOMER_ID x)
                      (map Customer.CUSTOMER_ID (Data.customers (fst mixed_run))))
         (Data.customer_addresses (fst mixed_run)) /\
  Forall (fun p => In (Product.CATEGORY_ID p)
                      (map Category.CATEGORY_ID (Data.product_categories (fst mixed_run))))
         (Data.products (fst mixed_run)) /\
  Forall (fun x => In (Employee.STORE_ID x)
                      (map Store.STORE_ID (Data.stores (fst mixed_run))) /\
                   forall m, Employee.MANAGER_ID x = Some m ->
                             In m (map Employee.EMPLOYEE_ID (Data.employees (fst mixed_run))))
         (Data.employees (fst mixed_run)) /\
  Forall (fun s => forall m, Store.MANAGER_ID s = Some m ->
                             In m (map Employee.EMPLOYEE_ID (Data.employees (fst mixed_run))))
         (Data.stores (fst mixed_run)) /\
  Forall (fun o => In (Order.CUSTOMER_ID o)
                      (map Customer.CUSTOMER_ID (Data.customers (fst mixed_run))) /\
                   In (Order.STORE_ID o) (map Store.STORE_ID (Data.stores (fst mixed_run))) /\
                   In (Order.EMPLOYEE_ID o)
                      (map Employee.EMPLOYEE_ID (Data.employees (fst mixed_run))))
         (Data.orders (fst mixed_run)) /\
  Forall (fun l => In (OrderLine.ORDER_ID l)
                      (map Order.ORDER_ID (Data.orders (fst mixed_run))) /\
                   In (OrderLine.PRODUCT_ID l)
                      (map Product.PRODUCT_ID (Data.products (fst mixed_run))))
         (Data.order_details (fst mixed_run)) /\
  Forall (fun r => In (Sale.ORDER_ID r)
                      (map Order.ORDER_ID (Data.orders (fst mixed_run))))
         (Data.sales_data (fst mixed_run)).
Proof.
  split; [vm_compute; reflexivity |]. split; [vm_compute; reflexivity |].
  split; [vm_compute; reflexivity |].
  apply (dataset_referential_integrity sample_today 3 4 2 6 4 (table_tape mixed_draws)
           (fst mixed_run) (snd mixed_run)).
  vm_compute. reflexivity.
Defined.

(** X22: with a positive number of products, the [sales_data] view of a
    run of [generate_all_data] that returns has exactly one row per order,
    in the order of the orders table, and the row repeats the order's
    ORDER_ID, CUSTOMER_ID, STORE_ID, EMPLOYEE_ID, ORDER_DATE, SHIP_DATE,
    PAYMENT_METHOD, ORDER_STATUS and SHIP_METHOD: no lookup of the
    flattening loop ever fails. *)
Theorem sales_data_one_row_per_order
    (today a b c d e : Z) (g : rng) (data : Data.t) (g' : rng) :
  generate_all_data today a b c d e g = Ok (data, g') ->
  (0 < b)%Z ->
  Forall2 sale_of_order (Data.orders data) (Data.sales_data data).
Proof.
  intros H Hb0. apply ensures_dataset in H.
  destruct H as (_ & _ & _ & (Hp & _) & _ & _ & Hb & Ht & Hsd).
  assert (Hne : Data.products data <> []).
  { intros E. rewrite E in Hp. cbn [map] in Hp.
    assert (L : length (range 1 (b + 1)) = 0%nat) by (rewrite <- Hp; reflexivity).
    rewrite range_size in L. lia. }
  rewrite Hsd, build_sales_data_rows.
  apply (flat_map_singletons sale_of_order).
  apply (row_of_order today _ _ _ _ _ _ _ Hb Ht (range_NoDup 1 (e + 1)) Hne).
Qed.

Lemma sales_data_one_row_per_order_witness :
  generate_all_data sample_today 3 4 2 6 4 (table_tape mixed_draws) =
    Ok (fst mixed_run, snd mixed_run) /\
  (0 < 4)%Z /\
  Forall2 sale_of_order (Data.orders (fst mixed_run)) (Data.sales_data (fst mixed_run)).
Proof.
  split; [vm_compute; reflexivity |]. split; [reflexivity |].
  apply (sales_data_one_row_per_order sample_today 3 4 2 6 4 (table_tape mixed_draws)
           (fst mixed_run) (snd mixed_run)).
  - vm_compute. reflexivity.
  - reflexivity.
Defined.

(** X23: orders need customers, stores and employees.  A run of
    [generate_all_data] with a positive number of orders returns only if the
    numbers of customers, stores and employees are positive as well: with
    any of them missing the first order ends in the IndexError of
    [random.choice] (the number of products may be zero). *)
Theorem orders_need_customers_stores_employees
    (today a b c d e : Z) (g : rng) (data : Data.t) (g' : rng) :
  generate_all_data today a b c d e g = Ok (data, g') ->
  (0 < e)%Z ->
  (0 < a)%Z /\ (0 < c)%Z /\ (0 < d)%Z.
Proof.
  intros H He0. apply ensures_dataset in H.
  destruct H as (Hc & _ & _ & _ & Hs & (He & _) & Hb & _).
  assert (Hids : range 1 (e + 1) <> []).
  { intros E. assert (L : length (range 1 (e + 1)) = 0%nat) by (rewrite E; reflexivity).
    rewrite range_size in L. lia. }
  destruct (built_nonempty _ _ _ _ _ _ _ Hb Hids) as (Nc & Ns & Ne).
  assert (P : forall A (l : list A) (f : A -> Z) (x : Z),
             l <> [] -> map f l = range 1 (x + 1) -> (0 < x)%Z).
  { intros A l f x Hl E. destruct (Z.lt_ge_cases 0 x) as [L | L]; [exact L |].
    rewrite range_nil in E by lia. destruct l; [congruence | discriminate E]. }
  split; [exact (P _ _ _ _ Nc Hc) |].
  split; [exact (P _ _ _ _ Ns Hs) | exact (P _ _ _ _ Ne He)].
Qed.

Lemma orders_need_customers_stores_employees_witness :
  generate_all_data sample_today 3 4 2 6 4 (table_tape mixed_draws) =
    Ok (fst mixed_run, snd mixed_run) /\
  (0 < 4)%Z /\
  (0 < 3)%Z /\ (0 < 2)%Z /\ (0 < 6)%Z.
Proof.
  split; [vm_compute; reflexivity |]. split; [reflexivity |].
  apply (orders_need_customers_stores_employees sample_today 3 4 2 6 4
           (table_tape mixed_draws) (fst mixed_run) (snd mixed_run)).
  - vm_compute. reflexivity.
  - reflexivity.
Defined.



(** ** Export *)

Open Scope string_scope.



Close Scope string_scope.
